(** * blog-comment-service: the comment worker and its notifiers

    A shallow embedding of the two Cloudflare workers of the repository:

    - the comment worker ([src/src/index.ts], the queued version, lines
      446-833): its HTTP [fetch] handler with the CORS wrapper, the tree
      query [recursiveQuery], and its [queue] handler, the email worker;
    - the Telegram notifier ([src/unnamed/part_000], lines 17-56).

    JavaScript strings are sequences of UTF-16 code units; the D1 table
    [comments] is the list of its rows in store order; the module-global
    [corsHeaders] object, the two queues and the console are fields of an
    explicit world state threaded through the handler. *)

From Stdlib Require Import Ascii String ZArith NArith List Bool Lia.
Import ListNotations.

Set Implicit Arguments.

(** ** JavaScript strings *)

Module Js.

(** A string is the list of its UTF-16 code units. *)
Definition jstr := list N.

(** ASCII literals of the source. *)
Definition lit (s : string) : jstr :=
  map N_of_ascii (list_ascii_of_string s).

Fixpoint eqb (s t : jstr) : bool :=
  match s, t with
  | [], [] => true
  | c :: s', d :: t' => N.eqb c d && eqb s' t'
  | _, _ => false
  end.

(** [if (s)] on a string: the empty string is falsy. *)
Definition truthy (s : jstr) : bool :=
  match s with [] => false | _ => true end.

(** [if (x)] on an optional string: [undefined] is falsy too. *)
Definition truthy_opt (x : option jstr) : bool :=
  match x with Some s => truthy s | None => false end.

(** [x || ''] on an optional string. *)
Definition or_empty (x : option jstr) : jstr :=
  match x with
  | Some s => if truthy s then s else []
  | None => []
  end.

(** [a === b] on optional strings ([undefined] equals only itself). *)
Definition opt_eqb (x y : option jstr) : bool :=
  match x, y with
  | Some s, Some t => eqb s t
  | None, None => true
  | _, _ => false
  end.

(** [s.substring(start, end)]: both indices are clamped to the length
    and swapped when [start > end]. *)
Definition substring (s : jstr) (i j : nat) : jstr :=
  let a := Nat.min i (length s) in
  let b := Nat.min j (length s) in
  let from := Nat.min a b in
  let to := Nat.max a b in
  firstn (to - from) (skipn from s).

Definition startsWith (s p : jstr) : bool :=
  eqb (firstn (length p) s) p.

Definition endsWith (s p : jstr) : bool :=
  eqb (skipn (length s - length p) s) p.

(** [s.split(sep)] for a one-unit separator. *)
Fixpoint split (sep : N) (s : jstr) : list jstr :=
  match s with
  | [] => [[]]
  | c :: s' =>
      if N.eqb c sep then [] :: split sep s'
      else match split sep s' with
           | [] => [[c]]
           | w :: ws => (c :: w) :: ws
           end
  end.

(** WhiteSpace and LineTerminator of ECMAScript, the units removed by
    [String.prototype.trim] and skipped by [Number(string)]. *)
Definition is_whitespace (c : N) : bool :=
  match c with
  | 0x09 | 0x0A | 0x0B | 0x0C | 0x0D | 0x20 | 0xA0
  | 0x1680 | 0x202F | 0x205F | 0x3000 | 0x2028 | 0x2029 | 0xFEFF => true
  | _ => (0x2000 <=? c) && (c <=? 0x200A)
  end%N.

Fixpoint trimStart (s : jstr) : jstr :=
  match s with
  | c :: s' => if is_whitespace c then trimStart s' else s
  | [] => []
  end.

Definition trimEnd (s : jstr) : jstr := rev (trimStart (rev s)).

Definition trim (s : jstr) : jstr := trimEnd (trimStart s).

(** [xs.includes(x)] on an array of strings. *)
Definition includes (xs : list jstr) (x : jstr) : bool :=
  existsb (eqb x) xs.

(** *** Numbers

    A Number is a binary64 value.  [Finite neg m e] is the value
    [(-1)^neg * m * 2^e]; values are compared through [number_toZ] and
    [Number_isInteger] only, so the representation need not be unique. *)
Inductive number :=
| NaN
| Infinity (negative : bool)
| Finite (negative : bool) (m : N) (e : Z).

(** The [k] with [2^k <= n/d < 2^(k+1)], for positive [n] and [d]. *)
Definition floor_log2 (n d : Z) : Z :=
  let k := (Z.log2 n - Z.log2 d)%Z in
  let above := if (0 <=? k)%Z then (d * 2 ^ k <=? n)%Z
               else (d <=? n * 2 ^ (- k))%Z in
  if above then k else (k - 1)%Z.

(** The integer nearest to [n/d], ties to the even one. *)
Definition round_half_even (n d : Z) : Z :=
  let q := (n / d)%Z in
  let r := (n mod d)%Z in
  if (2 * r <? d)%Z then q
  else if (d <? 2 * r)%Z then (q + 1)%Z
  else if Z.even q then q else (q + 1)%Z.

(** roundTiesToEven of the rational [n/d >= 0] to binary64: 53
    significant bits, least exponent -1022 (below it the spacing stays
    2^-1074), overflow to Infinity from 2^1024 on. *)
Definition round_binary64 (neg : bool) (n d : Z) : number :=
  if (n =? 0)%Z then Finite neg 0 0
  else
    let k := Z.max (floor_log2 n d) (-1022) in
    let e := (k - 52)%Z in
    let m := if (0 <=? e)%Z then round_half_even n (d * 2 ^ e)
             else round_half_even (n * 2 ^ (- e)) d in
    if (1024 <=? Z.log2 m + e)%Z then Infinity neg
    else Finite neg (Z.to_N m) e.

(** [Number.isInteger(v)] on a Number. *)
Definition number_isInteger (v : number) : bool :=
  match v with
  | Finite _ m e =>
      if (0 <=? e)%Z then true
      else (Z.of_N m mod 2 ^ (- e) =? 0)%Z
  | _ => false
  end.

(** The value of an integral Number. *)
Definition number_toZ (v : number) : Z :=
  match v with
  | Finite neg m e =>
      let a := if (0 <=? e)%Z then (Z.of_N m * 2 ^ e)%Z
               else (Z.of_N m / 2 ^ (- e))%Z in
      if neg then (- a)%Z else a
  | _ => 0%Z
  end.

(** StringToNumber, the grammar StringNumericLiteral of ECMAScript. *)
Definition is_digit (base : N) (c : N) : bool :=
  ((48 <=? c) && (c <? 48 + N.min base 10)
   || (10 <? base) && (97 <=? c) && (c <? 97 + (base - 10))
   || (10 <? base) && (65 <=? c) && (c <? 65 + (base - 10)))%N.

Definition digit_value (c : N) : N :=
  (if c <? 58 then c - 48 else if c <? 91 then c - 55 else c - 87)%N.

Fixpoint span_digits (base : N) (s : jstr) : jstr * jstr :=
  match s with
  | c :: s' =>
      if is_digit base c
      then let (ds, r) := span_digits base s' in (c :: ds, r)
      else ([], s)
  | [] => ([], [])
  end.

Definition digits_value (base : N) (ds : jstr) : N :=
  fold_left (fun acc c => base * acc + digit_value c)%N ds 0%N.

(** An optional sign: [true] for [-]. *)
Definition take_sign (s : jstr) : bool * jstr :=
  match s with
  | 43%N :: r => (false, r)
  | 45%N :: r => (true, r)
  | _ => (false, s)
  end.

(** ExponentPart(opt) at the end of the literal: the decimal exponent,
    or [None] when what is left is not an exponent part. *)
Definition parse_exponent (s : jstr) : option Z :=
  match s with
  | [] => Some 0%Z
  | c :: r =>
      if (c =? 101)%N || (c =? 69)%N then
        let (neg, r1) := take_sign r in
        let (ds, r2) := span_digits 10 r1 in
        match ds, r2 with
        | _ :: _, [] =>
            let v := Z.of_N (digits_value 10 ds) in
            Some (if neg then (- v)%Z else v)
        | _, _ => None
        end
      else None
  end.

(** StrUnsignedDecimalLiteral without [Infinity]: digits, an optional
    fraction, an optional exponent; the value is [mantissa * 10^exp]. *)
Definition parse_unsigned_decimal (s : jstr) : option (N * Z) :=
  let (ip, r1) := span_digits 10 s in
  let '(fp, r2) := match r1 with
                   | 46%N :: r => span_digits 10 r
                   | _ => ([], r1)
                   end in
  match ip ++ fp with
  | [] => None
  | ds =>
      match parse_exponent r2 with
      | Some ex => Some (digits_value 10 ds, (ex - Z.of_nat (length fp))%Z)
      | None => None
      end
  end.

(** The radix a prefix letter announces: [x], [o] or [b], in either
    case. *)
Definition radix_of_prefix (p : N) : option N :=
  if (p =? 120)%N || (p =? 88)%N then Some 16%N
  else if (p =? 111)%N || (p =? 79)%N then Some 8%N
  else if (p =? 98)%N || (p =? 66)%N then Some 2%N
  else None.

(** NonDecimalIntegerLiteral: [0x], [0o], [0b] and their digits. *)
Definition parse_non_decimal (s : jstr) : option N :=
  match s with
  | z :: p :: r =>
      if (z =? 48)%N then
        match radix_of_prefix p with
        | Some b =>
            match span_digits b r with
            | ((_ :: _) as ds, []) => Some (digits_value b ds)
            | _ => None
            end
        | None => None
        end
      else None
  | _ => None
  end.

(** [Number(s)] on a string: white space is trimmed, the empty string
    is [+0], a literal is rounded to the nearest binary64 value, and
    anything else is [NaN].  (For literals of more than 20 significant
    digits ECMAScript also allows rounding after the 20th digit; the
    model rounds the exact value, as the engines do.) *)
Definition Number_of_string (s : jstr) : number :=
  let t := trim s in
  match t with
  | [] => Finite false 0 0
  | _ =>
      match parse_non_decimal t with
      | Some n => round_binary64 false (Z.of_N n) 1
      | None =>
          let (neg, u) := take_sign t in
          if eqb u (lit "Infinity") then Infinity neg
          else
            match parse_unsigned_decimal u with
            | Some (m, ex) =>
                if (0 <=? ex)%Z
                then round_binary64 neg (Z.of_N m * 10 ^ ex) 1
                else round_binary64 neg (Z.of_N m) (10 ^ (- ex))
            | None => NaN
            end
      end
  end.

(** The values the handler passes to [Number] and [Number.isInteger]:
    what [URLSearchParams.get] returns, or a Number. *)
Inductive value :=
| VNull
| VString (s : jstr)
| VNumber (v : number).

(** [Number(v)]: [null] converts to [+0]. *)
Definition Number (v : value) : number :=
  match v with
  | VNull => Finite false 0 0
  | VString s => Number_of_string s
  | VNumber n => n
  end.

(** [Number.isInteger(v)]: false on everything that is not a Number. *)
Definition Number_isInteger (v : value) : bool :=
  match v with
  | VNumber n => number_isInteger n
  | _ => false
  end.

End Js.

Import Js.


(** ** The comment worker ([src/src/index.ts], lines 309-833) *)

Module CommentWorker.

(** *** Payload and row types (lines 330-437) *)

(** The body of [POST /comment]. *)
Module PostCommentEvent.
Record t := {
  article_id : jstr;
  article_original_url : jstr;
  parent_comment_id : option Z;
  author : jstr;
  email : option jstr;
  website : option jstr;
  content : jstr;
  timestamp_ms : option Z
}.
End PostCommentEvent.

Module EmailCommentProperties.
Record t := {
  comment_id : Z;
  comment_timestamp : Z;
  author_name : jstr;
  author_email : option jstr;
  markdown_content : jstr
}.
End EmailCommentProperties.

Module SendCommentNotificationEmailEvent.
Record t := {
  comment : EmailCommentProperties.t;
  reply_to_comment : option EmailCommentProperties.t
}.
End SendCommentNotificationEmailEvent.

Module TelegramCommentProperties.
Record t := {
  article_id : jstr;
  article_original_url : jstr;
  comment_id : Z;
  comment_timestamp : Z;
  author_name : jstr;
  author_email : option jstr;
  markdown_content : jstr
}.
End TelegramCommentProperties.

(** A node of the tree a GET returns. *)
Module Comment.
#[local] Unset Elimination Schemes.
Inductive t := {
  id : Z;
  author : jstr;
  email : jstr;
  website : jstr;
  content : jstr;
  comment_timestamp_ms : Z;
  children : list t
}.
End Comment.

(** A row of the table [comments] ([src/d1_statements/create_table.sql]). *)
Module CommentsRow.
Record t := {
  id : Z;
  article_id : jstr;
  parent_id : Z;
  level : Z;
  author_name : jstr;
  author_email : jstr;
  author_website : jstr;
  markdown_content : jstr;
  html_content : jstr;
  comment_timestamp_ms : Z;
  uuid : jstr
}.
End CommentsRow.

Module RecursiveQueryCommentsRow.
Record t := {
  id : Z;
  author_name : jstr;
  author_email : jstr;
  author_website : jstr;
  html_content : jstr;
  comment_timestamp_ms : Z;
  level : Z
}.
End RecursiveQueryCommentsRow.

Module ParentCommentsRow.
Record t := {
  level : Z;
  id : Z;
  html_content : jstr;
  markdown_content : jstr;
  comment_timestamp_ms : Z;
  author_name : jstr;
  author_email : jstr
}.
End ParentCommentsRow.

Module IdOnlyCommentRow.
Record t := { id : Z }.
End IdOnlyCommentRow.

(** *** The D1 database

    The table is the list of its rows in store order.  Reads answer from
    the table; an INSERT either appends the row, with the next
    AUTOINCREMENT id, or reports an error and leaves the table as it is. *)
Definition D1Database := list CommentsRow.t.

(** The base of a tree query: [base_type] together with [parent_id].
    Every call site passes what [URLSearchParams.get] returned, a string
    or [null], with ['article'] (line 760) and a Number with ['comment']
    (lines 770 and 541). *)
Inductive Base :=
| article (parent_id : option jstr)
| comment (parent_id : Z).

(** The SELECT list of both queries of [recursiveQuery]. *)
Definition select_recursive (r : CommentsRow.t) : RecursiveQueryCommentsRow.t :=
  {| RecursiveQueryCommentsRow.id := CommentsRow.id r;
     RecursiveQueryCommentsRow.author_name := CommentsRow.author_name r;
     RecursiveQueryCommentsRow.author_email := CommentsRow.author_email r;
     RecursiveQueryCommentsRow.author_website := CommentsRow.author_website r;
     RecursiveQueryCommentsRow.html_content := CommentsRow.html_content r;
     RecursiveQueryCommentsRow.comment_timestamp_ms := CommentsRow.comment_timestamp_ms r;
     RecursiveQueryCommentsRow.level := CommentsRow.level r |}.

(** [WHERE article_id = ?1 AND parent_id = 0] (lines 509-513); no row
    equals a bound [null]. *)
Definition query_article (db : D1Database) (article_id : option jstr)
  : list RecursiveQueryCommentsRow.t :=
  map select_recursive
    (filter (fun r => match article_id with
                      | Some a => Js.eqb (CommentsRow.article_id r) a
                      | None => false
                      end
                      && (CommentsRow.parent_id r =? 0)%Z) db).

(** [WHERE parent_id = ?1] (lines 514-518). *)
Definition query_comment (db : D1Database) (parent_id : Z)
  : list RecursiveQueryCommentsRow.t :=
  map select_recursive
    (filter (fun r => (CommentsRow.parent_id r =? parent_id)%Z) db).

(** [SELECT level, id, ... WHERE id = ?1 LIMIT 1], [.first()]
    (lines 673-679). *)
Definition parent_comment_query (db : D1Database) (id : Z)
  : option ParentCommentsRow.t :=
  match find (fun r => (CommentsRow.id r =? id)%Z) db with
  | Some r =>
      Some {| ParentCommentsRow.level := CommentsRow.level r;
              ParentCommentsRow.id := CommentsRow.id r;
              ParentCommentsRow.html_content := CommentsRow.html_content r;
              ParentCommentsRow.markdown_content := CommentsRow.markdown_content r;
              ParentCommentsRow.comment_timestamp_ms := CommentsRow.comment_timestamp_ms r;
              ParentCommentsRow.author_name := CommentsRow.author_name r;
              ParentCommentsRow.author_email := CommentsRow.author_email r |}
  | None => None
  end.

(** [SELECT id FROM comments WHERE uuid = ?1 LIMIT 1], [.first()]
    (lines 718-719). *)
Definition last_insert_id_command (db : D1Database) (uuid : jstr)
  : option IdOnlyCommentRow.t :=
  match find (fun r => Js.eqb (CommentsRow.uuid r) uuid) db with
  | Some r => Some {| IdOnlyCommentRow.id := CommentsRow.id r |}
  | None => None
  end.

(** The id AUTOINCREMENT gives the next row: one more than the largest
    id of the table (at least 1); no row is ever deleted. *)
Definition next_id (db : D1Database) : Z :=
  fold_right (fun r acc => Z.max (CommentsRow.id r + 1) acc) 1%Z db.

(** The INSERT of lines 691-712, with its ten bound values. *)
Definition insert_command (db : D1Database)
    (article_id : jstr) (parent_id level : Z)
    (author_name author_email author_website : jstr)
    (markdown_content html_content : jstr)
    (comment_timestamp_ms : Z) (uuid : jstr) : D1Database :=
  db ++ [ {| CommentsRow.id := next_id db;
             CommentsRow.article_id := article_id;
             CommentsRow.parent_id := parent_id;
             CommentsRow.level := level;
             CommentsRow.author_name := author_name;
             CommentsRow.author_email := author_email;
             CommentsRow.author_website := author_website;
             CommentsRow.markdown_content := markdown_content;
             CommentsRow.html_content := html_content;
             CommentsRow.comment_timestamp_ms := comment_timestamp_ms;
             CommentsRow.uuid := uuid |} ].

(** *** Completions

    An asynchronous call either returns, throws, or is still pending
    when the fuel of its tree walk is spent.  [Escapes e] is a call
    whose promise rejects with [e] and is handed on with [return],
    without [await]: no [catch] block of the function that returns it
    sees the rejection, and that function's own promise rejects with
    [e].  [Error] stands for every exception that is not a
    [DatabaseError], a [SyntaxError] among them. *)

Inductive Exn :=
| DatabaseError (message : jstr)
| Error (message : jstr).

Inductive Completion (A : Type) :=
| Normal (a : A)
| Throw (e : Exn)
| Escapes (e : Exn)
| Pending.

Arguments Normal {A} a.
Arguments Throw {A} e.
Arguments Escapes {A} e.
Arguments Pending {A}.

(** *** recursiveQuery (lines 503-550)

    The walk follows the stored [parent_id] links, which nothing in the
    function bounds; [fuel] bounds the nesting of the calls, and
    [Pending] is a walk that has not returned within it.  [record_error]
    is the [error] field of the record a query of the given base comes
    back with, when it holds an error, that is a non-empty message
    (lines 525-527). *)

(** The [for] loop of lines 529-547: [sub] is the recursive call. *)
Fixpoint for_results (sub : Z -> Completion (list Comment.t)) (is_recursive : bool)
    (results : list RecursiveQueryCommentsRow.t) (comments : list Comment.t)
  : Completion (list Comment.t) :=
  match results with
  | [] => Normal comments
  | result :: rest =>
      let children :=
        if is_recursive then sub (RecursiveQueryCommentsRow.id result)
        else Normal [] in
      match children with
      | Normal subcomments =>
          for_results sub is_recursive rest
            (comments ++
             [ {| Comment.id := RecursiveQueryCommentsRow.id result;
                  Comment.author := RecursiveQueryCommentsRow.author_name result;
                  Comment.email := RecursiveQueryCommentsRow.author_email result;
                  Comment.website := RecursiveQueryCommentsRow.author_website result;
                  Comment.content := RecursiveQueryCommentsRow.html_content result;
                  Comment.comment_timestamp_ms :=
                    RecursiveQueryCommentsRow.comment_timestamp_ms result;
                  Comment.children := [] ++ subcomments |} ])
      | Throw e => Throw e
      | Escapes e => Throw e
      | Pending => Pending
      end
  end.

Fixpoint recursiveQuery (fuel : nat) (db : D1Database)
    (record_error : Base -> option jstr) (base : Base)
    (is_recursive : bool) : Completion (list Comment.t) :=
  match fuel with
  | O => Pending
  | S fuel' =>
      let record :=
        match base with
        | article parent_id => query_article db parent_id
        | comment parent_id => query_comment db parent_id
        end in
      match record_error base with
      | Some error => Throw (DatabaseError error)
      | None =>
          for_results (fun id => recursiveQuery fuel' db record_error (comment id) true)
            is_recursive record []
      end
  end.

(** *** The handler's world

    What a request can read and change: the database and the two queues
    bound in [env], the module-global [corsHeaders] object (lines
    446-452), which lives as long as the worker instance, and the
    console. *)

Module CorsHeaders.
Record t := {
  Access_Control_Allow_Origin : jstr;
  Access_Control_Allow_Methods : jstr;
  Access_Control_Max_Age : jstr;
  Access_Control_Allow_Headers : jstr;
  Access_Control_Expose_Headers : jstr
}.
End CorsHeaders.

(** The object as the module creates it. *)
Definition corsHeaders_initial : CorsHeaders.t :=
  {| CorsHeaders.Access_Control_Allow_Origin := lit "";
     CorsHeaders.Access_Control_Allow_Methods := lit "GET,POST,OPTIONS";
     CorsHeaders.Access_Control_Max_Age := lit "86400";
     CorsHeaders.Access_Control_Allow_Headers := lit "Content-Type, Range, X-Request-With";
     CorsHeaders.Access_Control_Expose_Headers := lit "Content-Length, Content-Range" |}.

(** [Object.entries(corsHeaders)]. *)
Definition entries (h : CorsHeaders.t) : list (jstr * jstr) :=
  [ (lit "Access-Control-Allow-Origin", CorsHeaders.Access_Control_Allow_Origin h);
    (lit "Access-Control-Allow-Methods", CorsHeaders.Access_Control_Allow_Methods h);
    (lit "Access-Control-Max-Age", CorsHeaders.Access_Control_Max_Age h);
    (lit "Access-Control-Allow-Headers", CorsHeaders.Access_Control_Allow_Headers h);
    (lit "Access-Control-Expose-Headers", CorsHeaders.Access_Control_Expose_Headers h) ].

(** [corsHeaders['Access-Control-Allow-Origin'] = origin]. *)
Definition set_Allow_Origin (h : CorsHeaders.t) (origin : jstr) : CorsHeaders.t :=
  {| CorsHeaders.Access_Control_Allow_Origin := origin;
     CorsHeaders.Access_Control_Allow_Methods := CorsHeaders.Access_Control_Allow_Methods h;
     CorsHeaders.Access_Control_Max_Age := CorsHeaders.Access_Control_Max_Age h;
     CorsHeaders.Access_Control_Allow_Headers := CorsHeaders.Access_Control_Allow_Headers h;
     CorsHeaders.Access_Control_Expose_Headers := CorsHeaders.Access_Control_Expose_Headers h |}.

Inductive ConsoleEntry :=
| warn_parent_not_found (parent_comment_id : Z)   (* line 681 *)
| error_last_insert_id                            (* line 721 *)
| error_catched (message : jstr).                 (* line 792 *)

Module World.
Record t := {
  COMMENT_DB : D1Database;
  MESSAGE_QUEUE : list TelegramCommentProperties.t;
  EMAIL_QUEUE : list SendCommentNotificationEmailEvent.t;
  corsHeaders : CorsHeaders.t;
  console : list ConsoleEntry
}.
End World.

Definition set_COMMENT_DB (w : World.t) (db : D1Database) : World.t :=
  {| World.COMMENT_DB := db;
     World.MESSAGE_QUEUE := World.MESSAGE_QUEUE w;
     World.EMAIL_QUEUE := World.EMAIL_QUEUE w;
     World.corsHeaders := World.corsHeaders w;
     World.console := World.console w |}.

Definition set_MESSAGE_QUEUE (w : World.t) (q : list TelegramCommentProperties.t) : World.t :=
  {| World.COMMENT_DB := World.COMMENT_DB w;
     World.MESSAGE_QUEUE := q;
     World.EMAIL_QUEUE := World.EMAIL_QUEUE w;
     World.corsHeaders := World.corsHeaders w;
     World.console := World.console w |}.

Definition set_EMAIL_QUEUE (w : World.t) (q : list SendCommentNotificationEmailEvent.t) : World.t :=
  {| World.COMMENT_DB := World.COMMENT_DB w;
     World.MESSAGE_QUEUE := World.MESSAGE_QUEUE w;
     World.EMAIL_QUEUE := q;
     World.corsHeaders := World.corsHeaders w;
     World.console := World.console w |}.

Definition set_corsHeaders (w : World.t) (h : CorsHeaders.t) : World.t :=
  {| World.COMMENT_DB := World.COMMENT_DB w;
     World.MESSAGE_QUEUE := World.MESSAGE_QUEUE w;
     World.EMAIL_QUEUE := World.EMAIL_QUEUE w;
     World.corsHeaders := h;
     World.console := World.console w |}.

Definition set_console (w : World.t) (c : list ConsoleEntry) : World.t :=
  {| World.COMMENT_DB := World.COMMENT_DB w;
     World.MESSAGE_QUEUE := World.MESSAGE_QUEUE w;
     World.EMAIL_QUEUE := World.EMAIL_QUEUE w;
     World.corsHeaders := World.corsHeaders w;
     World.console := c |}.

(** What the platform decides during one request: the value of
    [crypto.randomUUID()] and of [new Date().getTime()], whether the
    INSERT reports an error, which queries of the tree walk report one,
    and whether a queue rejects a [send]. *)
Module Platform.
Record t := {
  randomUUID : jstr;
  getTime : Z;
  insert_error : option jstr;
  record_error : Base -> option jstr;
  MESSAGE_QUEUE_send_error : option jstr;
  EMAIL_QUEUE_send_error : option jstr
}.
End Platform.

Module Env.
Record t := { ALLOWED_ORIGINS : jstr }.
End Env.

(** *** Requests and responses *)

Module URL.
Record t := {
  pathname : jstr;
  searchParams : list (jstr * jstr)
}.
End URL.

(** A request as the handler reads it: [URL.parse(req.url)] ([None] for
    [null]), [req.method], [req.headers.get('Origin')] and [req.json()]
    (the event, or the message of the error the promise rejects with). *)
Module Request.
Record t := {
  url : option URL.t;
  method : jstr;
  Origin : option jstr;
  json : jstr + PostCommentEvent.t
}.
End Request.

Inductive BodyInit :=
| text (s : jstr)
| JSON_stringify (comments : list Comment.t).

Module ResponseInit.
Record t := {
  headers : option (list (jstr * jstr));
  status : option Z
}.
End ResponseInit.

Module Response.
Record t := {
  body : BodyInit;
  status : Z;
  statusText : jstr;
  headers : list (jstr * jstr)
}.
End Response.

Definition no_init : ResponseInit.t :=
  {| ResponseInit.headers := None; ResponseInit.status := None |}.

Definition status_init (s : Z) : ResponseInit.t :=
  {| ResponseInit.headers := None; ResponseInit.status := Some s |}.

(** [headers.set(key, value)] and [headers.get(key)]; the names used
    here are always spelled the same way. *)
Fixpoint headers_set (hs : list (jstr * jstr)) (key value : jstr) : list (jstr * jstr) :=
  match hs with
  | [] => [(key, value)]
  | (k, v) :: rest =>
      if Js.eqb k key then (key, value) :: rest
      else (k, v) :: headers_set rest key value
  end.

Fixpoint headers_get (hs : list (jstr * jstr)) (key : jstr) : option jstr :=
  match hs with
  | [] => None
  | (k, v) :: rest => if Js.eqb k key then Some v else headers_get rest key
  end.

(** [new Response(body, init)]: status 200 and no status text unless
    given.  Every body the handler passes is a string (a literal or the
    result of [JSON.stringify]), for which the runtime adds the header
    [content-type: text/plain;charset=UTF-8] when [init] names no
    content type. *)
Definition new_Response (body : BodyInit) (init : ResponseInit.t) : Response.t :=
  let given := match ResponseInit.headers init with Some h => h | None => [] end in
  {| Response.body := body;
     Response.status := match ResponseInit.status init with Some s => s | None => 200%Z end;
     Response.statusText := lit "";
     Response.headers :=
       match headers_get given (lit "content-type") with
       | Some _ => given
       | None => given ++ [(lit "content-type", lit "text/plain;charset=UTF-8")]
       end |}.

(** [params.get(name)]: the first value of that name, or [null]. *)
Fixpoint params_get (params : list (jstr * jstr)) (name : jstr) : option jstr :=
  match params with
  | [] => None
  | (k, v) :: rest => if Js.eqb k name then Some v else params_get rest name
  end.

(** *** Effects

    A computation runs in a state and ends in a [Completion]. *)

Definition ST (S A : Type) := S -> Completion A * S.

Definition ret {S A} (a : A) : ST S A := fun w => (Normal a, w).

(** [const x = await m; k x]: an awaited rejection is thrown where
    it is awaited. *)
Definition bind {S A B} (m : ST S A) (k : A -> ST S B) : ST S B :=
  fun w =>
    match m w with
    | (Normal a, w') => k a w'
    | (Throw e, w') => (Throw e, w')
    | (Escapes e, w') => (Throw e, w')
    | (Pending, w') => (Pending, w')
    end.

Definition throw {S A} (e : Exn) : ST S A := fun w => (Throw e, w).

(** [try { body } catch (e) { handler }]; a promise that [body]
    returns without awaiting it is beyond the [catch]. *)
Definition try_catch {S A} (body : ST S A) (handler : Exn -> ST S A) : ST S A :=
  fun w =>
    match body w with
    | (Throw e, w') => handler e w'
    | r => r
    end.

(** The handler's computations. *)
Definition M (A : Type) := ST World.t A.

Definition console_push (e : ConsoleEntry) : M unit :=
  fun w => (Normal tt, set_console w (World.console w ++ [e])).

Notation "x <- m ;; k" := (bind m (fun x => k))
  (at level 61, m at next level, right associativity).
Notation "m ;; k" := (bind m (fun _ => k))
  (at level 61, right associativity).

Definition message (e : Exn) : jstr :=
  match e with
  | DatabaseError m => m
  | Error m => m
  end.

Section Fetch.

(** The markdown renderer (lines 498-501) and [RegExp(p).test(s)] are
    library code; the handler uses them as functions of their arguments.
    [RegExp(p)] throws a SyntaxError when [p] is not a well-formed
    pattern: [inl] with the message of the error. *)
Variable markdownToHtml : jstr -> jstr.
Variable RegExp_test : jstr -> jstr -> jstr + bool.

(** *** setCorsHeaderToResponse (lines 454-496) *)

(** The loop of lines 463-482 over the entries not yet visited: the
    value of [is_allowed] after it, or the message of the SyntaxError
    that ends it. *)
Fixpoint is_allowed_from (origin : jstr) (allowedOrigins rest : list jstr) : jstr + bool :=
  match rest with
  | [] => inr false
  | allowedOrigin :: rest' =>
      if Js.eqb allowedOrigin (lit "*") then inr true
      else if startsWith allowedOrigin (lit "/") && endsWith allowedOrigin (lit "/") then
        match RegExp_test (substring allowedOrigin 1 (length allowedOrigin - 1)) origin with
        | inl error => inl error
        | inr true => inr true
        | inr false => is_allowed_from origin allowedOrigins rest'
        end
      else if Js.eqb origin allowedOrigin then
        if includes allowedOrigins origin then inr true
        else is_allowed_from origin allowedOrigins rest'
      else is_allowed_from origin allowedOrigins rest'
  end.

Definition is_allowed (origin : jstr) (allowedOrigins : list jstr) : jstr + bool :=
  is_allowed_from origin allowedOrigins allowedOrigins.

(** The function is [async] and awaits nothing: it runs to its end when
    it is called, and an exception in it rejects the promise it
    returns.  Every caller hands that promise on with [return]. *)

Definition setCorsHeaderToResponse (request : Request.t) (response : Response.t)
    (allowedOrigins : list jstr) : M Response.t :=
  fun w =>
    match Request.Origin request with
    | None => (Normal (new_Response (text (lit "Origin header not found")) (status_init 400)), w)
    | Some origin =>
        if negb (truthy origin)
        then (Normal (new_Response (text (lit "Origin header not found")) (status_init 400)), w)
        else
          match is_allowed origin allowedOrigins with
          | inl error => (Escapes (Error error), w)
          | inr is_allowed =>
              let w1 :=
                if is_allowed
                then set_corsHeaders w (set_Allow_Origin (World.corsHeaders w) origin)
                else w in
              let new_headers :=
                fold_left (fun hs kv => headers_set hs (fst kv) (snd kv))
                  (entries (World.corsHeaders w1)) (Response.headers response) in
              (Normal {| Response.body := Response.body response;
                         Response.status := Response.status response;
                         Response.statusText := Response.statusText response;
                         Response.headers := new_headers |}, w1)
          end
    end.

(** *** fetch (lines 646-798) *)

Section Handler.

Variable req : Request.t.
Variable env : Env.t.
Variable platform : Platform.t.

(** [getReponse] (lines 647-652). *)
Definition getReponse (body : BodyInit) (init : ResponseInit.t) : M Response.t :=
  setCorsHeaderToResponse req (new_Response body init)
    (map trim (split 59 (Env.ALLOWED_ORIGINS env))).

(** [env.MESSAGE_QUEUE.send(...)] and [env.EMAIL_QUEUE.send(...)]: the
    message joins the queue, or the call throws. *)
Definition MESSAGE_QUEUE_send (m : TelegramCommentProperties.t) : M unit :=
  fun w =>
    match Platform.MESSAGE_QUEUE_send_error platform with
    | Some err => (Throw (Error err), w)
    | None => (Normal tt, set_MESSAGE_QUEUE w (World.MESSAGE_QUEUE w ++ [m]))
    end.

Definition EMAIL_QUEUE_send (m : SendCommentNotificationEmailEvent.t) : M unit :=
  fun w =>
    match Platform.EMAIL_QUEUE_send_error platform with
    | Some err => (Throw (Error err), w)
    | None => (Normal tt, set_EMAIL_QUEUE w (World.EMAIL_QUEUE w ++ [m]))
    end.

(** The [comment] of the email event is the object sent to Telegram,
    read through [EmailCommentProperties]. *)
Definition as_EmailCommentProperties (p : TelegramCommentProperties.t)
  : EmailCommentProperties.t :=
  {| EmailCommentProperties.comment_id := TelegramCommentProperties.comment_id p;
     EmailCommentProperties.comment_timestamp := TelegramCommentProperties.comment_timestamp p;
     EmailCommentProperties.author_name := TelegramCommentProperties.author_name p;
     EmailCommentProperties.author_email := TelegramCommentProperties.author_email p;
     EmailCommentProperties.markdown_content := TelegramCommentProperties.markdown_content p |}.

(** [comment_properties] (lines 724-732). *)
Definition comment_properties (event : PostCommentEvent.t)
    (last_insert_id : IdOnlyCommentRow.t) (send_time : Z)
  : TelegramCommentProperties.t :=
  {| TelegramCommentProperties.article_id := PostCommentEvent.article_id event;
     TelegramCommentProperties.article_original_url :=
       PostCommentEvent.article_original_url event;
     TelegramCommentProperties.comment_id := IdOnlyCommentRow.id last_insert_id;
     TelegramCommentProperties.comment_timestamp := send_time;
     TelegramCommentProperties.author_name := PostCommentEvent.author event;
     TelegramCommentProperties.author_email := PostCommentEvent.email event;
     TelegramCommentProperties.markdown_content := PostCommentEvent.content event |}.

(** [email_event] (lines 737-748). *)
Definition email_event (comment_properties : TelegramCommentProperties.t)
    (parent_comment : option ParentCommentsRow.t)
  : SendCommentNotificationEmailEvent.t :=
  {| SendCommentNotificationEmailEvent.comment :=
       as_EmailCommentProperties comment_properties;
     SendCommentNotificationEmailEvent.reply_to_comment :=
       match parent_comment with
       | Some parent_comment =>
           Some {| EmailCommentProperties.comment_id :=
                     ParentCommentsRow.id parent_comment;
                   EmailCommentProperties.comment_timestamp :=
                     ParentCommentsRow.comment_timestamp_ms parent_comment;
                   EmailCommentProperties.author_name :=
                     ParentCommentsRow.author_name parent_comment;
                   EmailCommentProperties.author_email :=
                     Some (ParentCommentsRow.author_email parent_comment);
                   EmailCommentProperties.markdown_content :=
                     ParentCommentsRow.markdown_content parent_comment |}
       | None => None
       end |}.

(** Lines 717-752: the two notifications and the answer. *)
Definition notify (event : PostCommentEvent.t)
    (parent_comment : option ParentCommentsRow.t) (send_time : Z) (uuid : jstr)
  : M Response.t :=
  fun w =>
    match last_insert_id_command (World.COMMENT_DB w) uuid with
    | None =>
        (console_push error_last_insert_id ;;
         getReponse (text (lit "OK")) no_init) w
    | Some last_insert_id =>
        let comment_properties := comment_properties event last_insert_id send_time in
        (MESSAGE_QUEUE_send comment_properties ;;
         (if truthy_opt (PostCommentEvent.email event)
          then EMAIL_QUEUE_send (email_event comment_properties parent_comment)
          else ret tt) ;;
         getReponse (text (lit "OK")) no_init) w
    end.

(** [event.parent_comment_id || 0]. *)
Definition or_zero (x : option Z) : Z :=
  match x with
  | Some p => p
  | None => 0%Z
  end.

(** Lines 687-715: render, insert, throw on a reported error. *)
Definition insert_comment (event : PostCommentEvent.t) (level : Z)
    (parent_comment : option ParentCommentsRow.t) : M Response.t :=
  fun w =>
    let html_content := markdownToHtml (PostCommentEvent.content event) in
    let uuid := Platform.randomUUID platform in
    let send_time := Platform.getTime platform in
    match Platform.insert_error platform with
    | Some err => (Throw (DatabaseError err), w)
    | None =>
        notify event parent_comment send_time uuid
          (set_COMMENT_DB w
             (insert_command (World.COMMENT_DB w)
                (PostCommentEvent.article_id event)
                (or_zero (PostCommentEvent.parent_comment_id event))
                level
                (PostCommentEvent.author event)
                (or_empty (PostCommentEvent.email event))
                (or_empty (PostCommentEvent.website event))
                (PostCommentEvent.content event)
                html_content
                send_time
                uuid))
    end.

(** [if (event.parent_comment_id)]: [undefined] and [0] are falsy. *)
Definition truthy_id (x : option Z) : bool :=
  match x with
  | Some p => negb (p =? 0)%Z
  | None => false
  end.

(** Lines 666-753: the POST branch. *)
Definition post : M Response.t :=
  match Request.json req with
  | inl err => throw (Error err)
  | inr event =>
      fun w =>
        match PostCommentEvent.parent_comment_id event with
        | Some parent_comment_id =>
            if truthy_id (Some parent_comment_id) then
              match parent_comment_query (World.COMMENT_DB w) parent_comment_id with
              | None =>
                  (console_push (warn_parent_not_found parent_comment_id) ;;
                   getReponse (text (lit "Parent comment not found")) (status_init 404)) w
              | Some parent_comment =>
                  insert_comment event (ParentCommentsRow.level parent_comment + 1)%Z
                    (Some parent_comment) w
              end
            else insert_comment event 0%Z None w
        | None => insert_comment event 0%Z None w
        end
  end.

(** Lines 778-786: the query and its answer. *)
Definition query (fuel : nat) (base : Base) (is_recursive : bool) : M Response.t :=
  fun w =>
    match recursiveQuery fuel (World.COMMENT_DB w) (Platform.record_error platform)
            base is_recursive with
    | Normal comments => getReponse (JSON_stringify comments) no_init w
    | Throw e => (Throw e, w)
    | Escapes e => (Throw e, w)
    | Pending => (Pending, w)
    end.

(** Lines 756-787: the GET branch. *)
Definition get (fuel : nat) (url : URL.t) : M Response.t :=
  let params := URL.searchParams url in
  let comment_base_type := params_get params (lit "comment_base_type") in
  let comment_base_id := params_get params (lit "comment_base_id") in
  let is_recursive := opt_eqb (params_get params (lit "is_recursive")) (Some (lit "true")) in
  let id_value := match comment_base_id with
                  | Some s => VString s
                  | None => VNull
                  end in
  if opt_eqb comment_base_type (Some (lit "article")) then
    if Number_isInteger id_value
    then getReponse (text (lit "Invalid comment ID")) (status_init 400)
    else query fuel (article comment_base_id) is_recursive
  else if opt_eqb comment_base_type (Some (lit "comment")) then
    let comment_base_id := Number id_value in
    if negb (Number_isInteger (VNumber comment_base_id))
    then getReponse (text (lit "Invalid comment ID")) (status_init 400)
    else query fuel (comment (number_toZ comment_base_id)) is_recursive
  else getReponse (text (lit "Invalid comment base type")) (status_init 400).

(** The [try] block, lines 654-790. *)
Definition fetch_try (fuel : nat) : M Response.t :=
  match Request.url req with
  | None => getReponse (text (lit "Not found")) (status_init 404)
  | Some url =>
      if negb (Js.eqb (URL.pathname url) (lit "/comment"))
      then getReponse (text (lit "Not found")) (status_init 404)
      else if Js.eqb (Request.method req) (lit "OPTIONS") then
        fun w =>
          getReponse (text (lit "OK"))
            {| ResponseInit.headers := Some (entries (World.corsHeaders w));
               ResponseInit.status := Some 200%Z |} w
      else if Js.eqb (Request.method req) (lit "POST") then post
      else if Js.eqb (Request.method req) (lit "GET") then get fuel url
      else getReponse (text (lit "Method not allowed")) (status_init 405)
  end.

(** The [catch] block, lines 791-797. *)
Definition fetch_catch (e : Exn) : M Response.t :=
  console_push (error_catched (message e)) ;;
  match e with
  | DatabaseError _ => getReponse (text (lit "Database error")) (status_init 500)
  | Error _ => getReponse (text (lit "Internal server error")) (status_init 500)
  end.

(** The handler, lines 646-798. *)
Definition fetch (fuel : nat) : M Response.t :=
  try_catch (fetch_try fuel) fetch_catch.

End Handler.

End Fetch.

(** *** The email worker (lines 552-643 and 800-832)

    The worker talks to the email provider through [fetch].  A call
    either rejects (the request fails, or the answer is not a JSON
    object) or gives [response.ok] and the parsed body. *)

Inductive Fetched (A : Type) :=
| rejects (message : jstr)
| responds (ok : bool) (response_data : A).

Arguments rejects {A} message.
Arguments responds {A} ok response_data.

(** The body of an answer of [/v3/contacts]: [id] is [None] when the
    object has no such key. *)
Module ContactsData.
Record t := {
  id : option jstr;
  code : option jstr
}.
End ContactsData.

Module SmtpData.
Record t := { messageId : option jstr }.
End SmtpData.

(** The [replied] part of the reply template's parameters. *)
Module Replied.
Record t := {
  author_name : jstr;
  comment_time : jstr;
  comment : jstr
}.
End Replied.

(** The [data] of a send request (lines 600-614 and 619-638). *)
Module EmailData.
Record t := {
  to_email : option jstr;
  to_name : jstr;
  templateId : Z;
  original_comment_time : jstr;
  original_comment : jstr;
  replied : option Replied.t
}.
End EmailData.

(** The requests the worker makes, in order. *)
Inductive Call :=
| POST_contacts (email : jstr) (api_key : jstr)
| POST_smtp_email (data : EmailData.t) (api_key : jstr).

Inductive WorkerConsoleEntry :=
| warn_register_failed (email : jstr)         (* line 567 *)
| error_send_failed                           (* line 586 *)
| log_email_sent (messageId : jstr)           (* line 589 *)
| error_no_author_email                       (* line 807 *)
| error_no_reply_to_email                     (* line 814 *)
| worker_error_catched (message : jstr).      (* line 828 *)

Module Worker.
Record t := {
  calls : list Call;
  console : list WorkerConsoleEntry
}.
End Worker.

(** The provider: its answer to a request, given the requests made
    before. *)
Module Brevo.
Record t := {
  contacts : list Call -> jstr -> Fetched ContactsData.t;
  smtp_email : list Call -> EmailData.t -> Fetched SmtpData.t
}.
End Brevo.

Definition W (A : Type) := ST Worker.t A.

Definition worker_console_push (e : WorkerConsoleEntry) : W unit :=
  fun w => (Normal tt,
            {| Worker.calls := Worker.calls w;
               Worker.console := Worker.console w ++ [e] |}).

Definition record_call (c : Call) : W unit :=
  fun w => (Normal tt,
            {| Worker.calls := Worker.calls w ++ [c];
               Worker.console := Worker.console w |}).

Inductive Decision :=
| ack
| retry.

Section EmailWorker.

Variable brevo : Brevo.t.

(** [getDateString] (lines 594-596) formats through the runtime's
    [toLocaleString]. *)
Variable getDateString : Z -> jstr.

(** [response_data.code != 'duplicate_parameter']. *)
Definition code_is_not_duplicate (code : option jstr) : bool :=
  negb (opt_eqb code (Some (lit "duplicate_parameter"))).

(** Lines 552-570. *)
Definition registerRecipientEmail (email : jstr) (api_key : jstr) : W bool :=
  fun w =>
    let answer := Brevo.contacts brevo (Worker.calls w) email in
    (record_call (POST_contacts email api_key) ;;
     match answer with
     | rejects err => throw (Error err)
     | responds ok response_data =>
         let result :=
           negb ok
           || (match ContactsData.id response_data with Some _ => true | None => false end
               && code_is_not_duplicate (ContactsData.code response_data)) in
         (if negb result then worker_console_push (warn_register_failed email)
          else ret tt) ;;
         ret result
     end) w.

(** Lines 572-592. *)
Definition postSendEmailRequest (data : EmailData.t) (api_key : jstr) : W bool :=
  fun w =>
    let answer := Brevo.smtp_email brevo (Worker.calls w) data in
    (record_call (POST_smtp_email data api_key) ;;
     match answer with
     | rejects err => throw (Error err)
     | responds ok response_data =>
         if negb ok || negb (truthy_opt (SmtpData.messageId response_data))
         then worker_console_push error_send_failed ;; ret false
         else worker_console_push
                (log_email_sent (or_empty (SmtpData.messageId response_data))) ;;
              ret true
     end) w.

(** Lines 598-643. *)
Definition sendEmail (email_event : SendCommentNotificationEmailEvent.t)
    (api_key : jstr) : W bool :=
  let comment := SendCommentNotificationEmailEvent.comment email_event in
  let data :=
    {| EmailData.to_email := EmailCommentProperties.author_email comment;
       EmailData.to_name := EmailCommentProperties.author_name comment;
       EmailData.templateId := 2;
       EmailData.original_comment_time :=
         getDateString (EmailCommentProperties.comment_timestamp comment);
       EmailData.original_comment := EmailCommentProperties.markdown_content comment;
       EmailData.replied := None |} in
  result <- postSendEmailRequest data api_key ;;
  match SendCommentNotificationEmailEvent.reply_to_comment email_event with
  | Some reply_to_comment =>
      if negb (opt_eqb (EmailCommentProperties.author_email comment)
                       (EmailCommentProperties.author_email reply_to_comment))
      then
        let data :=
          {| EmailData.to_email := EmailCommentProperties.author_email reply_to_comment;
             EmailData.to_name := EmailCommentProperties.author_name reply_to_comment;
             EmailData.templateId := 1;
             EmailData.original_comment_time :=
               getDateString (EmailCommentProperties.comment_timestamp reply_to_comment);
             EmailData.original_comment :=
               EmailCommentProperties.markdown_content reply_to_comment;
             EmailData.replied :=
               Some {| Replied.author_name := EmailCommentProperties.author_name comment;
                       Replied.comment_time :=
                         getDateString (EmailCommentProperties.comment_timestamp comment);
                       Replied.comment := EmailCommentProperties.markdown_content comment |} |} in
        if result
        then (sent <- postSendEmailRequest data api_key ;; ret sent)
        else ret false
      else ret result
  | None => ret result
  end.

(** The body of the loop of [queue], lines 802-830: what becomes of one
    message. *)
Definition handle_message (BREVO_API_KEY : jstr)
    (event : SendCommentNotificationEmailEvent.t) : W Decision :=
  try_catch
    (let comment := SendCommentNotificationEmailEvent.comment event in
     match EmailCommentProperties.author_email comment with
     | Some author_email =>
         if negb (truthy author_email)
         then worker_console_push error_no_author_email ;; ret ack
         else
           registerRecipientEmail author_email BREVO_API_KEY ;;
           match SendCommentNotificationEmailEvent.reply_to_comment event with
           | Some reply_to_comment =>
               match EmailCommentProperties.author_email reply_to_comment with
               | Some reply_email =>
                   if negb (truthy reply_email)
                   then worker_console_push error_no_reply_to_email ;; ret ack
                   else
                     registerRecipientEmail reply_email BREVO_API_KEY ;;
                     sent <- sendEmail event BREVO_API_KEY ;;
                     ret (if sent then ack else retry)
               | None => worker_console_push error_no_reply_to_email ;; ret ack
               end
           | None =>
               sent <- sendEmail event BREVO_API_KEY ;;
               ret (if sent then ack else retry)
           end
     | None => worker_console_push error_no_author_email ;; ret ack
     end)
    (fun e => worker_console_push (worker_error_catched (message e)) ;; ret retry).

(** [queue] (lines 800-832): every message of the batch in turn. *)
Fixpoint queue (BREVO_API_KEY : jstr)
    (messages : list SendCommentNotificationEmailEvent.t) : W (list Decision) :=
  match messages with
  | [] => ret []
  | message :: rest =>
      d <- handle_message BREVO_API_KEY message ;;
      ds <- queue BREVO_API_KEY rest ;;
      ret (d :: ds)
  end.

End EmailWorker.

End CommentWorker.

(** ** The Telegram notifier ([src/unnamed/part_000], lines 17-56) *)

Module TelegramNotifier.

Definition TELEGRAM_MESSAGE_LENGTH_LIMIT : nat := 4096.

(** The body of a queue message: the fields the notifier reads.  The
    comment worker leaves [author_email] undefined when the author gave
    no address. *)
Module Message.
Record t := {
  author_name : jstr;
  author_email : option jstr;
  markdown_content : jstr
}.
End Message.

(** The two fixed parts of the template literal of lines 42-44, in
    UTF-16 code units: the greeting before the author's name, and the
    words and the two line feeds before the markdown. *)
Definition text_before_author : jstr :=
  [0x4F60; 0x6536; 0x5230; 0x4E86; 0x6765; 0x81EA; 0x20]%N.

Definition text_before_content : jstr :=
  [0x7684; 0x535A; 0x5BA2; 0x8BC4; 0x8BBA; 0xFF01; 0x0A; 0x0A]%N.

(** The inner template: the address in parentheses and a space, or
    nothing. *)
Definition email_part (author_email : option jstr) : jstr :=
  match author_email with
  | Some e => if truthy e then lit "(" ++ e ++ lit ") " else lit ""
  | None => lit ""
  end.

(** The template literal before [substring]. *)
Definition template (msg : Message.t) : jstr :=
  text_before_author ++ Message.author_name msg ++ lit " "
  ++ email_part (Message.author_email msg)
  ++ text_before_content ++ Message.markdown_content msg.

(** The [text] of the request (lines 42-44). *)
Definition text (msg : Message.t) : jstr :=
  substring (template msg) 0 TELEGRAM_MESSAGE_LENGTH_LIMIT.

(** The JSON posted to [sendMessage]. *)
Module SendMessage.
Record t := {
  chat_id : Js.number;
  text : jstr
}.
End SendMessage.

Inductive Decision :=
| ack
| retry.

Section Queue.

(** [parseInt(env.TELEGRAM_CHAT_ID)], and the provider: [None] when the
    [fetch] or [response.json()] rejects, else [response_json.ok]. *)
Variable chat_id : Js.number.
Variable telegram : list SendMessage.t -> SendMessage.t -> option bool.

(** [queue] (lines 34-55).  The result is the requests posted, the
    decisions taken, and whether the handler ran to its end; a rejected
    call is not caught and ends the handler. *)
Fixpoint queue (messages : list Message.t) (posted : list SendMessage.t)
    (decisions : list Decision)
  : list SendMessage.t * list Decision * bool :=
  match messages with
  | [] => (posted, decisions, true)
  | msg :: rest =>
      let request := {| SendMessage.chat_id := chat_id; SendMessage.text := text msg |} in
      match telegram posted request with
      | None => (posted ++ [request], decisions, false)
      | Some ok =>
          queue rest (posted ++ [request])
            (decisions ++ [if negb ok then retry else ack])
      end
  end.

End Queue.

End TelegramNotifier.

(** ** The tree of a base, in the words of the specification *)

Module TreeSpec.

Import CommentWorker.

(** The immediate children of a base: the top-level rows of the article,
    or the rows whose [parent_id] is the comment's id, in store order. *)
Definition children_rows (db : D1Database) (base : Base) : list CommentsRow.t :=
  match base with
  | article (Some a) =>
      filter (fun r => Js.eqb (CommentsRow.article_id r) a
                       && (CommentsRow.parent_id r =? 0)%Z) db
  | article None => []
  | comment c => filter (fun r => (CommentsRow.parent_id r =? c)%Z) db
  end.

(** The node of a row, without children. *)
Definition leaf (r : CommentsRow.t) : Comment.t :=
  {| Comment.id := CommentsRow.id r;
     Comment.author := CommentsRow.author_name r;
     Comment.email := CommentsRow.author_email r;
     Comment.website := CommentsRow.author_website r;
     Comment.content := CommentsRow.html_content r;
     Comment.comment_timestamp_ms := CommentsRow.comment_timestamp_ms r;
     Comment.children := [] |}.

(** A node with its children removed. *)
Definition shallow (c : Comment.t) : Comment.t :=
  {| Comment.id := Comment.id c;
     Comment.author := Comment.author c;
     Comment.email := Comment.email c;
     Comment.website := Comment.website c;
     Comment.content := Comment.content c;
     Comment.comment_timestamp_ms := Comment.comment_timestamp_ms c;
     Comment.children := [] |}.

(** A node is populated to the full depth when its children are the
    nodes of exactly the rows stored under its id, each of them
    populated to the full depth in turn. *)
#[local] Unset Elimination Schemes.
Inductive full_tree (db : D1Database) : Comment.t -> Prop :=
| full_node (c : Comment.t) :
    map shallow (Comment.children c)
    = map leaf (children_rows db (comment (Comment.id c))) ->
    Forall (full_tree db) (Comment.children c) ->
    full_tree db c.
#[local] Set Elimination Schemes.

(** The rows below a base at any depth, along the [parent_id] links. *)
Inductive descendant (db : D1Database) (base : Base) : CommentsRow.t -> Prop :=
| descendant_child (r : CommentsRow.t) :
    In r (children_rows db base) -> descendant db base r
| descendant_below (p r : CommentsRow.t) :
    descendant db base p ->
    In r (children_rows db (comment (CommentsRow.id p))) ->
    descendant db base r.

(** The nodes of a forest at any depth. *)
Inductive occurs (c : Comment.t) : list Comment.t -> Prop :=
| occurs_here (cs : list Comment.t) : In c cs -> occurs c cs
| occurs_below (p : Comment.t) (cs : list Comment.t) :
    In p cs -> occurs c (Comment.children p) -> occurs c cs.

(** The links of a table the handler has filled: a row's parent was
    stored before the row, so it has a smaller id. *)
Definition wf_links (db : D1Database) : Prop :=
  Forall (fun r => (CommentsRow.parent_id r < CommentsRow.id r)%Z) db.

(** The node the loop builds from a result row, before its children. *)
Definition node_of (result : RecursiveQueryCommentsRow.t) : Comment.t :=
  {| Comment.id := RecursiveQueryCommentsRow.id result;
     Comment.author := RecursiveQueryCommentsRow.author_name result;
     Comment.email := RecursiveQueryCommentsRow.author_email result;
     Comment.website := RecursiveQueryCommentsRow.author_website result;
     Comment.content := RecursiveQueryCommentsRow.html_content result;
     Comment.comment_timestamp_ms := RecursiveQueryCommentsRow.comment_timestamp_ms result;
     Comment.children := [] |}.

(** The rows with an id above [b]: the walk below [b] stays among them. *)
Definition above (db : D1Database) (b : Z) : list CommentsRow.t :=
  filter (fun r => (b <? CommentsRow.id r)%Z) db.

(** What a returned forest is to be: the nodes of the base's children,
    each populated to the full depth. *)
Definition deep_forest (db : D1Database) (base : Base) (comments : list Comment.t) : Prop :=
  map shallow comments = map leaf (children_rows db base)
  /\ Forall (full_tree db) comments.

(** The reads of a walk below a base are the query of the base and the
    queries of the rows below it.  One of them reports [error]; none of
    them reports an error. *)
Definition read_fails (db : D1Database) (record_error : Base -> option jstr)
    (base : Base) (error : jstr) : Prop :=
  record_error base = Some error
  \/ exists row,
       descendant db base row
       /\ record_error (comment (CommentsRow.id row)) = Some error.

Definition reads_succeed (db : D1Database) (record_error : Base -> option jstr)
    (base : Base) : Prop :=
  record_error base = None
  /\ forall row,
       descendant db base row -> record_error (comment (CommentsRow.id row)) = None.

(** The outcome of a walk that ends: the full-depth forest when every
    read succeeds, a [DatabaseError] with the error of a failed read
    otherwise. *)
Definition walked (db : D1Database) (record_error : Base -> option jstr)
    (base : Base) (c : Completion (list Comment.t)) : Prop :=
  match c with
  | Normal comments => deep_forest db base comments /\ reads_succeed db record_error base
  | Throw e => exists error, e = DatabaseError error /\ read_fails db record_error base error
  | Escapes _ | Pending => False
  end.

End TreeSpec.

(** ** Requests and outcomes, in the words of the specification *)

Module HttpSpec.

Import CommentWorker.

(** A [POST /comment] whose body parses to [event]. *)
Definition is_POST_comment (req : Request.t) (event : PostCommentEvent.t) : Prop :=
  exists url,
    Request.url req = Some url
    /\ URL.pathname url = lit "/comment"
    /\ Request.method req = lit "POST"
    /\ Request.json req = inr event.

(** A [GET /comment] with the given query parameters. *)
Definition is_GET_comment (req : Request.t) (params : list (jstr * jstr)) : Prop :=
  exists url,
    Request.url req = Some url
    /\ URL.pathname url = lit "/comment"
    /\ URL.searchParams url = params
    /\ Request.method req = lit "GET".

(** The request carries an Origin header that is not empty. *)
Definition has_Origin (req : Request.t) : bool :=
  truthy_opt (Request.Origin req).

(** Store and queues are as they were. *)
Definition store_unchanged (w w' : World.t) : Prop :=
  World.COMMENT_DB w' = World.COMMENT_DB w
  /\ World.MESSAGE_QUEUE w' = World.MESSAGE_QUEUE w
  /\ World.EMAIL_QUEUE w' = World.EMAIL_QUEUE w.

(** No two rows share an id ([id] is the primary key). *)
Definition unique_ids (db : D1Database) : Prop :=
  NoDup (map CommentsRow.id db).

(** A code unit that can occur in a numeric literal of JavaScript: a
    hexadecimal digit (the exponent mark and the binary prefix are among
    them), a sign, the dot, the other radix prefixes, and the letters of
    [Infinity]. *)
Definition numeric_unit (c : N) : bool :=
  is_digit 16 c || existsb (N.eqb c) (lit "+-.xXoOInfity").

(** A string that looks numeric: numeric units and white space only. *)
Definition looks_numeric (s : jstr) : bool :=
  forallb (fun c => numeric_unit c || is_whitespace c) s.

(** A string that denotes an integer: an optional sign and one or more
    decimal digits. *)
Definition denotes_integer (s : jstr) : bool :=
  match snd (take_sign s) with
  | [] => false
  | ds => forallb (is_digit 10) ds
  end.

Definition Allow_Origin_key : jstr := lit "Access-Control-Allow-Origin".

Definition numeric (s : jstr) : Prop := Forall (fun c => numeric_unit c = true) s.

(** The level and the parent the check of lines 669-685 hands on. *)
Definition checked_parent (event : PostCommentEvent.t) (db : D1Database)
  : option (Z * option ParentCommentsRow.t) :=
  match PostCommentEvent.parent_comment_id event with
  | Some pid =>
      if (pid =? 0)%Z then Some (0%Z, None)
      else match parent_comment_query db pid with
           | Some pc => Some ((ParentCommentsRow.level pc + 1)%Z, Some pc)
           | None => None
           end
  | None => Some (0%Z, None)
  end.

(** [is_recursive] as the handler reads it (line 761). *)
Definition is_recursive_param (params : list (jstr * jstr)) : bool :=
  opt_eqb (params_get params (lit "is_recursive")) (Some (lit "true")).

(** The allow-list the handler reads from [env] (line 651). *)
Definition allowedOrigins (env : Env.t) : list jstr :=
  map trim (split 59 (Env.ALLOWED_ORIGINS env)).

(** The wrapper's answer to a request without Origin (line 461). *)
Definition Origin_header_not_found : Response.t :=
  new_Response (text (lit "Origin header not found")) (status_init 400).

(** What becomes of an answer with the given status and body once it
    has gone through the CORS wrapper, as the completion [c] of the
    handler: without an Origin header the wrapper's own 400 is
    answered; with one, the answer keeps its status and body, unless
    the allow-list loop meets an ill-formed pattern, in which case the
    handler's promise rejects with the SyntaxError and no answer is
    given. *)
Definition wrapped (RegExp_test : jstr -> jstr -> jstr + bool)
    (req : Request.t) (env : Env.t) (status : Z) (body : BodyInit)
    (c : Completion Response.t) : Prop :=
  match Request.Origin req with
  | Some origin =>
      if truthy origin then
        match is_allowed RegExp_test origin (allowedOrigins env) with
        | inr _ =>
            exists r, c = Normal r /\ Response.status r = status /\ Response.body r = body
        | inl error => c = Escapes (Error error)
        end
      else c = Normal Origin_header_not_found
  | None => c = Normal Origin_header_not_found
  end.

(** What the queues and the console hold after the notifications of a
    stored comment, and the answer: a rejected [send] throws, skips
    what follows, and is logged and answered by the [catch] block. *)
Definition notified (RegExp_test : jstr -> jstr -> jstr + bool)
    (req : Request.t) (env : Env.t) (platform : Platform.t)
    (event : PostCommentEvent.t)
    (parent_comment : option ParentCommentsRow.t)
    (w w' : World.t) (c : Completion Response.t) : Prop :=
  exists last_insert_id,
    last_insert_id_command (World.COMMENT_DB w) (Platform.randomUUID platform)
    = Some last_insert_id
    /\ let job := comment_properties event last_insert_id (Platform.getTime platform) in
       match Platform.MESSAGE_QUEUE_send_error platform with
       | Some err =>
           World.MESSAGE_QUEUE w' = World.MESSAGE_QUEUE w
           /\ World.EMAIL_QUEUE w' = World.EMAIL_QUEUE w
           /\ World.console w' = World.console w ++ [error_catched err]
           /\ wrapped RegExp_test req env 500 (text (lit "Internal server error")) c
       | None =>
           World.MESSAGE_QUEUE w' = World.MESSAGE_QUEUE w ++ [job]
           /\ if truthy_opt (PostCommentEvent.email event) then
                match Platform.EMAIL_QUEUE_send_error platform with
                | Some err =>
                    World.EMAIL_QUEUE w' = World.EMAIL_QUEUE w
                    /\ World.console w' = World.console w ++ [error_catched err]
                    /\ wrapped RegExp_test req env 500 (text (lit "Internal server error")) c
                | None =>
                    World.EMAIL_QUEUE w'
                    = World.EMAIL_QUEUE w ++ [email_event job parent_comment]
                    /\ World.console w' = World.console w
                    /\ wrapped RegExp_test req env 200 (text (lit "OK")) c
                end
              else
                World.EMAIL_QUEUE w' = World.EMAIL_QUEUE w
                /\ World.console w' = World.console w
                /\ wrapped RegExp_test req env 200 (text (lit "OK")) c
       end.

(** The tables that requests make of the empty table. *)
Inductive stored (markdownToHtml : jstr -> jstr)
    (RegExp_test : jstr -> jstr -> jstr + bool) : D1Database -> Prop :=
| stored_empty : stored markdownToHtml RegExp_test []
| stored_fetch req env platform fuel w :
    stored markdownToHtml RegExp_test (World.COMMENT_DB w) ->
    stored markdownToHtml RegExp_test
      (World.COMMENT_DB
              (snd (fetch markdownToHtml RegExp_test req env platform fuel w))).

End HttpSpec.

(** ** The email worker's requests, in the words of the specification *)

Module EmailSpec.

Import CommentWorker.

(** A computation that has returned or thrown. *)
Definition settled {A} (c : Completion A) : Prop :=
  match c with
  | Normal _ | Throw _ => True
  | Escapes _ | Pending => False
  end.

(** The "you posted a comment" email of a message (lines 600-614). *)
Definition posted_email (getDateString : Z -> jstr)
    (email_event : SendCommentNotificationEmailEvent.t) : EmailData.t :=
  let comment := SendCommentNotificationEmailEvent.comment email_event in
  {| EmailData.to_email := EmailCommentProperties.author_email comment;
     EmailData.to_name := EmailCommentProperties.author_name comment;
     EmailData.templateId := 2;
     EmailData.original_comment_time :=
       getDateString (EmailCommentProperties.comment_timestamp comment);
     EmailData.original_comment := EmailCommentProperties.markdown_content comment;
     EmailData.replied := None |}.

(** The send requests among the calls. *)
Fixpoint sends (calls : list Call) : list EmailData.t :=
  match calls with
  | [] => []
  | POST_smtp_email data _ :: rest => data :: sends rest
  | POST_contacts _ _ :: rest => sends rest
  end.

End EmailSpec.

(** ** Concrete worlds and requests *)

Module Examples.

Import CommentWorker.

(** A renderer and a pattern matcher to run the handler with: the
    allow-lists below hold no pattern. *)
Definition markdownToHtml (markdown : jstr) : jstr :=
  lit "<p>" ++ markdown ++ lit "</p>".

Definition RegExp_test (pattern s : jstr) : jstr + bool := inr false.

Definition env : Env.t :=
  {| Env.ALLOWED_ORIGINS := lit "https://sqybi.com; http://localhost:3000" |}.

(** A fresh worker instance on an empty table. *)
Definition fresh : World.t :=
  {| World.COMMENT_DB := [];
     World.MESSAGE_QUEUE := [];
     World.EMAIL_QUEUE := [];
     World.corsHeaders := corsHeaders_initial;
     World.console := [] |}.

Definition platform : Platform.t :=
  {| Platform.randomUUID := lit "6f1c2a9e-0000-4000-8000-000000000001";
     Platform.getTime := 1700000000000;
     Platform.insert_error := None;
     Platform.record_error := fun _ => None;
     Platform.MESSAGE_QUEUE_send_error := None;
     Platform.EMAIL_QUEUE_send_error := None |}.

Definition comment_url (params : list (jstr * jstr)) : option URL.t :=
  Some {| URL.pathname := lit "/comment"; URL.searchParams := params |}.

(** [OPTIONS /comment] from an origin of the allow-list, and from one
    that is not on it. *)
Definition options_from (origin : option jstr) : Request.t :=
  {| Request.url := comment_url [];
     Request.method := lit "OPTIONS";
     Request.Origin := origin;
     Request.json := inl (lit "Unexpected end of JSON input") |}.

Definition blog_origin : jstr := lit "https://sqybi.com".
Definition other_origin : jstr := lit "https://elsewhere.example".

(** A thread three comments deep under the article [hello], and a
    comment of another article. *)
Definition row (id : Z) (article_id : string) (parent_id level : Z)
    (author_name author_email : string) (markdown : string) : CommentsRow.t :=
  {| CommentsRow.id := id;
     CommentsRow.article_id := lit article_id;
     CommentsRow.parent_id := parent_id;
     CommentsRow.level := level;
     CommentsRow.author_name := lit author_name;
     CommentsRow.author_email := lit author_email;
     CommentsRow.author_website := lit "";
     CommentsRow.markdown_content := lit markdown;
     CommentsRow.html_content := markdownToHtml (lit markdown);
     CommentsRow.comment_timestamp_ms := 1700000000000 + id;
     CommentsRow.uuid := lit "uuid-" ++ [48 + Z.to_N id]%N |}.

Definition thread : D1Database :=
  [ row 1 "hello" 0 0 "ann" "ann@example.org" "first";
    row 2 "hello" 1 1 "bob" "" "second";
    row 3 "world" 0 0 "cat" "cat@example.org" "elsewhere";
    row 4 "hello" 2 2 "ann" "ann@example.org" "third" ].

Definition with_db (db : D1Database) : World.t :=
  {| World.COMMENT_DB := db;
     World.MESSAGE_QUEUE := [];
     World.EMAIL_QUEUE := [];
     World.corsHeaders := corsHeaders_initial;
     World.console := [] |}.

(** [POST /comment] requests. *)
Definition post_from (origin : option jstr) (event : PostCommentEvent.t) : Request.t :=
  {| Request.url := comment_url [];
     Request.method := lit "POST";
     Request.Origin := origin;
     Request.json := inr event |}.

Definition comment_event (parent_comment_id : option Z) (email : option jstr)
  : PostCommentEvent.t :=
  {| PostCommentEvent.article_id := lit "hello";
     PostCommentEvent.article_original_url := lit "https://sqybi.com/hello";
     PostCommentEvent.parent_comment_id := parent_comment_id;
     PostCommentEvent.author := lit "eve";
     PostCommentEvent.email := email;
     PostCommentEvent.website := None;
     PostCommentEvent.content := lit "hi";
     PostCommentEvent.timestamp_ms := None |}.

Definition eve : option jstr := Some (lit "eve@example.org").

(** A platform whose Telegram queue rejects the [send]. *)
Definition rejecting : Platform.t :=
  {| Platform.randomUUID := Platform.randomUUID platform;
     Platform.getTime := Platform.getTime platform;
     Platform.insert_error := None;
     Platform.record_error := fun _ => None;
     Platform.MESSAGE_QUEUE_send_error := Some (lit "Queue send failed");
     Platform.EMAIL_QUEUE_send_error := None |}.

(** The row eve's reply to comment 2 becomes. *)
Definition eve_row : CommentsRow.t :=
  {| CommentsRow.id := 5;
     CommentsRow.article_id := lit "hello";
     CommentsRow.parent_id := 2;
     CommentsRow.level := 2;
     CommentsRow.author_name := lit "eve";
     CommentsRow.author_email := lit "eve@example.org";
     CommentsRow.author_website := lit "";
     CommentsRow.markdown_content := lit "hi";
     CommentsRow.html_content := lit "<p>hi</p>";
     CommentsRow.comment_timestamp_ms := Platform.getTime platform;
     CommentsRow.uuid := Platform.randomUUID platform |}.

(** [GET /comment] requests. *)
Definition get_from (origin : option jstr) (params : list (string * string)) : Request.t :=
  {| Request.url := comment_url (map (fun kv => (lit (fst kv), lit (snd kv))) params);
     Request.method := lit "GET";
     Request.Origin := origin;
     Request.json := inl (lit "Unexpected end of JSON input") |}.

(** Email queue messages: eve's reply to a comment of her own, and a
    first comment of hers. *)
Definition eve_properties : EmailCommentProperties.t :=
  {| EmailCommentProperties.comment_id := 5;
     EmailCommentProperties.comment_timestamp := 1700000000000;
     EmailCommentProperties.author_name := lit "eve";
     EmailCommentProperties.author_email := eve;
     EmailCommentProperties.markdown_content := lit "hi" |}.

Definition eve_earlier : EmailCommentProperties.t :=
  {| EmailCommentProperties.comment_id := 2;
     EmailCommentProperties.comment_timestamp := 1600000000000;
     EmailCommentProperties.author_name := lit "eve";
     EmailCommentProperties.author_email := eve;
     EmailCommentProperties.markdown_content := lit "earlier" |}.

Definition self_reply : SendCommentNotificationEmailEvent.t :=
  {| SendCommentNotificationEmailEvent.comment := eve_properties;
     SendCommentNotificationEmailEvent.reply_to_comment := Some eve_earlier |}.

Definition first_comment : SendCommentNotificationEmailEvent.t :=
  {| SendCommentNotificationEmailEvent.comment := eve_properties;
     SendCommentNotificationEmailEvent.reply_to_comment := None |}.

Definition getDateString (timestamp : Z) : jstr := lit "November 14, 2023".

Definition api_key : jstr := lit "xkeysib-test".

(** A provider that refuses every registration with a 400 that is not
    the duplicate answer, and accepts every send. *)
Definition refusing_registration : Brevo.t :=
  {| Brevo.contacts := fun _ _ =>
       responds false {| ContactsData.id := None;
                         ContactsData.code := Some (lit "invalid_parameter") |};
     Brevo.smtp_email := fun _ _ =>
       responds true {| SmtpData.messageId := Some (lit "<202311141200.1@smtp-relay>") |} |}.

(** A provider that answers a registration with 200 and no id. *)
Definition registration_without_id : Brevo.t :=
  {| Brevo.contacts := fun _ _ =>
       responds true {| ContactsData.id := None; ContactsData.code := None |};
     Brevo.smtp_email := fun _ _ =>
       responds true {| SmtpData.messageId := Some (lit "<202311141200.1@smtp-relay>") |} |}.

Definition idle : Worker.t := {| Worker.calls := []; Worker.console := [] |}.

(** The world a fresh instance is in after a request from the blog. *)
Definition after_blog_request : World.t :=
  snd (fetch markdownToHtml RegExp_test
         (options_from (Some blog_origin))
         env platform 0 fresh).

End Examples.

(** ** The handler's surface, in the words of its source *)

Module HandlerSpec.

Import CommentWorker.
Import HttpSpec.

(** An allow-list entry is read as a pattern when it starts and ends
    with a slash (line 468). *)
Definition is_pattern (allowedOrigin : jstr) : bool :=
  startsWith allowedOrigin (lit "/") && endsWith allowedOrigin (lit "/").

(** What one entry of the allow-list does with an origin: let it
    through or not, or throw the SyntaxError of its pattern. *)
Definition entry_allows (RegExp_test : jstr -> jstr -> jstr + bool)
    (origin allowedOrigin : jstr) : jstr + bool :=
  if Js.eqb allowedOrigin (lit "*") then inr true
  else if is_pattern allowedOrigin
  then RegExp_test (substring allowedOrigin 1 (length allowedOrigin - 1)) origin
  else inr (Js.eqb origin allowedOrigin).

(** The four fields of [corsHeaders] nothing assigns to hold what the
    module gave them. *)
Definition cors_fixed (h : CorsHeaders.t) : Prop :=
  CorsHeaders.Access_Control_Allow_Methods h = lit "GET,POST,OPTIONS"
  /\ CorsHeaders.Access_Control_Max_Age h = lit "86400"
  /\ CorsHeaders.Access_Control_Allow_Headers h = lit "Content-Type, Range, X-Request-With"
  /\ CorsHeaders.Access_Control_Expose_Headers h = lit "Content-Length, Content-Range".

(** The parent check of a POST passes: no parent is named, or a row of
    the table has the named id. *)
Definition parent_found (event : PostCommentEvent.t) (db : D1Database) : Prop :=
  truthy_id (PostCommentEvent.parent_comment_id event) = false
  \/ exists parent,
       In parent db
       /\ PostCommentEvent.parent_comment_id event = Some (CommentsRow.id parent).

(** Store, queues and console are as they were. *)
Definition untouched (w w' : World.t) : Prop :=
  store_unchanged w w' /\ World.console w' = World.console w.

(** One request served: the request with what surrounds it. *)
Module Served.
Record t := {
  req : Request.t;
  env : Env.t;
  platform : Platform.t;
  fuel : nat
}.
End Served.

(** The world after serving the requests in turn, on one instance. *)
Definition serve (markdownToHtml : jstr -> jstr) (RegExp_test : jstr -> jstr -> jstr + bool)
    (w : World.t) (c : Served.t) : World.t :=
  snd (fetch markdownToHtml RegExp_test (Served.req c) (Served.env c)
         (Served.platform c) (Served.fuel c) w).

Definition run (markdownToHtml : jstr -> jstr) (RegExp_test : jstr -> jstr -> jstr + bool)
    (served : list Served.t) (w : World.t) : World.t :=
  fold_left (serve markdownToHtml RegExp_test) served w.

(** The levels of a table agree with its parent links: a top-level row
    has level 0, any other row the level of its parent plus 1. *)
Definition levels_consistent (db : D1Database) : Prop :=
  Forall (fun r =>
            (CommentsRow.parent_id r = 0%Z /\ CommentsRow.level r = 0%Z)
            \/ exists parent,
                 In parent db
                 /\ CommentsRow.id parent = CommentsRow.parent_id r
                 /\ CommentsRow.level r = (CommentsRow.level parent + 1)%Z)
    db.

(** The row a POST stores (the values bound at lines 699-711, under the
    id the table gives it). *)
Definition stored_row (markdownToHtml : jstr -> jstr) (platform : Platform.t)
    (event : PostCommentEvent.t) (level : Z) (db : D1Database) : CommentsRow.t :=
  {| CommentsRow.id := next_id db;
     CommentsRow.article_id := PostCommentEvent.article_id event;
     CommentsRow.parent_id := or_zero (PostCommentEvent.parent_comment_id event);
     CommentsRow.level := level;
     CommentsRow.author_name := PostCommentEvent.author event;
     CommentsRow.author_email := or_empty (PostCommentEvent.email event);
     CommentsRow.author_website := or_empty (PostCommentEvent.website event);
     CommentsRow.markdown_content := PostCommentEvent.content event;
     CommentsRow.html_content := markdownToHtml (PostCommentEvent.content event);
     CommentsRow.comment_timestamp_ms := Platform.getTime platform;
     CommentsRow.uuid := Platform.randomUUID platform |}.

(** The same event with another [timestamp_ms], and the same request
    with another body. *)
Definition with_timestamp_ms (event : PostCommentEvent.t) (timestamp_ms : option Z)
  : PostCommentEvent.t :=
  {| PostCommentEvent.article_id := PostCommentEvent.article_id event;
     PostCommentEvent.article_original_url := PostCommentEvent.article_original_url event;
     PostCommentEvent.parent_comment_id := PostCommentEvent.parent_comment_id event;
     PostCommentEvent.author := PostCommentEvent.author event;
     PostCommentEvent.email := PostCommentEvent.email event;
     PostCommentEvent.website := PostCommentEvent.website event;
     PostCommentEvent.content := PostCommentEvent.content event;
     PostCommentEvent.timestamp_ms := timestamp_ms |}.

Definition with_json (req : Request.t) (json : jstr + PostCommentEvent.t) : Request.t :=
  {| Request.url := Request.url req;
     Request.method := Request.method req;
     Request.Origin := Request.Origin req;
     Request.json := json |}.

(** The base a GET asks for, when its id check passes (lines 763-776). *)
Definition requested_base (params : list (jstr * jstr)) : option Base :=
  match params_get params (lit "comment_base_type") with
  | Some t =>
      if Js.eqb t (lit "article")
      then Some (article (params_get params (lit "comment_base_id")))
      else if Js.eqb t (lit "comment")
      then
        let n := Number (match params_get params (lit "comment_base_id") with
                         | Some s => VString s
                         | None => VNull
                         end) in
        if number_isInteger n then Some (comment (number_toZ n)) else None
      else None
  | None => None
  end.

(** The node a GET shows for the row a POST has stored. *)
Definition stored_node (markdownToHtml : jstr -> jstr) (platform : Platform.t)
    (event : PostCommentEvent.t) (db : D1Database) : Comment.t :=
  {| Comment.id := next_id db;
     Comment.author := PostCommentEvent.author event;
     Comment.email := or_empty (PostCommentEvent.email event);
     Comment.website := or_empty (PostCommentEvent.website event);
     Comment.content := markdownToHtml (PostCommentEvent.content event);
     Comment.comment_timestamp_ms := Platform.getTime platform;
     Comment.children := [] |}.

(** The computation ends in one answer through [getReponse], given from
    a world with the [corsHeaders] it started with; or it throws or is
    pending, with [corsHeaders] as they were. *)
Definition ends_in_answer (RegExp_test : jstr -> jstr -> jstr + bool)
    (req : Request.t) (env : Env.t) (m : M Response.t) : Prop :=
  forall w,
    (exists w0 body init,
       World.corsHeaders w0 = World.corsHeaders w
       /\ m w = getReponse RegExp_test req env body init w0)
    \/ (exists e w1,
          World.corsHeaders w1 = World.corsHeaders w /\ m w = (Throw e, w1))
    \/ m w = (Pending, w).

(** The names of the five CORS headers with the values of an object. *)
Definition carries_cors (r : Response.t) (h : CorsHeaders.t) : Prop :=
  forall key value,
    In (key, value) (entries h) -> headers_get (Response.headers r) key = Some value.

End HandlerSpec.

(** ** The workers' dealings with their providers, in words *)

Module WorkerSpec.

Import CommentWorker.
Import EmailSpec.

(** The call is answered: [fetch] and [response.json()] resolve. *)
Definition answered {A : Type} (answer : Fetched A) : bool :=
  match answer with
  | responds _ _ => true
  | rejects _ => false
  end.

(** A send is accepted: answered with [response.ok] and a message id
    (line 585). *)
Definition accepted (answer : Fetched SmtpData.t) : bool :=
  match answer with
  | responds ok response_data => ok && truthy_opt (SmtpData.messageId response_data)
  | rejects _ => false
  end.

(** The provider rejects the call [c] made after [calls]. *)
Definition rejected (brevo : Brevo.t) (calls : list Call) (c : Call) : bool :=
  match c with
  | POST_contacts email _ => negb (answered (Brevo.contacts brevo calls email))
  | POST_smtp_email data _ => negb (answered (Brevo.smtp_email brevo calls data))
  end.

(** The "someone replied" email of a message (lines 619-638). *)
Definition reply_email (getDateString : Z -> jstr)
    (email_event : SendCommentNotificationEmailEvent.t)
    (reply_to_comment : EmailCommentProperties.t) : EmailData.t :=
  let comment := SendCommentNotificationEmailEvent.comment email_event in
  {| EmailData.to_email := EmailCommentProperties.author_email reply_to_comment;
     EmailData.to_name := EmailCommentProperties.author_name reply_to_comment;
     EmailData.templateId := 1;
     EmailData.original_comment_time :=
       getDateString (EmailCommentProperties.comment_timestamp reply_to_comment);
     EmailData.original_comment := EmailCommentProperties.markdown_content reply_to_comment;
     EmailData.replied :=
       Some {| Replied.author_name := EmailCommentProperties.author_name comment;
               Replied.comment_time :=
                 getDateString (EmailCommentProperties.comment_timestamp comment);
               Replied.comment := EmailCommentProperties.markdown_content comment |} |}.

(** A computation of the worker settles, only adds calls, throws at a
    rejected call without making another, and throws for no other
    reason. *)
Definition stops_at_rejection {A : Type} (brevo : Brevo.t) (m : W A) : Prop :=
  forall w,
  exists new,
    Worker.calls (snd (m w)) = Worker.calls w ++ new
    /\ settled (fst (m w))
    /\ (forall pre c post,
          new = pre ++ c :: post ->
          rejected brevo (Worker.calls w ++ pre) c = true ->
          post = [] /\ exists e, fst (m w) = Throw e)
    /\ (forall e,
          fst (m w) = Throw e ->
          exists pre c,
            new = pre ++ [c] /\ rejected brevo (Worker.calls w ++ pre) c = true).

(** The request the Telegram notifier posts for a message. *)
Definition request (chat_id : Js.number) (msg : TelegramNotifier.Message.t)
  : TelegramNotifier.SendMessage.t :=
  {| TelegramNotifier.SendMessage.chat_id := chat_id;
     TelegramNotifier.SendMessage.text := TelegramNotifier.text msg |}.

End WorkerSpec.

(** ** The first version of the CORS wrapper ([src/src/index.ts], lines 94-117)

    The file opens with an earlier version of the worker; its wrapper
    looks the origin up in the allow-list and knows neither [*] nor
    patterns. *)

Module FirstVersion.

Import CommentWorker.

Definition setCorsHeaderToResponse (request : Request.t) (response : Response.t)
    (allowedOrigins : list jstr) : M Response.t :=
  fun w =>
    match Request.Origin request with
    | None => (Normal (new_Response (text (lit "Origin header not found")) (status_init 400)), w)
    | Some origin =>
        if negb (truthy origin)
        then (Normal (new_Response (text (lit "Origin header not found")) (status_init 400)), w)
        else
          let w1 :=
            if includes allowedOrigins origin
            then set_corsHeaders w (set_Allow_Origin (World.corsHeaders w) origin)
            else w in
          let new_headers :=
            fold_left (fun hs kv => headers_set hs (fst kv) (snd kv))
              (entries (World.corsHeaders w1)) (Response.headers response) in
          (Normal {| Response.body := Response.body response;
                     Response.status := Response.status response;
                     Response.statusText := Response.statusText response;
                     Response.headers := new_headers |}, w1)
    end.

End FirstVersion.

(** ** More concrete requests, platforms and providers *)

Module MoreExamples.

Import CommentWorker.

(** A request to another path, and a method the handler does not serve. *)
Definition favicon : Request.t :=
  {| Request.url := Some {| URL.pathname := lit "/favicon.ico"; URL.searchParams := [] |};
     Request.method := lit "GET";
     Request.Origin := Some Examples.blog_origin;
     Request.json := inl (lit "Unexpected end of JSON input") |}.

Definition delete_comment : Request.t :=
  {| Request.url := Examples.comment_url [];
     Request.method := lit "DELETE";
     Request.Origin := Some Examples.blog_origin;
     Request.json := inl (lit "Unexpected end of JSON input") |}.

(** A POST whose body is not JSON. *)
Definition broken_post : Request.t :=
  {| Request.url := Examples.comment_url [];
     Request.method := lit "POST";
     Request.Origin := Some Examples.blog_origin;
     Request.json := inl (lit "Unexpected token h in JSON at position 0") |}.

(** Two visits of one instance: from the blog, then from elsewhere. *)
Definition visits : list HandlerSpec.Served.t :=
  [ {| HandlerSpec.Served.req := Examples.options_from (Some Examples.blog_origin);
       HandlerSpec.Served.env := Examples.env;
       HandlerSpec.Served.platform := Examples.platform;
       HandlerSpec.Served.fuel := 0 |};
    {| HandlerSpec.Served.req := Examples.options_from (Some Examples.other_origin);
       HandlerSpec.Served.env := Examples.env;
       HandlerSpec.Served.platform := Examples.platform;
       HandlerSpec.Served.fuel := 0 |} ].

(** Eve's first comment on [hello], and the instance after it. *)
Definition first_post : Request.t :=
  Examples.post_from (Some Examples.blog_origin) (Examples.comment_event None Examples.eve).

Definition after_first_post : World.t :=
  snd (fetch Examples.markdownToHtml Examples.RegExp_test first_post
         Examples.env Examples.platform 0 Examples.fresh).

Definition hello_comments (is_recursive : string) : list (string * string) :=
  [ ("comment_base_type", "article"); ("comment_base_id", "hello");
    ("is_recursive", is_recursive) ]%string.

(** Eve's replies to ann's comment 1 and to bob's comment 2 (bob left no
    address), as email queue messages. *)
Definition ann_properties : EmailCommentProperties.t :=
  {| EmailCommentProperties.comment_id := 1;
     EmailCommentProperties.comment_timestamp := 1700000000001;
     EmailCommentProperties.author_name := lit "ann";
     EmailCommentProperties.author_email := Some (lit "ann@example.org");
     EmailCommentProperties.markdown_content := lit "first" |}.

Definition bob_properties : EmailCommentProperties.t :=
  {| EmailCommentProperties.comment_id := 2;
     EmailCommentProperties.comment_timestamp := 1700000000002;
     EmailCommentProperties.author_name := lit "bob";
     EmailCommentProperties.author_email := Some (lit "");
     EmailCommentProperties.markdown_content := lit "second" |}.

Definition reply_to_ann : SendCommentNotificationEmailEvent.t :=
  {| SendCommentNotificationEmailEvent.comment := Examples.eve_properties;
     SendCommentNotificationEmailEvent.reply_to_comment := Some ann_properties |}.

Definition reply_to_bob : SendCommentNotificationEmailEvent.t :=
  {| SendCommentNotificationEmailEvent.comment := Examples.eve_properties;
     SendCommentNotificationEmailEvent.reply_to_comment := Some bob_properties |}.

(** A platform whose email queue rejects the [send]. *)
Definition rejecting_email : Platform.t :=
  {| Platform.randomUUID := Platform.randomUUID Examples.platform;
     Platform.getTime := Platform.getTime Examples.platform;
     Platform.insert_error := None;
     Platform.record_error := fun _ => None;
     Platform.MESSAGE_QUEUE_send_error := None;
     Platform.EMAIL_QUEUE_send_error := Some (lit "Queue send failed") |}.

(** A table whose reads report an error. *)
Definition unreadable (base : Base) : option jstr :=
  Some (lit "D1_ERROR: no such table: comments").

(** A provider that registers and sends, and one that registers and
    answers every send with an error. *)
Definition accepting : Brevo.t :=
  {| Brevo.contacts := fun _ _ =>
       responds true {| ContactsData.id := Some (lit "42"); ContactsData.code := None |};
     Brevo.smtp_email := fun _ _ =>
       responds true {| SmtpData.messageId := Some (lit "<202311141200.1@smtp-relay>") |} |}.

Definition refusing_sends : Brevo.t :=
  {| Brevo.contacts := fun _ _ =>
       responds true {| ContactsData.id := Some (lit "42"); ContactsData.code := None |};
     Brevo.smtp_email := fun _ _ =>
       responds false {| SmtpData.messageId := None |} |}.

(** A provider that cannot be reached: every registration call
    rejects. *)
Definition unreachable : Brevo.t :=
  {| Brevo.contacts := fun _ _ => rejects (lit "fetch failed");
     Brevo.smtp_email := fun _ _ =>
       responds true {| SmtpData.messageId := Some (lit "<202311141200.1@smtp-relay>") |} |}.

(** A pattern matcher that knows one ill-formed pattern. *)
Definition RegExp_test_strict (pattern s : jstr) : jstr + bool :=
  if Js.eqb pattern (lit "(")
  then inl (lit "Invalid regular expression: /(/: Unterminated group")
  else inr false.

(** A batch of the Telegram queue, and a provider whose second call
    rejects. *)
Definition telegram_batch : list TelegramNotifier.Message.t :=
  [ {| TelegramNotifier.Message.author_name := lit "ann";
       TelegramNotifier.Message.author_email := Some (lit "ann@example.org");
       TelegramNotifier.Message.markdown_content := lit "first" |};
    {| TelegramNotifier.Message.author_name := lit "bob";
       TelegramNotifier.Message.author_email := None;
       TelegramNotifier.Message.markdown_content := lit "second" |};
    {| TelegramNotifier.Message.author_name := lit "cat";
       TelegramNotifier.Message.author_email := Some (lit "cat@example.org");
       TelegramNotifier.Message.markdown_content := lit "elsewhere" |} ].

Definition telegram_chat_id : Js.number := Number_of_string (lit "42").

Definition telegram_second_rejects
    (posted : list TelegramNotifier.SendMessage.t) (request : TelegramNotifier.SendMessage.t)
  : option bool :=
  match posted with
  | [_] => None
  | _ => Some true
  end.

End MoreExamples.

(** * Properties *)

Unset Implicit Arguments.

Import CommentWorker.
Import TreeSpec.
Import HttpSpec.
Import EmailSpec.

(** ** Strings *)

Lemma jstr_eqb_refl s : Js.eqb s s = true.
Proof.
  induction s as [|c s IH]; simpl; [reflexivity|].
  now rewrite N.eqb_refl, IH.
Qed.

Lemma jstr_eqb_eq s t : Js.eqb s t = true <-> s = t.
Proof.
  split.
  - revert t. induction s as [|c s IH]; intros [|d t]; simpl; try discriminate.
    + reflexivity.
    + intros H. apply andb_true_iff in H as [Hc Hs].
      apply N.eqb_eq in Hc. subst d. now rewrite (IH t Hs).
  - intros ->. apply jstr_eqb_refl.
Qed.

Lemma jstr_eqb_neq s t : Js.eqb s t = false <-> s <> t.
Proof.
  split.
  - intros H E. apply jstr_eqb_eq in E. congruence.
  - intros H. destruct (eqb s t) eqn:E; [|reflexivity].
    apply jstr_eqb_eq in E. contradiction.
Qed.

Lemma substring_length s i j : length (substring s i j) <= Nat.max i j - Nat.min i j.
Proof.
  unfold substring. rewrite length_firstn. lia.
Qed.

Lemma substring_0 s n : substring s 0 n = firstn n s.
Proof.
  unfold substring.
  replace (Nat.min 0 (length s)) with 0 by lia.
  replace (Nat.min 0 (Nat.min n (length s))) with 0 by lia.
  replace (Nat.max 0 (Nat.min n (length s)) - 0) with (Nat.min n (length s)) by lia.
  simpl. destruct (Nat.le_gt_cases n (length s)) as [H|H].
  - now rewrite Nat.min_l by lia.
  - rewrite Nat.min_r by lia. now rewrite !firstn_all2 by lia.
Qed.


(** ** Strings that [Number()] rejects *)

Lemma is_digit_16 b c : (b <= 16)%N -> is_digit b c = true -> is_digit 16 c = true.
Proof.
  unfold is_digit. intros Hb.
  rewrite !orb_true_iff, !andb_true_iff, !N.leb_le, !N.ltb_lt. lia.
Qed.

Lemma is_digit_numeric b c : (b <= 16)%N -> is_digit b c = true -> numeric_unit c = true.
Proof.
  intros Hb H. unfold numeric_unit. now rewrite (is_digit_16 b c Hb H).
Qed.

Lemma span_digits_spec b s :
  s = fst (span_digits b s) ++ snd (span_digits b s)
  /\ Forall (fun c => is_digit b c = true) (fst (span_digits b s)).
Proof.
  induction s as [|c s [IH1 IH2]]; simpl; [split; [reflexivity | constructor]|].
  destruct (is_digit b c) eqn:E; simpl; [|split; [reflexivity | constructor]].
  destruct (span_digits b s) as [ds r]. simpl in *. split.
  - now rewrite <- IH1.
  - now constructor.
Qed.

Lemma digits_numeric b ds :
  (b <= 16)%N -> Forall (fun c => is_digit b c = true) ds -> numeric ds.
Proof.
  intros Hb H. unfold numeric. apply Forall_forall. intros c Hc.
  apply (is_digit_numeric b c Hb). exact (proj1 (Forall_forall _ _) H c Hc).
Qed.

(** When all of [s] is digits of the base, [s] is numeric. *)
Lemma span_all_numeric b s ds :
  (b <= 16)%N -> span_digits b s = (ds, []) -> numeric s.
Proof.
  intros Hb E. destruct (span_digits_spec b s) as [Hs Hd]. rewrite E in *. simpl in *.
  rewrite Hs, app_nil_r. exact (digits_numeric b ds Hb Hd).
Qed.

Lemma take_sign_numeric s :
  numeric (snd (take_sign s)) -> numeric s.
Proof.
  destruct s as [|c s]; simpl; [trivial|].
  destruct c as [|p]; [trivial|].
  do 6 (destruct p as [p|p|]; try (intros H; exact H)).
  all: intros H; constructor; [reflexivity | exact H].
Qed.

Lemma parse_exponent_numeric s ex : parse_exponent s = Some ex -> numeric s.
Proof.
  destruct s as [|c r]; simpl; [constructor|].
  destruct ((c =? 101)%N || (c =? 69)%N) eqn:Ec; [|discriminate].
  destruct (take_sign r) as [neg r1] eqn:Es.
  destruct (span_digits 10 r1) as [ds r2] eqn:Ed.
  destruct ds as [|d ds]; [discriminate|]. destruct r2; [|discriminate].
  intros _. constructor.
  - apply orb_true_iff in Ec as [Ec|Ec]; apply N.eqb_eq in Ec; subst c; reflexivity.
  - apply take_sign_numeric. rewrite Es. simpl.
    apply (span_all_numeric 10 r1 (d :: ds)); [lia | exact Ed].
Qed.

Lemma numeric_app s t : numeric s -> numeric t -> numeric (s ++ t).
Proof. intros Hs Ht. apply Forall_app. now split. Qed.

Lemma parse_unsigned_decimal_numeric s v : parse_unsigned_decimal s = Some v -> numeric s.
Proof.
  unfold parse_unsigned_decimal.
  destruct (span_digits_spec 10 s) as [Hs Hd].
  destruct (span_digits 10 s) as [ip r1]. simpl in Hs, Hd.
  set (frac := match r1 with
               | 46%N :: r => span_digits 10 r
               | _ => ([], r1)
               end).
  assert (Hfrac : numeric (snd frac) -> numeric r1).
  { subst frac. destruct r1 as [|c r]; [trivial|].
    destruct (N.eq_dec c 46) as [->|Hc].
    - destruct (span_digits_spec 10 r) as [Hr Hfp].
      destruct (span_digits 10 r) as [fp r2]. simpl in *.
      intros H. unfold numeric. apply Forall_cons; [reflexivity|]. rewrite Hr.
      apply numeric_app; [exact (digits_numeric 10 fp ltac:(lia) Hfp) | exact H].
    - destruct c as [|p]; [exact (fun H => H)|].
      do 6 (destruct p as [p|p|]; try exact (fun H => H)). now destruct Hc. }
  destruct frac as [fp r2]. simpl in Hfrac.
  destruct (ip ++ fp); [discriminate|].
  destruct (parse_exponent r2) as [ex|] eqn:Ex; [|discriminate].
  intros _. rewrite Hs.
  apply numeric_app; [exact (digits_numeric 10 ip ltac:(lia) Hd)|].
  apply Hfrac. exact (parse_exponent_numeric r2 ex Ex).
Qed.

Lemma radix_of_prefix_spec p b :
  radix_of_prefix p = Some b -> numeric_unit p = true /\ (b <= 16)%N.
Proof.
  unfold radix_of_prefix.
  destruct ((p =? 120)%N || (p =? 88)%N) eqn:E1;
    [|destruct ((p =? 111)%N || (p =? 79)%N) eqn:E2;
      [|destruct ((p =? 98)%N || (p =? 66)%N) eqn:E3; [|discriminate]]].
  all: intros E; injection E as <-; split; [|lia].
  all: match goal with
       | H : _ || _ = true |- _ =>
           apply orb_true_iff in H as [H|H]; apply N.eqb_eq in H; subst p; reflexivity
       end.
Qed.

Lemma parse_non_decimal_numeric s n : parse_non_decimal s = Some n -> numeric s.
Proof.
  destruct s as [|z [|p r]]; simpl; try discriminate.
  destruct (z =? 48)%N eqn:Ez; [|discriminate]. apply N.eqb_eq in Ez. subst z.
  destruct (radix_of_prefix p) as [b|] eqn:Eb; [|discriminate].
  destruct (radix_of_prefix_spec p b Eb) as [Hp Hb].
  destruct (span_digits b r) as [ds r'] eqn:Ed.
  destruct ds as [|d ds]; [discriminate|]. destruct r'; [|discriminate].
  intros _. unfold numeric. apply Forall_cons; [reflexivity|].
  apply Forall_cons; [exact Hp|].
  exact (span_all_numeric b r (d :: ds) Hb Ed).
Qed.

(** What [Number()] does not turn into [NaN] is numeric once trimmed. *)
Lemma Number_of_string_numeric s : Number_of_string s <> NaN -> numeric (trim s).
Proof.
  unfold Number_of_string.
  destruct (trim s) as [|c t] eqn:Et; [constructor|].
  destruct (parse_non_decimal (c :: t)) as [n|] eqn:En.
  - intros _. exact (parse_non_decimal_numeric (c :: t) n En).
  - intros H. apply take_sign_numeric.
    destruct (take_sign (c :: t)) as [neg u]. simpl.
    destruct (Js.eqb u (lit "Infinity")) eqn:Ei.
    + apply jstr_eqb_eq in Ei. subst u. repeat constructor.
    + destruct (parse_unsigned_decimal u) as [v|] eqn:Ev; [|now destruct H].
      exact (parse_unsigned_decimal_numeric u v Ev).
Qed.

Lemma trimStart_keeps c s :
  In c s -> is_whitespace c = true \/ In c (trimStart s).
Proof.
  induction s as [|a s IH]; simpl; [contradiction|].
  intros [->|Hin].
  - destruct (is_whitespace c) eqn:E; [now left | right; now left].
  - destruct (is_whitespace a); [now apply IH | right; now right].
Qed.

Lemma trim_keeps c s :
  In c s -> is_whitespace c = true \/ In c (trim s).
Proof.
  intros Hin. unfold trim, trimEnd.
  destruct (trimStart_keeps c s Hin) as [Hw|H1]; [now left|].
  apply in_rev in H1.
  destruct (trimStart_keeps c _ H1) as [Hw|H2]; [now left|].
  right. now apply in_rev in H2.
Qed.

(** A string that does not look numeric converts to [NaN]. *)
Lemma Number_of_string_NaN s : looks_numeric s = false -> Number_of_string s = NaN.
Proof.
  intros Hlooks.
  destruct (Number_of_string s) eqn:E; [reflexivity| |].
  all: exfalso.
  all: assert (Hnum : numeric (trim s))
         by (apply Number_of_string_numeric; rewrite E; discriminate).
  all: assert (Hall : looks_numeric s = true);
         [|rewrite Hall in Hlooks; discriminate].
  all: apply forallb_forall; intros c Hc.
  all: destruct (trim_keeps c s Hc) as [Hw|Ht];
         [rewrite Hw; apply orb_true_r|].
  all: rewrite (proj1 (Forall_forall _ _) Hnum c Ht); reflexivity.
Qed.

(** ** The CORS wrapper *)

Lemma headers_get_set_same hs k v : headers_get (headers_set hs k v) k = Some v.
Proof.
  induction hs as [|[k' v'] hs IH]; simpl.
  - now rewrite jstr_eqb_refl.
  - destruct (Js.eqb k' k) eqn:E; simpl.
    + now rewrite jstr_eqb_refl.
    + now rewrite E.
Qed.

Lemma headers_get_set_other hs k v k' :
  Js.eqb k k' = false -> headers_get (headers_set hs k v) k' = headers_get hs k'.
Proof.
  intros Hk. induction hs as [|[k0 v0] hs IH]; simpl.
  - now rewrite Hk.
  - destruct (Js.eqb k0 k) eqn:E; simpl.
    + apply jstr_eqb_eq in E. subst k0. now rewrite Hk.
    + destruct (Js.eqb k0 k'); [reflexivity | exact IH].
Qed.

(** After the loop of lines 488-490 the response carries the global
    object's origin, whatever headers it had. *)
Lemma new_headers_Allow_Origin h hs :
  headers_get
    (fold_left (fun hs kv => headers_set hs (fst kv) (snd kv)) (entries h) hs)
    Allow_Origin_key
  = Some (CorsHeaders.Access_Control_Allow_Origin h).
Proof.
  unfold entries. cbn [fold_left fst snd].
  rewrite !headers_get_set_other by reflexivity.
  apply headers_get_set_same.
Qed.

Section CorsFacts.

Variable RegExp_test : jstr -> jstr -> jstr + bool.

Lemma setCors_no_origin request response allowedOrigins w :
  truthy_opt (Request.Origin request) = false ->
  setCorsHeaderToResponse RegExp_test request response allowedOrigins w
  = (Normal (new_Response (text (lit "Origin header not found")) (status_init 400)), w).
Proof.
  unfold setCorsHeaderToResponse. destruct (Request.Origin request) as [o|]; simpl.
  - intros ->. reflexivity.
  - reflexivity.
Qed.

Lemma setCors_with_origin request response allowedOrigins w origin :
  Request.Origin request = Some origin -> truthy origin = true ->
  match is_allowed RegExp_test origin allowedOrigins with
  | inr allowed =>
      let w' := if allowed
                then set_corsHeaders w (set_Allow_Origin (World.corsHeaders w) origin)
                else w in
      exists r,
        setCorsHeaderToResponse RegExp_test request response allowedOrigins w = (Normal r, w')
        /\ Response.status r = Response.status response
        /\ Response.body r = Response.body response
        /\ headers_get (Response.headers r) Allow_Origin_key
           = Some (CorsHeaders.Access_Control_Allow_Origin (World.corsHeaders w'))
  | inl error =>
      setCorsHeaderToResponse RegExp_test request response allowedOrigins w
      = (Escapes (Error error), w)
  end.
Proof.
  intros HO Ht. unfold setCorsHeaderToResponse. rewrite HO, Ht. cbn [negb].
  destruct (is_allowed RegExp_test origin allowedOrigins) as [error|allowed];
    [reflexivity|].
  eexists. split; [reflexivity|]. simpl.
  repeat split; try reflexivity.
  apply new_headers_Allow_Origin.
Qed.

End CorsFacts.

(** C10: [setCorsHeaderToResponse] reads and writes the module-global
    [corsHeaders].  For a request with an Origin: when the origin is
    allowed, the global Access-Control-Allow-Origin becomes that origin
    and the response carries it; when it is not allowed, the global is
    left as it is and the response carries whatever the global holds.
    So for one and the same request with a disallowed origin, two runs
    that start from globals holding different origins (left there by the
    requests served before) give different responses.  When the
    allow-list loop throws on an ill-formed pattern there is no
    response, and the global is left as it is. *)
Theorem C10_cors_response_depends_on_global
    (RegExp_test : jstr -> jstr -> jstr + bool)
    (request : Request.t) (response : Response.t)
    (allowedOrigins : list jstr) (origin : jstr) (w : World.t) :
  Request.Origin request = Some origin ->
  truthy origin = true ->
  (is_allowed RegExp_test origin allowedOrigins = inr true ->
   exists r w',
     setCorsHeaderToResponse RegExp_test request response allowedOrigins w = (Normal r, w')
     /\ CorsHeaders.Access_Control_Allow_Origin (World.corsHeaders w') = origin
     /\ headers_get (Response.headers r) Allow_Origin_key = Some origin)
  /\ (is_allowed RegExp_test origin allowedOrigins = inr false ->
      exists r,
        setCorsHeaderToResponse RegExp_test request response allowedOrigins w = (Normal r, w)
        /\ headers_get (Response.headers r) Allow_Origin_key
           = Some (CorsHeaders.Access_Control_Allow_Origin (World.corsHeaders w))
        /\ forall w2,
             CorsHeaders.Access_Control_Allow_Origin (World.corsHeaders w2)
             <> CorsHeaders.Access_Control_Allow_Origin (World.corsHeaders w) ->
             fst (setCorsHeaderToResponse RegExp_test request response allowedOrigins w2)
             <> Normal r)
  /\ (forall error,
        is_allowed RegExp_test origin allowedOrigins = inl error ->
        setCorsHeaderToResponse RegExp_test request response allowedOrigins w
        = (Escapes (Error error), w)).
Proof.
  intros HO Ht.
  pose proof (setCors_with_origin RegExp_test request response allowedOrigins w origin HO Ht)
    as Hrun.
  split; [|split].
  - intros Ha. rewrite Ha in Hrun. destruct Hrun as (r & Hrun & _ & _ & Hget).
    eexists r, _. split; [exact Hrun|]. split; [reflexivity | exact Hget].
  - intros Ha. rewrite Ha in Hrun. destruct Hrun as (r & Hrun & _ & _ & Hget).
    exists r. split; [exact Hrun|]. split; [exact Hget|].
    intros w2 Hne Heq.
    pose proof (setCors_with_origin RegExp_test request response allowedOrigins w2 origin
                  HO Ht) as Hrun2.
    rewrite Ha in Hrun2. destruct Hrun2 as (r2 & Hrun2 & _ & _ & Hget2).
    rewrite Hrun2 in Heq. simpl in Heq, Hget, Hget2.
    injection Heq as ->. rewrite Hget in Hget2. congruence.
  - intros error Ha. rewrite Ha in Hrun. exact Hrun.
Qed.

(** Two runs of the same request from an origin that is not allowed: on
    a fresh instance the answer allows no origin, after a request from
    the blog it allows the blog's. *)
Example cors_two_runs_differ :
  let run w :=
    match fst (fetch Examples.markdownToHtml Examples.RegExp_test
                 (Examples.options_from (Some Examples.other_origin))
                 Examples.env Examples.platform 0 w) with
    | Normal r => headers_get (Response.headers r) Allow_Origin_key
    | _ => None
    end in
  run Examples.fresh = Some (lit "")
  /\ run Examples.after_blog_request = Some Examples.blog_origin.
Proof. split; reflexivity. Qed.

Lemma C10_witness :
  exists r w',
    setCorsHeaderToResponse Examples.RegExp_test
      (Examples.options_from (Some Examples.other_origin))
      (new_Response (text (lit "OK")) no_init)
      [Examples.blog_origin] Examples.after_blog_request = (Normal r, w')
    /\ w' = Examples.after_blog_request
    /\ headers_get (Response.headers r) Allow_Origin_key = Some Examples.blog_origin.
Proof.
  destruct (C10_cors_response_depends_on_global Examples.RegExp_test
              (Examples.options_from (Some Examples.other_origin))
              (new_Response (text (lit "OK")) no_init)
              [Examples.blog_origin] Examples.other_origin Examples.after_blog_request
              eq_refl eq_refl)
    as (_ & Hno & _).
  destruct (Hno eq_refl) as (r & Hrun & Hget & _).
  exists r, Examples.after_blog_request.
  split; [exact Hrun|]. split; [reflexivity | exact Hget].
Defined.

(** ** The tree query *)


Lemma node_of_select r : node_of (select_recursive r) = leaf r.
Proof. reflexivity. Qed.

Lemma query_rows db base :
  match base with
  | article a => query_article db a
  | comment c => query_comment db c
  end = map select_recursive (children_rows db base).
Proof.
  destruct base as [[a|]|c]; simpl; try reflexivity.
  unfold query_article. induction db as [|r db IH]; simpl; [reflexivity | exact IH].
Qed.

Lemma for_results_flat sub results comments :
  for_results sub false results comments = Normal (comments ++ map node_of results).
Proof.
  revert comments. induction results as [|r rs IH]; intros comments; simpl.
  - now rewrite app_nil_r.
  - rewrite IH, <- app_assoc. reflexivity.
Qed.

(** With every recursive call returning or throwing, the loop returns
    one node per result row, in order, each with what its call
    returned, or throws what one of the calls threw. *)
Lemma for_results_deep sub
    (P : RecursiveQueryCommentsRow.t -> list Comment.t -> Prop)
    (Q : RecursiveQueryCommentsRow.t -> Exn -> Prop)
    results :
  (forall r, In r results ->
     match sub (RecursiveQueryCommentsRow.id r) with
     | Normal cs => P r cs
     | Throw e => Q r e
     | Escapes _ | Pending => False
     end) ->
  forall comments,
    match for_results sub true results comments with
    | Normal all =>
        exists out,
          all = comments ++ out
          /\ Forall2 (fun r c => shallow c = node_of r /\ P r (Comment.children c))
               results out
    | Throw e => exists r, In r results /\ Q r e
    | Escapes _ | Pending => False
    end.
Proof.
  induction results as [|r rs IH]; intros Hsub comments; cbn [for_results].
  - exists []. rewrite app_nil_r. split; [reflexivity | constructor].
  - pose proof (Hsub r (or_introl eq_refl)) as Hr.
    destruct (sub (RecursiveQueryCommentsRow.id r)) as [cs|e|e|]; try contradiction.
    + match goal with
      | |- match for_results _ _ _ ?acc with _ => _ end =>
          pose proof (IH (fun r' H => Hsub r' (or_intror H)) acc) as Hrest;
          destruct (for_results sub true rs acc) as [all|e|e|]; try contradiction
      end.
      * destruct Hrest as (out & -> & Hall). eexists (_ :: out). split.
        -- rewrite <- app_assoc. reflexivity.
        -- constructor; [|exact Hall]. split; [reflexivity | exact Hr].
      * destruct Hrest as (r' & Hin & HQ). exists r'. split; [now right | exact HQ].
    + exists r. split; [now left | exact Hr].
Qed.

Lemma Forall2_shallow (P : RecursiveQueryCommentsRow.t -> list Comment.t -> Prop)
    results out :
  Forall2 (fun r c => shallow c = node_of r /\ P r (Comment.children c)) results out ->
  map shallow out = map node_of results.
Proof.
  induction 1 as [|r c rs cs [Hs _] _ IH]; simpl; [reflexivity|].
  now rewrite Hs, IH.
Qed.

Lemma above_length db b : length (above db b) <= length db.
Proof. apply filter_length_le. Qed.

Lemma above_child db b r :
  In r db -> (b < CommentsRow.id r)%Z ->
  length (above db (CommentsRow.id r)) < length (above db b).
Proof.
  unfold above. induction db as [|x db IH]; simpl; [contradiction|].
  intros [->|Hin] Hlt.
  - rewrite Z.ltb_irrefl. apply Z.ltb_lt in Hlt as Hb. rewrite Hb. simpl.
    apply Nat.lt_succ_r.
    clear IH. induction db as [|y db IH]; simpl; [lia|].
    destruct (CommentsRow.id r <? CommentsRow.id y)%Z eqn:E1.
    + apply Z.ltb_lt in E1.
      replace (b <? CommentsRow.id y)%Z with true by (symmetry; apply Z.ltb_lt; lia).
      simpl. lia.
    + destruct (b <? CommentsRow.id y)%Z; simpl; lia.
  - specialize (IH Hin Hlt).
    destruct (CommentsRow.id r <? CommentsRow.id x)%Z eqn:E1.
    + apply Z.ltb_lt in E1.
      replace (b <? CommentsRow.id x)%Z with true by (symmetry; apply Z.ltb_lt; lia).
      simpl. lia.
    + destruct (b <? CommentsRow.id x)%Z; simpl; lia.
Qed.

Lemma children_of_comment_in db b r :
  In r (children_rows db (comment b)) -> In r db /\ CommentsRow.parent_id r = b.
Proof.
  simpl. intros H. apply filter_In in H as [Hin Hp].
  apply Z.eqb_eq in Hp. now split.
Qed.

Lemma children_rows_in db base r : In r (children_rows db base) -> In r db.
Proof.
  destruct base as [[a|]|c]; simpl; try contradiction;
    intros H; now apply filter_In in H.
Qed.

Lemma wf_links_in db r :
  wf_links db -> In r db -> (CommentsRow.parent_id r < CommentsRow.id r)%Z.
Proof. intros Hwf Hin. exact (proj1 (Forall_forall _ db) Hwf r Hin). Qed.

Lemma above_self db r :
  In r db -> length (above db (CommentsRow.id r)) < length db.
Proof.
  unfold above. induction db as [|x db IH]; simpl; [contradiction|].
  intros [->|Hin].
  - rewrite Z.ltb_irrefl. apply Nat.lt_succ_r, filter_length_le.
  - specialize (IH Hin).
    destruct (CommentsRow.id r <? CommentsRow.id x)%Z; simpl; lia.
Qed.

Lemma deep_forest_of_results db base out :
  Forall2 (fun r c => shallow c = node_of r
                      /\ deep_forest db (comment (RecursiveQueryCommentsRow.id r))
                           (Comment.children c))
    (map select_recursive (children_rows db base)) out ->
  deep_forest db base out.
Proof.
  intros H. split.
  - rewrite (Forall2_shallow
               (fun r cs => deep_forest db (comment (RecursiveQueryCommentsRow.id r)) cs)
               _ _ H), map_map.
    apply map_ext, node_of_select.
  - remember (map select_recursive (children_rows db base)) as results eqn:E.
    clear E. induction H as [|r c rs cs [Hs [Hmap Hall]] _ IH]; constructor; [|exact IH].
    constructor; [|exact Hall].
    replace (Comment.id c) with (RecursiveQueryCommentsRow.id r); [exact Hmap|].
    change (Comment.id (node_of r) = Comment.id c). now rewrite <- Hs.
Qed.

Lemma descendant_under db base p r :
  descendant db base p ->
  descendant db (comment (CommentsRow.id p)) r ->
  descendant db base r.
Proof.
  intros Hp. induction 1 as [r Hr | q r _ IH Hr].
  - now apply descendant_below with (p := p).
  - now apply descendant_below with (p := q).
Qed.

(** A row below a base is one of its children or below one of them. *)
Lemma descendant_split db base row :
  descendant db base row ->
  exists child,
    In child (children_rows db base)
    /\ (row = child \/ descendant db (comment (CommentsRow.id child)) row).
Proof.
  induction 1 as [r Hr | p r _ (child & Hchild & Hp) Hr].
  - exists r. split; [exact Hr | now left].
  - exists child. split; [exact Hchild|]. right. destruct Hp as [->|Hp].
    + now apply descendant_child.
    + now apply descendant_below with (p := p).
Qed.

Lemma Forall2_In_l {A B} (R : A -> B -> Prop) l l' x :
  Forall2 R l l' -> In x l -> exists y, In y l' /\ R x y.
Proof.
  induction 1 as [|a b l l' Hab _ IH]; intros Hin; [contradiction|].
  destruct Hin as [->|Hin].
  - exists b. split; [now left | exact Hab].
  - destruct (IH Hin) as (y & Hy & HR). exists y. split; [now right | exact HR].
Qed.

Lemma reads_cannot_both db record_error base error :
  reads_succeed db record_error base -> read_fails db record_error base error -> False.
Proof.
  intros [Hb Hbelow] [Hf | (row & Hrow & Hf)].
  - congruence.
  - rewrite (Hbelow row Hrow) in Hf. discriminate.
Qed.

(** One level of the walk: when the walks below the children of a base
    end as they should, so does the walk below the base. *)
Lemma walk_step db record_error base fuel :
  (forall row,
     In row (children_rows db base) ->
     walked db record_error (comment (CommentsRow.id row))
       (recursiveQuery fuel db record_error (comment (CommentsRow.id row)) true)) ->
  walked db record_error base (recursiveQuery (S fuel) db record_error base true).
Proof.
  intros Hsub. cbn [recursiveQuery]. rewrite (query_rows db base).
  destruct (record_error base) as [error|] eqn:Eb.
  - exists error. split; [reflexivity | now left].
  - pose proof (for_results_deep
                  (fun id => recursiveQuery fuel db record_error (comment id) true)
                  (fun r cs =>
                     deep_forest db (comment (RecursiveQueryCommentsRow.id r)) cs
                     /\ reads_succeed db record_error
                          (comment (RecursiveQueryCommentsRow.id r)))
                  (fun r e =>
                     exists error,
                       e = DatabaseError error
                       /\ read_fails db record_error
                            (comment (RecursiveQueryCommentsRow.id r)) error)
                  (map select_recursive (children_rows db base))) as Hloop.
    match type of Hloop with
    | ?H -> _ =>
        assert (Hpre : H);
        [ intros r Hr; apply in_map_iff in Hr as (row & <- & Hrow);
          exact (Hsub row Hrow)
        | specialize (Hloop Hpre (@nil Comment.t)) ]
    end.
    destruct (for_results _ true _ []) as [all|e|e|]; try contradiction.
    + destruct Hloop as (out & -> & Hall). simpl. split.
      * apply deep_forest_of_results.
        clear - Hall. induction Hall as [|r c rs cs [Hs [Hd _]] _ IH]; constructor; auto.
      * split; [exact Eb|]. intros row Hrow.
        destruct (descendant_split db base row Hrow) as (child & Hchild & Hcase).
        destruct (Forall2_In_l _ _ _ (select_recursive child) Hall
                    (in_map select_recursive _ _ Hchild))
          as (c & _ & _ & _ & [Hc Hbelow]).
        simpl in Hc, Hbelow. destruct Hcase as [->|Hd]; [exact Hc | exact (Hbelow row Hd)].
    + destruct Hloop as (r & Hr & error & -> & Hfail).
      apply in_map_iff in Hr as (row & <- & Hrow). simpl in Hfail.
      exists error. split; [reflexivity|]. right.
      destruct Hfail as [Hf | (below & Hbelow & Hf)].
      * exists row. split; [now apply descendant_child | exact Hf].
      * exists below. split; [|exact Hf].
        apply descendant_under with (p := row); [now apply descendant_child | exact Hbelow].
Qed.

(** On a table with well-founded links the recursive walk below a
    comment ends, once the fuel exceeds the number of rows above it. *)
Lemma recursiveQuery_deep db record_error :
  wf_links db ->
  forall fuel b,
    length (above db b) < fuel ->
    walked db record_error (comment b)
      (recursiveQuery fuel db record_error (comment b) true).
Proof.
  intros Hwf. induction fuel as [|fuel IH]; intros b Hfuel; [lia|].
  apply walk_step. intros row Hrow.
  apply children_of_comment_in in Hrow as [Hin Hp].
  apply IH.
  pose proof (@wf_links_in db row Hwf Hin) as Hlt. rewrite Hp in Hlt.
  pose proof (@above_child db b row Hin Hlt). lia.
Qed.

Lemma recursiveQuery_deep_base db record_error base :
  wf_links db ->
  forall fuel,
    length db < fuel ->
    walked db record_error base (recursiveQuery fuel db record_error base true).
Proof.
  intros Hwf [|fuel] Hfuel; [lia|].
  apply walk_step. intros row Hrow. apply children_rows_in in Hrow.
  apply (@recursiveQuery_deep db record_error Hwf).
  pose proof (@above_self db row Hrow). lia.
Qed.

(** The walk with every read succeeding. *)
Lemma recursiveQuery_deep_ok db record_error base :
  wf_links db ->
  reads_succeed db record_error base ->
  forall fuel,
    length db < fuel ->
    exists comments,
      recursiveQuery fuel db record_error base true = Normal comments
      /\ deep_forest db base comments.
Proof.
  intros Hwf Hok fuel Hfuel.
  pose proof (@recursiveQuery_deep_base db record_error base Hwf fuel Hfuel) as Hw.
  destruct (recursiveQuery fuel db record_error base true) as [comments|e|e|];
    simpl in Hw; try contradiction.
  - exists comments. split; [reflexivity | exact (proj1 Hw)].
  - destruct Hw as (error & _ & Hfail).
    destruct (reads_cannot_both _ _ _ _ Hok Hfail).
Qed.

Lemma recursiveQuery_flat db record_error base fuel :
  record_error base = None ->
  recursiveQuery (S fuel) db record_error base false
  = Normal (map leaf (children_rows db base)).
Proof.
  intros Hb. cbn [recursiveQuery].
  rewrite Hb, (query_rows db base), for_results_flat, map_map.
  simpl. f_equal.
Qed.

Lemma recursiveQuery_error db record_error base fuel is_recursive error :
  record_error base = Some error ->
  recursiveQuery (S fuel) db record_error base is_recursive
  = Throw (DatabaseError error).
Proof. intros Hb. cbn [recursiveQuery]. now rewrite Hb. Qed.

(** Nodes and rows of equal lists of leaves correspond. *)
Lemma map_eq_In_l {A B C} (f : A -> C) (g : B -> C) l l' x :
  map f l = map g l' -> In x l -> exists y, In y l' /\ f x = g y.
Proof.
  revert l'. induction l as [|a l IH]; intros [|b l'] E Hin; simpl in *;
    try contradiction; try discriminate.
  injection E as E1 E2. destruct Hin as [->|Hin].
  - exists b. auto.
  - destruct (IH l' E2 Hin) as (y & Hy & Hxy). exists y. auto.
Qed.

Lemma occurs_child c p cs :
  occurs p cs -> In c (Comment.children p) -> occurs c cs.
Proof.
  induction 1 as [cs Hin | p' cs Hin _ IH]; intros Hc.
  - apply occurs_below with (p := p); [exact Hin|]. now apply occurs_here.
  - apply occurs_below with (p := p'); [exact Hin | exact (IH Hc)].
Qed.

Lemma full_tree_inv db c :
  full_tree db c -> deep_forest db (comment (Comment.id c)) (Comment.children c).
Proof. intros H. inversion H. now split. Qed.

Lemma shallow_id c r : shallow c = leaf r -> Comment.id c = CommentsRow.id r.
Proof. intros H. exact (f_equal Comment.id H). Qed.

(** Every stored descendant of the base is a node of the forest. *)
Lemma deep_forest_covers db base comments :
  deep_forest db base comments ->
  forall row, descendant db base row ->
    exists c, occurs c comments /\ shallow c = leaf row /\ full_tree db c.
Proof.
  intros [Hmap Hall] row. induction 1 as [r Hr | p r _ IH Hr].
  - destruct (@map_eq_In_l _ _ _ leaf shallow _ _ r (eq_sym Hmap) Hr) as (c & Hc & E).
    exists c. split; [now apply occurs_here|]. split; [now symmetry|].
    exact (proj1 (Forall_forall _ _) Hall c Hc).
  - destruct IH as (cp & Hocc & Hs & Hfull).
    destruct (@full_tree_inv db cp Hfull) as [Hmap' Hall'].
    rewrite (@shallow_id cp p Hs) in Hmap'.
    destruct (@map_eq_In_l _ _ _ leaf shallow _ _ r (eq_sym Hmap') Hr) as (c & Hc & E).
    exists c. split; [exact (@occurs_child c cp comments Hocc Hc)|].
    split; [now symmetry|].
    exact (proj1 (Forall_forall _ _) Hall' c Hc).
Qed.

(** Every node of the forest is a stored descendant of the base. *)
Lemma deep_forest_sound db c comments :
  occurs c comments ->
  forall base, deep_forest db base comments ->
    exists row, descendant db base row /\ shallow c = leaf row.
Proof.
  induction 1 as [cs Hin | p cs Hin _ IH]; intros base [Hmap Hall].
  - destruct (@map_eq_In_l _ _ _ shallow leaf _ _ c Hmap Hin) as (row & Hrow & E).
    exists row. split; [now apply descendant_child | exact E].
  - destruct (@map_eq_In_l _ _ _ shallow leaf _ _ p Hmap Hin) as (prow & Hprow & E).
    pose proof (proj1 (Forall_forall _ _) Hall p Hin) as Hfull.
    destruct (IH _ (@full_tree_inv db p Hfull)) as (row & Hdesc & Hs).
    rewrite (@shallow_id p prow E) in Hdesc.
    exists row. split; [|exact Hs].
    apply descendant_under with (p := prow); [now apply descendant_child | exact Hdesc].
Qed.

(** The walk returns, throws a [DatabaseError] with the error of one of
    its reads, or is pending. *)
Lemma for_results_never_escapes sub (Q : Exn -> Prop) is_recursive results comments :
  (forall id,
     match sub id with
     | Throw e => Q e
     | Escapes _ => False
     | _ => True
     end) ->
  match for_results sub is_recursive results comments with
  | Throw e => Q e
  | Escapes _ => False
  | _ => True
  end.
Proof.
  intros Hsub. revert comments.
  induction results as [|r rs IH]; intros comments; cbn [for_results]; [exact I|].
  destruct is_recursive; [|apply IH].
  pose proof (Hsub (RecursiveQueryCommentsRow.id r)) as Hr.
  destruct (sub (RecursiveQueryCommentsRow.id r)) as [cs|e|e|];
    [apply IH | exact Hr | contradiction | exact I].
Qed.

Lemma recursiveQuery_never_escapes fuel db record_error base is_recursive :
  match recursiveQuery fuel db record_error base is_recursive with
  | Throw e =>
      exists error read, e = DatabaseError error /\ record_error read = Some error
  | Escapes _ => False
  | _ => True
  end.
Proof.
  revert base is_recursive.
  induction fuel as [|fuel IH]; intros base is_recursive; cbn [recursiveQuery]; [exact I|].
  destruct (record_error base) as [error|] eqn:Eb; [now exists error, base|].
  apply for_results_never_escapes. intros id. apply IH.
Qed.

(** C4 (amended): for every stored table and every base,
    [recursiveQuery] with [is_recursive = false], when the query of the
    base reports no
    error, returns exactly the nodes of the base's immediate children,
    in store order, each with an empty [children] array; when the query
    reports an error it returns nothing and throws a [DatabaseError]
    with that error, whatever [is_recursive].  With [is_recursive =
    true], on a table whose parent links lead to rows stored earlier
    (every table the handler fills, see [stored_wf]), the walk ends once
    the fuel exceeds the number of rows.  When no query of the walk
    reports an error it returns the same immediate children, every node
    at every depth has as children exactly the rows stored under its
    id, and the nodes of the forest are exactly the stored descendants
    of the base; when a query of the walk reports an error it throws a
    [DatabaseError] with the error of such a query. *)
Theorem C4_recursiveQuery_children_and_full_depth
    (db : D1Database) (record_error : Base -> option jstr) (base : Base) :
  (forall fuel,
     (record_error base = None ->
      recursiveQuery (S fuel) db record_error base false
      = Normal (map leaf (children_rows db base))
      /\ Forall (fun c => Comment.children c = []) (map leaf (children_rows db base)))
     /\ (forall error is_recursive,
           record_error base = Some error ->
           recursiveQuery (S fuel) db record_error base is_recursive
           = Throw (DatabaseError error)))
  /\ (wf_links db ->
      forall fuel, length db < fuel ->
      (reads_succeed db record_error base ->
       exists comments,
         recursiveQuery fuel db record_error base true = Normal comments
         /\ map shallow comments = map leaf (children_rows db base)
         /\ Forall (full_tree db) comments
         /\ (forall row, descendant db base row ->
               exists c, occurs c comments /\ shallow c = leaf row)
         /\ (forall c, occurs c comments ->
               exists row, descendant db base row /\ shallow c = leaf row))
      /\ (forall error,
            read_fails db record_error base error ->
            exists thrown,
              recursiveQuery fuel db record_error base true
              = Throw (DatabaseError thrown)
              /\ read_fails db record_error base thrown)).
Proof.
  split.
  - intros fuel. split.
    + intros Hb. split; [now apply recursiveQuery_flat|].
      apply Forall_forall. intros c Hc. apply in_map_iff in Hc as (r & <- & _). reflexivity.
    + intros error is_recursive Hb. now apply recursiveQuery_error.
  - intros Hwf fuel Hfuel. split.
    + intros Hok.
      destruct (@recursiveQuery_deep_ok db record_error base Hwf Hok fuel Hfuel)
        as (comments & Hrun & Hdeep).
      exists comments. split; [exact Hrun|]. destruct Hdeep as [Hmap Hall].
      split; [exact Hmap|]. split; [exact Hall|]. split.
      * intros row Hrow.
        destruct (@deep_forest_covers db base comments (conj Hmap Hall) row Hrow)
          as (c & Hocc & Hs & _).
        exists c. now split.
      * intros c Hocc.
        exact (@deep_forest_sound db c comments Hocc base (conj Hmap Hall)).
    + intros error Hfail.
      pose proof (@recursiveQuery_deep_base db record_error base Hwf fuel Hfuel) as Hw.
      destruct (recursiveQuery fuel db record_error base true) as [comments|e|e|];
        simpl in Hw; try contradiction.
      * destruct (reads_cannot_both _ _ _ _ (proj2 Hw) Hfail).
      * destruct Hw as (thrown & -> & Hthrown). now exists thrown.
Qed.

Lemma thread_wf_links : wf_links Examples.thread.
Proof. repeat constructor. Qed.

Lemma C4_witness :
  exists comments,
    recursiveQuery 5 Examples.thread (fun _ => None) (article (Some (lit "hello"))) true
    = Normal comments
    /\ map shallow comments = [leaf (Examples.row 1 "hello" 0 0 "ann" "ann@example.org" "first")]
    /\ Forall (full_tree Examples.thread) comments.
Proof.
  destruct (proj1 (proj2 (C4_recursiveQuery_children_and_full_depth Examples.thread
                            (fun _ => None) (article (Some (lit "hello"))))
                     thread_wf_links 5 ltac:(simpl; lia))
              (conj eq_refl (fun _ _ => eq_refl)))
    as (comments & Hrun & Hmap & Hall & _).
  exists comments. split; [exact Hrun|]. split; [exact Hmap | exact Hall].
Defined.

(** A query that reports an error: the function returns no children. *)
Lemma C4_counterexample :
  recursiveQuery 5 Examples.thread MoreExamples.unreadable
    (article (Some (lit "hello"))) false
  = Throw (DatabaseError (lit "D1_ERROR: no such table: comments"))
  /\ recursiveQuery 5 Examples.thread MoreExamples.unreadable
       (article (Some (lit "hello"))) true
     = Throw (DatabaseError (lit "D1_ERROR: no such table: comments")).
Proof. split; reflexivity. Qed.

(** The walk on the example thread: one top-level comment with the
    whole chain below it. *)
Example thread_tree :
  recursiveQuery 5 Examples.thread (fun _ => None) (article (Some (lit "hello"))) true
  = Normal [ {| Comment.id := 1; Comment.author := lit "ann";
              Comment.email := lit "ann@example.org"; Comment.website := lit "";
              Comment.content := lit "<p>first</p>";
              Comment.comment_timestamp_ms := 1700000000001;
              Comment.children :=
                [ {| Comment.id := 2; Comment.author := lit "bob";
                     Comment.email := lit ""; Comment.website := lit "";
                     Comment.content := lit "<p>second</p>";
                     Comment.comment_timestamp_ms := 1700000000002;
                     Comment.children :=
                       [ {| Comment.id := 4; Comment.author := lit "ann";
                            Comment.email := lit "ann@example.org";
                            Comment.website := lit "";
                            Comment.content := lit "<p>third</p>";
                            Comment.comment_timestamp_ms := 1700000000004;
                            Comment.children := [] |} ] |} ] |} ].
Proof. reflexivity. Qed.

(** A row that is its own parent: no fuel lets the walk below it return. *)
Example self_parent_never_returns (fuel : nat) :
  recursiveQuery fuel [Examples.row 5 "hello" 5 1 "dan" "" "loop"] (fun _ => None)
    (comment 5) true
  = Pending.
Proof.
  induction fuel as [|fuel IH]; [reflexivity|].
  cbn [recursiveQuery]. unfold query_comment. simpl. now rewrite IH.
Qed.

(** ** The HTTP handler *)

Import HandlerSpec.

Section HandlerFacts.

Variable markdownToHtml : jstr -> jstr.
Variable RegExp_test : jstr -> jstr -> jstr + bool.
Variable req : Request.t.
Variable env : Env.t.
Variable platform : Platform.t.

Abbreviation getReponse := (getReponse RegExp_test req env).
Abbreviation fetch_catch := (fetch_catch RegExp_test req env).
Abbreviation fetch := (fetch markdownToHtml RegExp_test req env platform).
Abbreviation wrapped := (wrapped RegExp_test req env).
Abbreviation notified := (notified RegExp_test req env platform).
Abbreviation stored_row := (stored_row markdownToHtml platform).

(** What went through the wrapper was answered or escaped; it was not
    thrown. *)
Lemma wrapped_cases status body c :
  wrapped status body c -> (exists r, c = Normal r) \/ (exists e, c = Escapes e).
Proof.
  unfold HttpSpec.wrapped. destruct (Request.Origin req) as [origin|].
  - destruct (truthy origin).
    + destruct (is_allowed _ _ _).
      * intros ->. right. now eexists.
      * intros (r & -> & _). left. now eexists.
    + intros ->. left. now eexists.
  - intros ->. left. now eexists.
Qed.

(** An answer through [getReponse] touches nothing but [corsHeaders]. *)
Lemma getReponse_effect body init w :
  exists c w',
    getReponse body init w = (c, w')
    /\ store_unchanged w w'
    /\ World.console w' = World.console w
    /\ wrapped (Response.status (new_Response body init)) body c.
Proof.
  unfold CommentWorker.getReponse, HttpSpec.wrapped. fold (allowedOrigins env).
  destruct (Request.Origin req) as [origin|] eqn:HO.
  - destruct (truthy origin) eqn:Ht.
    + pose proof (setCors_with_origin RegExp_test req (new_Response body init)
                    (allowedOrigins env) w origin HO Ht) as Hrun.
      destruct (is_allowed RegExp_test origin (allowedOrigins env)) as [error|allowed].
      * rewrite Hrun. eexists _, _. split; [reflexivity|]. now repeat split.
      * destruct Hrun as (r & Hrun & Hst & Hbody & _). rewrite Hrun.
        eexists _, _. split; [reflexivity|].
        split; [destruct allowed; now repeat split|].
        split; [destruct allowed; reflexivity|].
        exists r. split; [reflexivity|]. split; [exact Hst | exact Hbody].
    + rewrite setCors_no_origin by (rewrite HO; exact Ht).
      eexists _, _. split; [reflexivity|]. now repeat split.
  - rewrite setCors_no_origin by (rewrite HO; reflexivity).
    eexists _, _. split; [reflexivity|]. now repeat split.
Qed.

(** The [catch] block logs the error, answers 500 and leaves store and
    queues alone. *)
Lemma fetch_catch_effect e w :
  exists c w',
    fetch_catch e w = (c, w')
    /\ store_unchanged w w'
    /\ World.console w' = World.console w ++ [error_catched (message e)]
    /\ wrapped 500
         (text (match e with
                | DatabaseError _ => lit "Database error"
                | Error _ => lit "Internal server error"
                end)) c.
Proof.
  unfold CommentWorker.fetch_catch, bind, console_push.
  destruct e as [m|m]; simpl.
  - destruct (getReponse_effect (text (lit "Database error")) (status_init 500)
                (set_console w (World.console w ++ [error_catched m])))
      as (c & w' & Hrun & Hsame & Hcon & Hw).
    rewrite Hrun. exists c, w'. split; [reflexivity|]. split; [exact Hsame|].
    split; [exact Hcon | exact Hw].
  - destruct (getReponse_effect (text (lit "Internal server error")) (status_init 500)
                (set_console w (World.console w ++ [error_catched m])))
      as (c & w' & Hrun & Hsame & Hcon & Hw).
    rewrite Hrun. exists c, w'. split; [reflexivity|]. split; [exact Hsame|].
    split; [exact Hcon | exact Hw].
Qed.

Abbreviation post := (post markdownToHtml RegExp_test req env platform).
Abbreviation insert_comment := (insert_comment markdownToHtml RegExp_test req env platform).
Abbreviation notify := (notify RegExp_test req env platform).

Lemma fetch_POST event fuel w :
  is_POST_comment req event ->
  fetch fuel w = try_catch post fetch_catch w.
Proof.
  intros (url & Hurl & Hpath & Hmeth & _).
  unfold CommentWorker.fetch, try_catch, fetch_try.
  rewrite Hurl, Hpath, Hmeth. reflexivity.
Qed.

Lemma parent_query_none db pid :
  (forall r, In r db -> CommentsRow.id r <> pid) ->
  parent_comment_query db pid = None.
Proof.
  intros H. unfold parent_comment_query.
  destruct (find _ db) as [r|] eqn:E; [|reflexivity].
  apply find_some in E as [Hin Hid]. apply Z.eqb_eq in Hid.
  now destruct (H r Hin).
Qed.

Lemma find_unique db parent :
  unique_ids db -> In parent db ->
  find (fun r => (CommentsRow.id r =? CommentsRow.id parent)%Z) db = Some parent.
Proof.
  unfold unique_ids. induction db as [|x db IH]; simpl; [contradiction|].
  intros Hnd Hin. inversion Hnd as [|? ? Hx Hnd']; subst.
  destruct (CommentsRow.id x =? CommentsRow.id parent)%Z eqn:E.
  - destruct Hin as [->|Hin]; [reflexivity|].
    apply Z.eqb_eq in E. exfalso. apply Hx. rewrite E. now apply in_map.
  - destruct Hin as [->|Hin]; [now rewrite Z.eqb_refl in E | now apply IH].
Qed.

Lemma parent_query_level db parent :
  unique_ids db -> In parent db ->
  exists pc,
    parent_comment_query db (CommentsRow.id parent) = Some pc
    /\ ParentCommentsRow.level pc = CommentsRow.level parent.
Proof.
  intros Hu Hin. unfold parent_comment_query. rewrite (find_unique db parent Hu Hin).
  eexists. split; reflexivity.
Qed.

Lemma parent_query_found db parent :
  In parent db ->
  exists first,
    In first db
    /\ CommentsRow.id first = CommentsRow.id parent
    /\ find (fun r => (CommentsRow.id r =? CommentsRow.id parent)%Z) db = Some first.
Proof.
  intros Hin.
  destruct (find (fun r => (CommentsRow.id r =? CommentsRow.id parent)%Z) db) as [first|] eqn:E.
  - apply find_some in E as H. destruct H as [Hf Hid]. apply Z.eqb_eq in Hid.
    now exists first.
  - exfalso. pose proof (find_none _ _ E parent Hin) as H. simpl in H.
    now rewrite Z.eqb_refl in H.
Qed.

(** When the parent check passes it hands on a level and a parent. *)
Lemma parent_found_checked event db :
  parent_found event db ->
  exists level parent_comment, checked_parent event db = Some (level, parent_comment).
Proof.
  unfold parent_found, checked_parent, truthy_id.
  intros [Hfalsy | (parent & Hin & Hpid)].
  - destruct (PostCommentEvent.parent_comment_id event) as [pid|]; [|now eexists _, _].
    apply negb_false_iff in Hfalsy. rewrite Hfalsy. now eexists _, _.
  - rewrite Hpid. destruct (CommentsRow.id parent =? 0)%Z; [now eexists _, _|].
    unfold parent_comment_query.
    destruct (parent_query_found db parent Hin) as (first & _ & _ & Hfind).
    rewrite Hfind. now eexists _, _.
Qed.

Lemma find_last {A} (f : A -> bool) l x :
  f x = true -> exists y, find f (l ++ [x]) = Some y.
Proof.
  intros Hx. induction l as [|a l IH]; simpl.
  - rewrite Hx. now exists x.
  - destruct (f a); [now exists a | exact IH].
Qed.

Lemma notify_run event parent_comment w last_insert_id :
  last_insert_id_command (World.COMMENT_DB w) (Platform.randomUUID platform)
  = Some last_insert_id ->
  exists c w',
    try_catch (notify event parent_comment (Platform.getTime platform)
                 (Platform.randomUUID platform)) fetch_catch w
    = (c, w')
    /\ World.COMMENT_DB w' = World.COMMENT_DB w
    /\ notified event parent_comment w w' c.
Proof.
  intros Hid. unfold try_catch, CommentWorker.notify. rewrite Hid.
  unfold HttpSpec.notified. rewrite Hid.
  unfold bind, MESSAGE_QUEUE_send, EMAIL_QUEUE_send, ret.
  destruct (Platform.MESSAGE_QUEUE_send_error platform) as [err|].
  - destruct (fetch_catch_effect (Error err) w)
      as (c & w' & Hrun & (Hdb & Hmq & Heq) & Hcon & Hw).
    rewrite Hrun. exists c, w'. split; [reflexivity|]. split; [exact Hdb|].
    exists last_insert_id. split; [reflexivity|]. now repeat split.
  - destruct (truthy_opt (PostCommentEvent.email event)).
    + destruct (Platform.EMAIL_QUEUE_send_error platform) as [err|].
      * match goal with
        | |- context [fetch_catch ?e ?w0] =>
            destruct (fetch_catch_effect e w0)
              as (c & w' & Hrun & (Hdb & Hmq & Heq) & Hcon & Hw)
        end.
        rewrite Hrun. exists c, w'. split; [reflexivity|]. split; [exact Hdb|].
        exists last_insert_id. split; [reflexivity|]. now repeat split.
      * match goal with
        | |- context [getReponse ?b ?i ?w0] =>
            destruct (getReponse_effect b i w0)
              as (c & w' & Hrun & (Hdb & Hmq & Heq) & Hcon & Hw)
        end.
        rewrite Hrun.
        exists c, w'.
        split; [destruct (wrapped_cases _ _ _ Hw) as [[r ->]|[e ->]]; reflexivity|].
        split; [exact Hdb|].
        exists last_insert_id. split; [reflexivity|]. now repeat split.
    + match goal with
      | |- context [getReponse ?b ?i ?w0] =>
          destruct (getReponse_effect b i w0)
            as (c & w' & Hrun & (Hdb & Hmq & Heq) & Hcon & Hw)
      end.
      rewrite Hrun.
      exists c, w'.
      split; [destruct (wrapped_cases _ _ _ Hw) as [[r ->]|[e ->]]; reflexivity|].
      split; [exact Hdb|].
      exists last_insert_id. split; [reflexivity|]. now repeat split.
Qed.

(** A POST whose INSERT succeeds: the row is stored at the level the
    parent check computed, and the notifications follow. *)
Lemma insert_comment_run event level parent_comment w :
  Platform.insert_error platform = None ->
  exists c w',
    try_catch (insert_comment event level parent_comment) fetch_catch w = (c, w')
    /\ World.COMMENT_DB w'
       = World.COMMENT_DB w ++ [stored_row event level (World.COMMENT_DB w)]
    /\ notified event parent_comment
         (set_COMMENT_DB w
            (World.COMMENT_DB w ++ [stored_row event level (World.COMMENT_DB w)]))
         w' c.
Proof.
  intros Hins.
  set (row := stored_row event level (World.COMMENT_DB w)).
  assert (Hlast : exists y,
             last_insert_id_command (World.COMMENT_DB w ++ [row])
               (Platform.randomUUID platform) = Some y).
  { unfold last_insert_id_command.
    destruct (@find_last _ (fun r => Js.eqb (CommentsRow.uuid r) (Platform.randomUUID platform))
                (World.COMMENT_DB w) row (jstr_eqb_refl _)) as [y Hy].
    rewrite Hy. eexists. reflexivity. }
  destruct Hlast as [y Hy].
  destruct (notify_run event parent_comment
              (set_COMMENT_DB w (World.COMMENT_DB w ++ [row])) y Hy)
    as (c & w' & Hrun & Hdb & Hnot).
  exists c, w'. split; [|split; [exact Hdb | exact Hnot]].
  unfold try_catch, CommentWorker.insert_comment. rewrite Hins.
  unfold try_catch in Hrun. exact Hrun.
Qed.

(** The POST whose parent is missing: a warning, the answer, and
    nothing else. *)
Lemma post_missing_parent event pid w :
  Request.json req = inr event ->
  PostCommentEvent.parent_comment_id event = Some pid ->
  pid <> 0%Z ->
  parent_comment_query (World.COMMENT_DB w) pid = None ->
  exists c w',
    try_catch post fetch_catch w = (c, w')
    /\ store_unchanged w w'
    /\ World.console w' = World.console w ++ [warn_parent_not_found pid]
    /\ wrapped 404 (text (lit "Parent comment not found")) c.
Proof.
  intros Hjson Hpid Hnz Hq.
  unfold try_catch, CommentWorker.post. rewrite Hjson, Hpid.
  unfold truthy_id. apply Z.eqb_neq in Hnz. rewrite Hnz. simpl. rewrite Hq.
  unfold bind, console_push.
  match goal with
  | |- context [getReponse ?b ?i ?w0] =>
      destruct (getReponse_effect b i w0)
        as (c & w' & Hrun & Hsame & Hcon & Hw)
  end.
  rewrite Hrun. exists c, w'.
  split; [destruct (wrapped_cases _ _ _ Hw) as [[r ->]|[e ->]]; reflexivity|].
  split; [exact Hsame|]. split; [exact Hcon | exact Hw].
Qed.

Lemma post_checked event w level parent_comment :
  Request.json req = inr event ->
  checked_parent event (World.COMMENT_DB w) = Some (level, parent_comment) ->
  try_catch post fetch_catch w
  = try_catch (insert_comment event level parent_comment) fetch_catch w.
Proof.
  intros Hjson. unfold checked_parent, try_catch, CommentWorker.post. rewrite Hjson.
  destruct (PostCommentEvent.parent_comment_id event) as [pid|].
  - unfold truthy_id. destruct (pid =? 0)%Z; simpl.
    + intros E. injection E as <- <-. reflexivity.
    + destruct (parent_comment_query (World.COMMENT_DB w) pid) as [pc|]; [|discriminate].
      intros E. injection E as <- <-. reflexivity.
  - intros E. injection E as <- <-. reflexivity.
Qed.

(** A POST that passes the parent check and whose INSERT succeeds stores
    [stored_row] and notifies. *)
Lemma post_stores event level parent_comment fuel w :
  is_POST_comment req event ->
  Platform.insert_error platform = None ->
  checked_parent event (World.COMMENT_DB w) = Some (level, parent_comment) ->
  exists c w',
    fetch fuel w = (c, w')
    /\ World.COMMENT_DB w' = World.COMMENT_DB w ++ [stored_row event level (World.COMMENT_DB w)]
    /\ notified event parent_comment
         (set_COMMENT_DB w
            (World.COMMENT_DB w ++ [stored_row event level (World.COMMENT_DB w)]))
         w' c.
Proof.
  intros Hpost Hins Hc.
  rewrite (fetch_POST event fuel w Hpost).
  destruct Hpost as (url & _ & _ & _ & Hjson).
  rewrite (post_checked event w level parent_comment Hjson Hc).
  now apply insert_comment_run.
Qed.

(** Every [POST /comment] whose body parses either leaves store and
    queues as they were, or stores one row and notifies. *)
Lemma post_cases event fuel w :
  is_POST_comment req event ->
  exists c w',
    fetch fuel w = (c, w')
    /\ (store_unchanged w w'
        \/ exists level parent_comment,
             Platform.insert_error platform = None
             /\ checked_parent event (World.COMMENT_DB w) = Some (level, parent_comment)
             /\ World.COMMENT_DB w'
                = World.COMMENT_DB w ++ [stored_row event level (World.COMMENT_DB w)]
             /\ notified event parent_comment
                  (set_COMMENT_DB w
                     (World.COMMENT_DB w ++ [stored_row event level (World.COMMENT_DB w)]))
                  w' c).
Proof.
  intros Hpost.
  destruct (checked_parent event (World.COMMENT_DB w)) as [[level parent_comment]|] eqn:Hc.
  - destruct (Platform.insert_error platform) as [err|] eqn:Hins.
    + rewrite (fetch_POST event fuel w Hpost).
      destruct Hpost as (url & _ & _ & _ & Hjson).
      rewrite (post_checked event w level parent_comment Hjson Hc).
      unfold try_catch, CommentWorker.insert_comment. rewrite Hins.
      destruct (fetch_catch_effect (DatabaseError err) w) as (c & w' & Hrun & Hsame & _).
      exists c, w'. split; [exact Hrun | now left].
    + destruct (post_stores event level parent_comment fuel w Hpost Hins Hc)
        as (c & w' & Hrun & Hdb & Hnot).
      exists c, w'. split; [exact Hrun|]. right.
      exists level, parent_comment. now repeat split.
  - rewrite (fetch_POST event fuel w Hpost).
    destruct Hpost as (url & _ & _ & _ & Hjson).
    unfold checked_parent in Hc.
    destruct (PostCommentEvent.parent_comment_id event) as [pid|] eqn:Hpid; [|discriminate].
    destruct (pid =? 0)%Z eqn:Hz; [discriminate|].
    destruct (parent_comment_query (World.COMMENT_DB w) pid) eqn:Hq; [discriminate|].
    apply Z.eqb_neq in Hz.
    destruct (post_missing_parent event pid w Hjson Hpid Hz Hq)
      as (c & w' & Hrun & Hsame & _).
    exists c, w'. split; [exact Hrun | now left].
Qed.

Lemma app_one_neq {A} (l : list A) (x : A) : l ++ [x] <> l.
Proof.
  intros E. apply (f_equal (@length A)) in E. rewrite length_app in E. simpl in E. lia.
Qed.

(** C1 (amended): a [POST /comment] whose [parent_comment_id] is a
    non-zero id that no row of the table has inserts no row and
    enqueues no job, and logs the warning.  It is answered with 404
    [Parent comment not found] when the request carries a non-empty
    Origin header and the allow-list loop of the CORS wrapper ends;
    with the wrapper's 400 [Origin header not found] when it carries
    none; and when the loop meets an ill-formed pattern the handler's
    promise rejects with that SyntaxError and no answer is given. *)
Theorem C1_missing_parent_404_store_unchanged
    (event : PostCommentEvent.t) (pid : Z) (fuel : nat) (w : World.t) :
  is_POST_comment req event ->
  PostCommentEvent.parent_comment_id event = Some pid ->
  pid <> 0%Z ->
  (forall r, In r (World.COMMENT_DB w) -> CommentsRow.id r <> pid) ->
  exists c w',
    fetch fuel w = (c, w')
    /\ match Request.Origin req with
       | Some origin =>
           if truthy origin then
             match is_allowed RegExp_test origin (allowedOrigins env) with
             | inr _ =>
                 exists r,
                   c = Normal r
                   /\ Response.status r = 404%Z
                   /\ Response.body r = text (lit "Parent comment not found")
             | inl error => c = Escapes (Error error)
             end
           else c = Normal Origin_header_not_found
       | None => c = Normal Origin_header_not_found
       end
    /\ World.COMMENT_DB w' = World.COMMENT_DB w
    /\ World.MESSAGE_QUEUE w' = World.MESSAGE_QUEUE w
    /\ World.EMAIL_QUEUE w' = World.EMAIL_QUEUE w
    /\ World.console w' = World.console w ++ [warn_parent_not_found pid].
Proof.
  intros Hpost Hpid Hnz Hnone. rewrite (fetch_POST event fuel w Hpost).
  destruct Hpost as (url & _ & _ & _ & Hjson).
  destruct (post_missing_parent event pid w Hjson Hpid Hnz
              (parent_query_none (World.COMMENT_DB w) pid Hnone))
    as (c & w' & Hrun & (Hdb & Hmq & Heq) & Hcon & Hw).
  exists c, w'. split; [exact Hrun|]. split; [exact Hw|]. now repeat split.
Qed.

(** C2: a [POST /comment] whose INSERT succeeds stores one row; its
    level is 0 when [parent_comment_id] is absent or 0, and the level of
    the parent row plus 1 when [parent_comment_id] is the id of a row of
    the table. *)
Theorem C2_stored_level (event : PostCommentEvent.t) (fuel : nat) (w : World.t) :
  is_POST_comment req event ->
  Platform.insert_error platform = None ->
  (truthy_id (PostCommentEvent.parent_comment_id event) = false ->
   exists row,
     World.COMMENT_DB (snd (fetch fuel w)) = World.COMMENT_DB w ++ [row]
     /\ CommentsRow.level row = 0%Z)
  /\ (forall parent,
        unique_ids (World.COMMENT_DB w) ->
        In parent (World.COMMENT_DB w) ->
        PostCommentEvent.parent_comment_id event = Some (CommentsRow.id parent) ->
        CommentsRow.id parent <> 0%Z ->
        exists row,
          World.COMMENT_DB (snd (fetch fuel w)) = World.COMMENT_DB w ++ [row]
          /\ CommentsRow.level row = (CommentsRow.level parent + 1)%Z
          /\ CommentsRow.parent_id row = CommentsRow.id parent).
Proof.
  intros Hpost Hins. split.
  - intros Hfalsy.
    assert (Hc : checked_parent event (World.COMMENT_DB w) = Some (0%Z, None)).
    { unfold checked_parent. unfold truthy_id in Hfalsy.
      destruct (PostCommentEvent.parent_comment_id event) as [pid|]; [|reflexivity].
      apply negb_false_iff in Hfalsy. now rewrite Hfalsy. }
    destruct (post_stores event 0%Z None fuel w Hpost Hins Hc) as (c & w' & Hrun & Hdb & _).
    rewrite Hrun. eexists. split; [exact Hdb | reflexivity].
  - intros parent Hu Hin Hpid Hnz.
    destruct (parent_query_level (World.COMMENT_DB w) parent Hu Hin) as (pc & Hq & Hlevel).
    assert (Hc : checked_parent event (World.COMMENT_DB w)
                 = Some ((ParentCommentsRow.level pc + 1)%Z, Some pc)).
    { unfold checked_parent. rewrite Hpid. apply Z.eqb_neq in Hnz. now rewrite Hnz, Hq. }
    destruct (post_stores event _ _ fuel w Hpost Hins Hc) as (c & w' & Hrun & Hdb & _).
    rewrite Hrun. eexists. split; [exact Hdb|]. split.
    + simpl. now rewrite Hlevel.
    + simpl. now rewrite Hpid.
Qed.

(** C3 (amended): when a [POST /comment] has stored its row, what the
    queues receive depends on whether they accept it.  If the Telegram
    queue accepts the [send] it has received one job for the comment,
    whether or not the author gave an address, and the email queue has
    then received one job if the request carried a non-empty [email]
    and the email queue accepts it, and none otherwise.  If the
    Telegram queue rejects the [send], neither queue has received
    anything. *)
Theorem C3_jobs_enqueued
    (event : PostCommentEvent.t) (fuel : nat) (w : World.t) (row : CommentsRow.t) :
  is_POST_comment req event ->
  World.COMMENT_DB (snd (fetch fuel w)) = World.COMMENT_DB w ++ [row] ->
  exists job,
    TelegramCommentProperties.author_name job = PostCommentEvent.author event
    /\ TelegramCommentProperties.author_email job = PostCommentEvent.email event
    /\ TelegramCommentProperties.markdown_content job = PostCommentEvent.content event
    /\ match Platform.MESSAGE_QUEUE_send_error platform with
       | Some _ =>
           World.MESSAGE_QUEUE (snd (fetch fuel w)) = World.MESSAGE_QUEUE w
           /\ World.EMAIL_QUEUE (snd (fetch fuel w)) = World.EMAIL_QUEUE w
       | None =>
           World.MESSAGE_QUEUE (snd (fetch fuel w)) = World.MESSAGE_QUEUE w ++ [job]
           /\ if truthy_opt (PostCommentEvent.email event) then
                match Platform.EMAIL_QUEUE_send_error platform with
                | Some _ =>
                    World.EMAIL_QUEUE (snd (fetch fuel w)) = World.EMAIL_QUEUE w
                | None =>
                    exists email_job,
                      World.EMAIL_QUEUE (snd (fetch fuel w))
                      = World.EMAIL_QUEUE w ++ [email_job]
                      /\ SendCommentNotificationEmailEvent.comment email_job
                         = as_EmailCommentProperties job
                end
              else World.EMAIL_QUEUE (snd (fetch fuel w)) = World.EMAIL_QUEUE w
       end.
Proof.
  intros Hpost Hstored.
  destruct (post_cases event fuel w Hpost) as (c & w' & Hrun & Hcase).
  rewrite Hrun in *. simpl in *.
  destruct Hcase as [(Hdb & _) | (level & pc & _ & _ & _ & Hnot)].
  - rewrite Hdb in Hstored. symmetry in Hstored. now apply app_one_neq in Hstored.
  - destruct Hnot as (last_insert_id & _ & Hq). cbv zeta in Hq.
    exists (comment_properties event last_insert_id (Platform.getTime platform)).
    split; [reflexivity|]. split; [reflexivity|]. split; [reflexivity|].
    destruct (Platform.MESSAGE_QUEUE_send_error platform) as [err|].
    + destruct Hq as (Hq1 & Hq2 & _). now split.
    + destruct Hq as [Hq1 Hq2]. split; [exact Hq1|].
      destruct (truthy_opt (PostCommentEvent.email event)).
      * destruct (Platform.EMAIL_QUEUE_send_error platform) as [err|].
        -- exact (proj1 Hq2).
        -- eexists. split; [exact (proj1 Hq2) | reflexivity].
      * exact (proj1 Hq2).
Qed.

(** C5 (amended): when a [POST /comment] passes the parent check, its
    INSERT succeeds and a queue rejects a [send] the handler makes, the
    exception reaches the [catch] block.  The row is stored and stays,
    the error is logged, the enqueue that was to follow is skipped, and
    the request is answered 500 [Internal server error] (with the
    wrapper's 400 when it carries no Origin header; with no answer at
    all, the handler's promise rejecting, when the allow-list loop
    meets an ill-formed pattern), never with a success. *)
Theorem C5_rejected_enqueue_answered_500
    (event : PostCommentEvent.t) (fuel : nat) (w : World.t) (err : jstr) :
  is_POST_comment req event ->
  parent_found event (World.COMMENT_DB w) ->
  Platform.insert_error platform = None ->
  (Platform.MESSAGE_QUEUE_send_error platform = Some err
   \/ (Platform.MESSAGE_QUEUE_send_error platform = None
       /\ truthy_opt (PostCommentEvent.email event) = true
       /\ Platform.EMAIL_QUEUE_send_error platform = Some err)) ->
  exists c w' level,
    fetch fuel w = (c, w')
    /\ match Request.Origin req with
       | Some origin =>
           if truthy origin then
             match is_allowed RegExp_test origin (allowedOrigins env) with
             | inr _ =>
                 exists r,
                   c = Normal r
                   /\ Response.status r = 500%Z
                   /\ Response.body r = text (lit "Internal server error")
             | inl error => c = Escapes (Error error)
             end
           else c = Normal Origin_header_not_found
       | None => c = Normal Origin_header_not_found
       end
    /\ (forall r, c = Normal r -> Response.status r <> 200%Z)
    /\ World.COMMENT_DB w' = World.COMMENT_DB w ++ [stored_row event level (World.COMMENT_DB w)]
    /\ World.console w' = World.console w ++ [error_catched err]
    /\ World.EMAIL_QUEUE w' = World.EMAIL_QUEUE w
    /\ match Platform.MESSAGE_QUEUE_send_error platform with
       | Some _ => World.MESSAGE_QUEUE w' = World.MESSAGE_QUEUE w
       | None => exists job, World.MESSAGE_QUEUE w' = World.MESSAGE_QUEUE w ++ [job]
       end.
Proof.
  intros Hpost Hfound Hins Hrej.
  destruct (parent_found_checked event _ Hfound) as (level & pc & Hc).
  destruct (post_stores event level pc fuel w Hpost Hins Hc) as (c & w' & Hrun & Hdb & Hnot).
  exists c, w', level. split; [exact Hrun|].
  destruct Hnot as (last_insert_id & _ & Hq). cbv zeta in Hq.
  assert (Hgoal : wrapped 500 (text (lit "Internal server error")) c
                  /\ World.console w' = World.console w ++ [error_catched err]
                  /\ World.EMAIL_QUEUE w' = World.EMAIL_QUEUE w
                  /\ match Platform.MESSAGE_QUEUE_send_error platform with
                     | Some _ => World.MESSAGE_QUEUE w' = World.MESSAGE_QUEUE w
                     | None =>
                         exists job, World.MESSAGE_QUEUE w' = World.MESSAGE_QUEUE w ++ [job]
                     end).
  { destruct Hrej as [Hmq | (Hmq & Ht & Heq)]; rewrite Hmq in Hq |- *.
    - destruct Hq as (Hq1 & Hq2 & Hcon & Hw). now repeat split.
    - rewrite Ht, Heq in Hq. destruct Hq as (Hq1 & Hq2 & Hcon & Hw).
      split; [exact Hw|]. split; [exact Hcon|]. split; [exact Hq2|].
      eexists. exact Hq1. }
  destruct Hgoal as (Hw & Hcon & Heq & Hmq).
  split; [exact Hw|]. split; [|now repeat split].
  intros r ->. unfold HttpSpec.wrapped in Hw.
  destruct (Request.Origin req) as [origin|].
  - destruct (truthy origin).
    + destruct (is_allowed _ _ _); [discriminate|].
      destruct Hw as (r' & Hr & Hst & _). injection Hr as <-. rewrite Hst. discriminate.
    + injection Hw as ->. discriminate.
  - injection Hw as ->. discriminate.
Qed.

End HandlerFacts.

(** *** The handler on concrete requests *)

Lemma is_POST_comment_post_from origin event :
  is_POST_comment (Examples.post_from origin event) event.
Proof. eexists. repeat split. Qed.

Lemma thread_unique_ids : unique_ids Examples.thread.
Proof.
  unfold unique_ids. simpl.
  repeat (constructor; [simpl; intuition discriminate|]). constructor.
Qed.

Lemma thread_has_no_7 r : In r Examples.thread -> CommentsRow.id r <> 7%Z.
Proof.
  simpl. intros [<-|[<-|[<-|[<-|[]]]]]; discriminate.
Qed.

Lemma C1_witness :
  exists r w',
    fetch Examples.markdownToHtml Examples.RegExp_test
      (Examples.post_from (Some Examples.blog_origin) (Examples.comment_event (Some 7%Z) Examples.eve))
      Examples.env Examples.platform 0 (Examples.with_db Examples.thread)
    = (Normal r, w')
    /\ Response.status r = 404%Z
    /\ World.COMMENT_DB w' = Examples.thread
    /\ World.MESSAGE_QUEUE w' = []
    /\ World.EMAIL_QUEUE w' = [].
Proof.
  destruct (C1_missing_parent_404_store_unchanged
              Examples.markdownToHtml Examples.RegExp_test
              (Examples.post_from (Some Examples.blog_origin)
                 (Examples.comment_event (Some 7%Z) Examples.eve))
              Examples.env Examples.platform
              (Examples.comment_event (Some 7%Z) Examples.eve) 7%Z 0
              (Examples.with_db Examples.thread)
              (is_POST_comment_post_from _ _) eq_refl ltac:(discriminate) thread_has_no_7)
    as (c & w' & Hrun & (r & -> & Hst & _) & Hdb & Hmq & Heq & _).
  exists r, w'. split; [exact Hrun|]. split; [exact Hst|]. now repeat split.
Defined.

(** The claim of C1 as stated fails on a request without an Origin
    header: the parent is missing, and the answer is 400, not 404. *)
Lemma C1_counterexample :
  is_POST_comment
    (Examples.post_from None (Examples.comment_event (Some 7%Z) Examples.eve))
    (Examples.comment_event (Some 7%Z) Examples.eve)
  /\ (forall r, In r Examples.thread -> CommentsRow.id r <> 7%Z)
  /\ exists r w',
       fetch Examples.markdownToHtml Examples.RegExp_test
         (Examples.post_from None (Examples.comment_event (Some 7%Z) Examples.eve))
         Examples.env Examples.platform 0 (Examples.with_db Examples.thread)
       = (Normal r, w')
       /\ Response.status r = 400%Z
       /\ Response.body r = text (lit "Origin header not found")
       /\ Response.status r <> 404%Z.
Proof.
  split; [apply is_POST_comment_post_from|]. split; [exact thread_has_no_7|].
  eexists _, _. split; [reflexivity|]. repeat split. discriminate.
Qed.

Lemma C2_witness :
  (exists row,
     World.COMMENT_DB
       (snd (fetch Examples.markdownToHtml Examples.RegExp_test
               (Examples.post_from (Some Examples.blog_origin)
                  (Examples.comment_event None Examples.eve))
               Examples.env Examples.platform 0 (Examples.with_db Examples.thread)))
     = Examples.thread ++ [row]
     /\ CommentsRow.level row = 0%Z)
  /\ (exists row,
        World.COMMENT_DB
          (snd (fetch Examples.markdownToHtml Examples.RegExp_test
                  (Examples.post_from (Some Examples.blog_origin)
                     (Examples.comment_event (Some 2%Z) Examples.eve))
                  Examples.env Examples.platform 0 (Examples.with_db Examples.thread)))
        = Examples.thread ++ [row]
        /\ CommentsRow.level row = 2%Z
        /\ CommentsRow.parent_id row = 2%Z).
Proof.
  split.
  - exact (proj1 (C2_stored_level Examples.markdownToHtml Examples.RegExp_test
                    (Examples.post_from (Some Examples.blog_origin)
                       (Examples.comment_event None Examples.eve))
                    Examples.env Examples.platform
                    (Examples.comment_event None Examples.eve) 0
                    (Examples.with_db Examples.thread)
                    (is_POST_comment_post_from _ _) eq_refl)
             eq_refl).
  - exact (proj2 (C2_stored_level Examples.markdownToHtml Examples.RegExp_test
                    (Examples.post_from (Some Examples.blog_origin)
                       (Examples.comment_event (Some 2%Z) Examples.eve))
                    Examples.env Examples.platform
                    (Examples.comment_event (Some 2%Z) Examples.eve) 0
                    (Examples.with_db Examples.thread)
                    (is_POST_comment_post_from _ _) eq_refl)
             (Examples.row 2 "hello" 1 1 "bob" "" "second")
             thread_unique_ids ltac:(simpl; tauto) eq_refl ltac:(discriminate)).
Defined.

Lemma C3_witness :
  exists job,
    World.MESSAGE_QUEUE
      (snd (fetch Examples.markdownToHtml Examples.RegExp_test
              (Examples.post_from (Some Examples.blog_origin)
                 (Examples.comment_event (Some 2%Z) Examples.eve))
              Examples.env Examples.platform 0 (Examples.with_db Examples.thread)))
    = [job]
    /\ TelegramCommentProperties.author_email job = Examples.eve
    /\ exists email_job,
         World.EMAIL_QUEUE
           (snd (fetch Examples.markdownToHtml Examples.RegExp_test
                   (Examples.post_from (Some Examples.blog_origin)
                      (Examples.comment_event (Some 2%Z) Examples.eve))
                   Examples.env Examples.platform 0 (Examples.with_db Examples.thread)))
         = [email_job].
Proof.
  destruct (C3_jobs_enqueued Examples.markdownToHtml Examples.RegExp_test
              (Examples.post_from (Some Examples.blog_origin)
                 (Examples.comment_event (Some 2%Z) Examples.eve))
              Examples.env Examples.platform
              (Examples.comment_event (Some 2%Z) Examples.eve) 0
              (Examples.with_db Examples.thread) Examples.eve_row
              (is_POST_comment_post_from _ _) eq_refl)
    as (job & _ & Hemail & _ & Hmq & email_job & Heq & _).
  exists job. split; [exact Hmq|]. split; [exact Hemail|].
  exists email_job. exact Heq.
Defined.

(** The claim of C3 as stated fails when a queue rejects the [send]:
    the row is stored, and with the Telegram queue rejecting neither
    queue receives a job; with the email queue rejecting, the author's
    non-empty address gets no email job. *)
Lemma C3_counterexample :
  (let w' :=
     snd (fetch Examples.markdownToHtml Examples.RegExp_test
            (Examples.post_from (Some Examples.blog_origin)
               (Examples.comment_event (Some 2%Z) Examples.eve))
            Examples.env Examples.rejecting 0 (Examples.with_db Examples.thread)) in
   World.COMMENT_DB w' = Examples.thread ++ [Examples.eve_row]
   /\ World.MESSAGE_QUEUE w' = []
   /\ World.EMAIL_QUEUE w' = [])
  /\ (let w' :=
        snd (fetch Examples.markdownToHtml Examples.RegExp_test
               (Examples.post_from (Some Examples.blog_origin)
                  (Examples.comment_event (Some 2%Z) Examples.eve))
               Examples.env MoreExamples.rejecting_email 0
               (Examples.with_db Examples.thread)) in
      World.COMMENT_DB w' = Examples.thread ++ [Examples.eve_row]
      /\ length (World.MESSAGE_QUEUE w') = 1
      /\ truthy_opt (PostCommentEvent.email (Examples.comment_event (Some 2%Z) Examples.eve))
         = true
      /\ World.EMAIL_QUEUE w' = []).
Proof. split; repeat split; reflexivity. Qed.

(** Without an address only the Telegram job is enqueued. *)
Example no_email_no_email_job :
  let w' :=
    snd (fetch Examples.markdownToHtml Examples.RegExp_test
           (Examples.post_from (Some Examples.blog_origin)
              (Examples.comment_event (Some 2%Z) None))
           Examples.env Examples.platform 0 (Examples.with_db Examples.thread)) in
  length (World.MESSAGE_QUEUE w') = 1 /\ World.EMAIL_QUEUE w' = [].
Proof. split; reflexivity. Qed.

Lemma C5_witness :
  exists r w',
    fetch Examples.markdownToHtml Examples.RegExp_test
      (Examples.post_from (Some Examples.blog_origin)
         (Examples.comment_event (Some 2%Z) Examples.eve))
      Examples.env Examples.rejecting 0 (Examples.with_db Examples.thread)
    = (Normal r, w')
    /\ Response.status r = 500%Z
    /\ Response.body r = text (lit "Internal server error")
    /\ World.console w' = [error_catched (lit "Queue send failed")]
    /\ World.MESSAGE_QUEUE w' = []
    /\ World.EMAIL_QUEUE w' = [].
Proof.
  destruct (C5_rejected_enqueue_answered_500 Examples.markdownToHtml Examples.RegExp_test
              (Examples.post_from (Some Examples.blog_origin)
                 (Examples.comment_event (Some 2%Z) Examples.eve))
              Examples.env Examples.rejecting
              (Examples.comment_event (Some 2%Z) Examples.eve) 0
              (Examples.with_db Examples.thread)
              (lit "Queue send failed")
              (is_POST_comment_post_from _ _)
              (or_intror (ex_intro _ (Examples.row 2 "hello" 1 1 "bob" "" "second")
                            (conj (or_intror (or_introl eq_refl)) eq_refl)))
              eq_refl (or_introl eq_refl))
    as (c & w' & level & Hrun & (r & -> & Hst & Hbody) & _ & _ & Hcon & Heq & Hmq).
  exists r, w'. split; [exact Hrun|]. split; [exact Hst|]. split; [exact Hbody|].
  split; [exact Hcon|]. split; [exact Hmq | exact Heq].
Defined.

(** The claim of C5 as stated fails: the row is stored, the Telegram
    queue rejects the [send], and the request is answered 500
    [Internal server error], not with a success. *)
Lemma C5_counterexample :
  exists r w',
    fetch Examples.markdownToHtml Examples.RegExp_test
      (Examples.post_from (Some Examples.blog_origin)
         (Examples.comment_event (Some 2%Z) Examples.eve))
      Examples.env Examples.rejecting 0 (Examples.with_db Examples.thread)
    = (Normal r, w')
    /\ World.COMMENT_DB w' = Examples.thread ++ [Examples.eve_row]
    /\ Response.status r = 500%Z
    /\ Response.body r = text (lit "Internal server error")
    /\ World.MESSAGE_QUEUE w' = []
    /\ World.EMAIL_QUEUE w' = [].
Proof. eexists _, _. split; [reflexivity|]. repeat split. Qed.

(** ** The id check of GET *)

Section GetFacts.

Variable markdownToHtml : jstr -> jstr.
Variable RegExp_test : jstr -> jstr -> jstr + bool.
Variable req : Request.t.
Variable env : Env.t.
Variable platform : Platform.t.

Abbreviation getReponse := (getReponse RegExp_test req env).
Abbreviation fetch_catch := (fetch_catch RegExp_test req env).
Abbreviation fetch := (fetch markdownToHtml RegExp_test req env platform).
Abbreviation query := (query RegExp_test req env platform).
Abbreviation wrapped := (wrapped RegExp_test req env).

Lemma fetch_GET params fuel w :
  is_GET_comment req params ->
  fetch fuel w
  = try_catch (get RegExp_test req env platform fuel
                 {| URL.pathname := lit "/comment"; URL.searchParams := params |})
      fetch_catch w.
Proof.
  intros (url & Hurl & Hpath & Hparams & Hmeth).
  unfold CommentWorker.fetch, try_catch, fetch_try.
  rewrite Hurl, Hpath, Hmeth. destruct url as [pathname searchParams].
  simpl in Hparams. subst searchParams. reflexivity.
Qed.

(** An answer given from the [try] block. *)
Lemma answered body init w :
  exists c w',
    try_catch (getReponse body init) fetch_catch w = (c, w')
    /\ untouched w w'
    /\ wrapped (Response.status (new_Response body init)) body c.
Proof.
  destruct (getReponse_effect RegExp_test req env body init w)
    as (c & w' & Hrun & Hsame & Hcon & Hw).
  unfold try_catch. rewrite Hrun. exists c, w'.
  split; [destruct (wrapped_cases _ _ _ _ _ _ Hw) as [[r ->]|[e ->]]; reflexivity|].
  split; [now split | exact Hw].
Qed.

(** The query under the [try]: the forest is answered, a failed read is
    caught, logged and answered 500, and a walk that has not ended is
    pending. *)
Lemma query_cases fuel base is_recursive w :
  exists c w',
    try_catch (query fuel base is_recursive) fetch_catch w = (c, w')
    /\ store_unchanged w w'
    /\ match recursiveQuery fuel (World.COMMENT_DB w) (Platform.record_error platform)
               base is_recursive with
       | Normal comments =>
           World.console w' = World.console w
           /\ wrapped 200 (JSON_stringify comments) c
       | Throw e | Escapes e =>
           World.console w' = World.console w ++ [error_catched (message e)]
           /\ wrapped 500
                (text (match e with
                       | DatabaseError _ => lit "Database error"
                       | Error _ => lit "Internal server error"
                       end)) c
       | Pending => c = Pending /\ w' = w
       end.
Proof.
  unfold try_catch, CommentWorker.query.
  destruct (recursiveQuery fuel (World.COMMENT_DB w) (Platform.record_error platform)
              base is_recursive) as [comments|e|e|].
  - destruct (getReponse_effect RegExp_test req env (JSON_stringify comments) no_init w)
      as (c & w' & Hrun & Hsame & Hcon & Hw).
    rewrite Hrun. exists c, w'.
    split; [destruct (wrapped_cases _ _ _ _ _ _ Hw) as [[r ->]|[e ->]]; reflexivity|].
    split; [exact Hsame|]. split; [exact Hcon | exact Hw].
  - destruct (fetch_catch_effect RegExp_test req env e w)
      as (c & w' & Hrun & Hsame & Hcon & Hw).
    exists c, w'. split; [exact Hrun|]. split; [exact Hsame|]. now split.
  - destruct (fetch_catch_effect RegExp_test req env e w)
      as (c & w' & Hrun & Hsame & Hcon & Hw).
    exists c, w'. split; [exact Hrun|]. split; [exact Hsame|]. now split.
  - exists Pending, w. split; [reflexivity|]. now repeat split.
Qed.

(** C9 (amended): for every [GET /comment] with
    [comment_base_type=article], whatever [comment_base_id] is, the id
    check passes and the handler goes on to the query.  With
    [comment_base_type=comment] the check fails, store, queues and
    console untouched, for every [comment_base_id] string that
    [Number()] does not convert to an integer, among them every string
    that does not look numeric: the answer is 400 [Invalid comment ID]
    when the request carries a non-empty Origin header and the
    allow-list loop ends, the wrapper's 400 when it carries none, and
    no answer, the handler's promise rejecting, when the loop meets an
    ill-formed pattern.  A string [Number()] converts to an integer, as
    it does the empty string, passes the check and is queried with that
    integer. *)
Theorem C9_id_type_check (params : list (jstr * jstr)) (fuel : nat) (w : World.t) :
  is_GET_comment req params ->
  (params_get params (lit "comment_base_type") = Some (lit "article") ->
   fetch fuel w
   = try_catch
       (query fuel (article (params_get params (lit "comment_base_id")))
          (is_recursive_param params))
       fetch_catch w)
  /\ (forall s,
        params_get params (lit "comment_base_type") = Some (lit "comment") ->
        params_get params (lit "comment_base_id") = Some s ->
        (number_isInteger (Number_of_string s) = false
         \/ looks_numeric s = false ->
         exists c w',
           fetch fuel w = (c, w')
           /\ match Request.Origin req with
              | Some origin =>
                  if truthy origin then
                    match is_allowed RegExp_test origin (allowedOrigins env) with
                    | inr _ =>
                        exists r,
                          c = Normal r
                          /\ Response.status r = 400%Z
                          /\ Response.body r = text (lit "Invalid comment ID")
                    | inl error => c = Escapes (Error error)
                    end
                  else c = Normal Origin_header_not_found
              | None => c = Normal Origin_header_not_found
              end
           /\ store_unchanged w w'
           /\ World.console w' = World.console w)
        /\ (number_isInteger (Number_of_string s) = true ->
            fetch fuel w
            = try_catch
                (query fuel (comment (number_toZ (Number_of_string s)))
                   (is_recursive_param params))
                fetch_catch w)).
Proof.
  intros Hget. rewrite (fetch_GET params fuel w Hget). split.
  - intros Htype. unfold get, try_catch. simpl. rewrite Htype.
    change (opt_eqb (Some (lit "article")) (Some (lit "article"))) with true.
    cbv iota.
    replace (Number_isInteger _) with false
      by (destruct (params_get params (lit "comment_base_id")); reflexivity).
    reflexivity.
  - intros s Htype Hid. unfold get. simpl. rewrite Htype, Hid.
    change (opt_eqb (Some (lit "comment")) (Some (lit "article"))) with false.
    change (opt_eqb (Some (lit "comment")) (Some (lit "comment"))) with true.
    cbv iota. simpl Number. simpl Number_isInteger. split.
    + intros Hno.
      assert (Hint : number_isInteger (Number_of_string s) = false).
      { destruct Hno as [H|H]; [exact H|].
        now rewrite (Number_of_string_NaN s H). }
      rewrite Hint. simpl.
      destruct (answered (text (lit "Invalid comment ID")) (status_init 400) w)
        as (c & w' & Hrun & [Hsame Hcon] & Hw).
      exists c, w'. split; [exact Hrun|]. split; [exact Hw|]. now split.
    + intros Hyes. rewrite Hyes. reflexivity.
Qed.

End GetFacts.

(** ** The tables the handler fills *)

Section StoredTables.

Variable markdownToHtml : jstr -> jstr.
Variable RegExp_test : jstr -> jstr -> jstr + bool.

Lemma next_id_above db r : In r db -> (CommentsRow.id r < next_id db)%Z.
Proof.
  induction db as [|x db IH]; simpl; [contradiction|].
  intros [->|Hin]; [lia|]. specialize (IH Hin). lia.
Qed.

Lemma next_id_positive db : (1 <= next_id db)%Z.
Proof. induction db as [|x db IH]; simpl; lia. Qed.

Lemma checked_parent_stored event db level parent_comment :
  checked_parent event db = Some (level, parent_comment) ->
  or_zero (PostCommentEvent.parent_comment_id event) = 0%Z
  \/ exists p, In p db
               /\ CommentsRow.id p = or_zero (PostCommentEvent.parent_comment_id event).
Proof.
  unfold checked_parent, parent_comment_query.
  destruct (PostCommentEvent.parent_comment_id event) as [pid|]; simpl; [|now left].
  destruct (pid =? 0)%Z eqn:Hz; [apply Z.eqb_eq in Hz; now left|].
  destruct (find _ db) as [p|] eqn:Hf; [|discriminate].
  intros _. right. apply find_some in Hf as [Hin Hid]. apply Z.eqb_eq in Hid.
  now exists p.
Qed.

(** What a request does to table, queues and console, by its kind: a
    POST whose body parses is the subject of [post_cases]; a GET that
    reaches the query leaves table and queues alone and logs what a
    failed read throws; every other request touches nothing. *)
Lemma fetch_cases req env platform fuel w :
  untouched w (snd (fetch markdownToHtml RegExp_test req env platform fuel w))
  \/ (exists event, is_POST_comment req event)
  \/ (Request.method req = lit "POST"
      /\ store_unchanged w (snd (fetch markdownToHtml RegExp_test req env platform fuel w)))
  \/ (Request.method req = lit "GET"
      /\ store_unchanged w (snd (fetch markdownToHtml RegExp_test req env platform fuel w))
      /\ exists read error,
           Platform.record_error platform read = Some error
           /\ World.console (snd (fetch markdownToHtml RegExp_test req env platform fuel w))
              = World.console w ++ [error_catched error]).
Proof.
  assert (Hanswer : forall body init,
            untouched w
              (snd (try_catch (getReponse RegExp_test req env body init)
                      (fetch_catch RegExp_test req env) w))).
  { intros body init.
    destruct (answered RegExp_test req env body init w) as (c & w' & Hrun & Hun & _).
    now rewrite Hrun. }
  assert (Hquery : forall base is_recursive,
            let w' := snd (try_catch (query RegExp_test req env platform fuel base is_recursive)
                             (fetch_catch RegExp_test req env) w) in
            untouched w w'
            \/ (store_unchanged w w'
                /\ exists read error,
                     Platform.record_error platform read = Some error
                     /\ World.console w' = World.console w ++ [error_catched error])).
  { intros base is_recursive.
    destruct (query_cases RegExp_test req env platform fuel base is_recursive w)
      as (c & w' & Hrun & Hsame & Hq).
    rewrite Hrun. simpl.
    pose proof (recursiveQuery_never_escapes fuel (World.COMMENT_DB w)
                  (Platform.record_error platform) base is_recursive) as Hne.
    destruct (recursiveQuery fuel (World.COMMENT_DB w) (Platform.record_error platform)
                base is_recursive) as [comments|e|e|]; simpl in Hne.
    - left. split; [exact Hsame | exact (proj1 Hq)].
    - destruct Hne as (error & read & -> & Hread). right. split; [exact Hsame|].
      exists read, error. split; [exact Hread | exact (proj1 Hq)].
    - contradiction.
    - destruct Hq as [_ ->]. left. now repeat split. }
  unfold fetch, fetch_try.
  destruct (Request.url req) as [url|] eqn:Hurl; [|left; apply Hanswer].
  destruct (Js.eqb (URL.pathname url) (lit "/comment")) eqn:Hpath; simpl negb; cbv iota;
    [|left; apply Hanswer].
  destruct (Js.eqb (Request.method req) (lit "OPTIONS")) eqn:Hopt.
  { left.
    exact (Hanswer (text (lit "OK"))
             {| ResponseInit.headers := Some (entries (World.corsHeaders w));
                ResponseInit.status := Some 200%Z |}). }
  destruct (Js.eqb (Request.method req) (lit "POST")) eqn:Hpost.
  - apply jstr_eqb_eq in Hpost. right.
    destruct (Request.json req) as [err|event] eqn:Hjson.
    + right. left. split; [exact Hpost|].
      unfold try_catch, post. rewrite Hjson. unfold throw.
      destruct (fetch_catch_effect RegExp_test req env (Error err) w)
        as (c & w' & Hrun & Hsame & _).
      now rewrite Hrun.
    + left. exists event, url. apply jstr_eqb_eq in Hpath. now repeat split.
  - destruct (Js.eqb (Request.method req) (lit "GET")) eqn:Hget; [|left; apply Hanswer].
    apply jstr_eqb_eq in Hget.
    assert (Hq : forall base is_recursive,
              let w' := snd (try_catch
                               (query RegExp_test req env platform fuel base is_recursive)
                               (fetch_catch RegExp_test req env) w) in
              untouched w w'
              \/ (exists event, is_POST_comment req event)
              \/ (Request.method req = lit "POST" /\ store_unchanged w w')
              \/ (Request.method req = lit "GET"
                  /\ store_unchanged w w'
                  /\ exists read error,
                       Platform.record_error platform read = Some error
                       /\ World.console w' = World.console w ++ [error_catched error])).
    { intros base is_recursive.
      destruct (Hquery base is_recursive) as [Hun | (Hsame & read & error & Hread & Hcon)];
        [now left|].
      right. right. right. split; [exact Hget|]. split; [exact Hsame|].
      now exists read, error. }
    unfold get.
    destruct (opt_eqb _ (Some (lit "article"))).
    + destruct (Number_isInteger _); [left; apply Hanswer | apply Hq].
    + destruct (opt_eqb _ (Some (lit "comment"))); [|left; apply Hanswer].
      destruct (negb _); [left; apply Hanswer | apply Hq].
Qed.

(** What one request does to the table: nothing, or one row appended
    under the next id, top-level or below a row already there. *)
Lemma fetch_store_step req env platform fuel w :
  let db := World.COMMENT_DB w in
  let db' := World.COMMENT_DB
               (snd (fetch markdownToHtml RegExp_test req env platform fuel w)) in
  db' = db
  \/ exists event level,
       db' = db ++ [stored_row markdownToHtml platform event level db]
       /\ (or_zero (PostCommentEvent.parent_comment_id event) = 0%Z /\ level = 0%Z
           \/ exists p,
                In p db
                /\ CommentsRow.id p = or_zero (PostCommentEvent.parent_comment_id event)
                /\ level = (CommentsRow.level p + 1)%Z).
Proof.
  intros db db'. subst db db'.
  destruct (fetch_cases req env platform fuel w)
    as [[(Hdb & _) _] | [[event Hpost] | [[_ (Hdb & _)] | (_ & (Hdb & _) & _)]]];
    try (now left).
  destruct (post_cases markdownToHtml RegExp_test req env platform event fuel w Hpost)
    as (c & w' & Hrun & Hcase).
  rewrite Hrun. simpl.
  destruct Hcase as [(Hdb & _) | (level & pc & _ & Hc & Hdb & _)]; [now left|].
  right. exists event, level. split; [exact Hdb|].
  revert Hc. unfold checked_parent, parent_comment_query.
  destruct (PostCommentEvent.parent_comment_id event) as [pid|]; simpl.
  - destruct (pid =? 0)%Z eqn:Hz.
    + apply Z.eqb_eq in Hz. intros E. injection E as <- _. now left.
    + destruct (find _ (World.COMMENT_DB w)) as [p|] eqn:Hf; [|discriminate].
      intros E. injection E as <- _. right.
      apply find_some in Hf as [Hin Hid]. apply Z.eqb_eq in Hid.
      exists p. now repeat split.
  - intros E. injection E as <- _. now left.
Qed.


End StoredTables.

(** *** The id check on concrete requests *)

Lemma is_GET_comment_get_from origin params :
  is_GET_comment (Examples.get_from origin params)
    (map (fun kv => (lit (fst kv), lit (snd kv))) params).
Proof. eexists. repeat split. Qed.

Lemma C9_witness :
  (exists r w',
     fetch Examples.markdownToHtml Examples.RegExp_test
       (Examples.get_from (Some Examples.blog_origin)
          [("comment_base_type", "article"); ("comment_base_id", "hello")]%string)
       Examples.env Examples.platform 5 (Examples.with_db Examples.thread)
     = (Normal r, w')
     /\ Response.status r = 200%Z
     /\ Response.body r
        = JSON_stringify [leaf (Examples.row 1 "hello" 0 0 "ann" "ann@example.org" "first")])
  /\ (exists r w',
        fetch Examples.markdownToHtml Examples.RegExp_test
          (Examples.get_from (Some Examples.blog_origin)
             [("comment_base_type", "comment"); ("comment_base_id", "abc")]%string)
          Examples.env Examples.platform 5 (Examples.with_db Examples.thread)
        = (Normal r, w')
        /\ Response.status r = 400%Z).
Proof.
  split.
  - rewrite (proj1 (C9_id_type_check Examples.markdownToHtml Examples.RegExp_test
                      (Examples.get_from (Some Examples.blog_origin)
                         [("comment_base_type", "article");
                          ("comment_base_id", "hello")]%string)
                      Examples.env Examples.platform _ 5
                      (Examples.with_db Examples.thread)
                      (is_GET_comment_get_from _ _))
               eq_refl).
    eexists _, _. split; [reflexivity|]. split; reflexivity.
  - destruct (proj1 (proj2 (C9_id_type_check Examples.markdownToHtml Examples.RegExp_test
                              (Examples.get_from (Some Examples.blog_origin)
                                 [("comment_base_type", "comment");
                                  ("comment_base_id", "abc")]%string)
                              Examples.env Examples.platform _ 5
                              (Examples.with_db Examples.thread)
                              (is_GET_comment_get_from _ _))
                       (lit "abc") eq_refl eq_refl)
                (or_introl eq_refl))
      as (c & w' & Hrun & (r & -> & Hst & _) & _).
    exists r, w'. split; [exact Hrun | exact Hst].
Defined.

(** The claim of C9 as stated fails on the empty [comment_base_id]: it
    denotes no integer, [Number('')] is 0, and the handler answers 200
    with the rows whose [parent_id] is 0. *)
Lemma C9_counterexample :
  denotes_integer (lit "") = false
  /\ Number_of_string (lit "") = Finite false 0 0
  /\ exists r w',
       fetch Examples.markdownToHtml Examples.RegExp_test
         (Examples.get_from (Some Examples.blog_origin)
            [("comment_base_type", "comment"); ("comment_base_id", "")]%string)
         Examples.env Examples.platform 5 (Examples.with_db Examples.thread)
       = (Normal r, w')
       /\ Response.status r = 200%Z
       /\ Response.body r
          = JSON_stringify
              [ leaf (Examples.row 1 "hello" 0 0 "ann" "ann@example.org" "first");
                leaf (Examples.row 3 "world" 0 0 "cat" "cat@example.org" "elsewhere") ].
Proof.
  split; [reflexivity|]. split; [reflexivity|].
  eexists _, _. split; [reflexivity|]. split; reflexivity.
Qed.

(** Other strings that denote no decimal integer and pass the check. *)
Example Number_accepts :
  map (fun s => (number_isInteger (Number_of_string (lit s)),
                 number_toZ (Number_of_string (lit s))))
    [" "; "1e3"; "0x10"; " 12 "; "0.99999999999999999999"]%string
  = [(true, 0); (true, 1000); (true, 16); (true, 12); (true, 1)]%Z.
Proof. reflexivity. Qed.

Example Number_rejects :
  map (fun s => number_isInteger (Number_of_string (lit s)))
    ["abc"; "1.5"; "12abc"; "1 2"; "Infinity"; "1e400"; "--1"; "0x"]%string
  = [false; false; false; false; false; false; false; false].
Proof. reflexivity. Qed.

(** ** The email worker *)

Section EmailWorkerFacts.

Variable brevo : Brevo.t.
Variable getDateString : Z -> jstr.

Abbreviation registerRecipientEmail := (registerRecipientEmail brevo).
Abbreviation postSendEmailRequest := (postSendEmailRequest brevo).
Abbreviation sendEmail := (sendEmail brevo getDateString).
Abbreviation handle_message := (handle_message brevo getDateString).
Abbreviation posted_email := (posted_email getDateString).

Lemma registerRecipientEmail_calls email api_key w :
  settled (fst (registerRecipientEmail email api_key w))
  /\ Worker.calls (snd (registerRecipientEmail email api_key w))
     = Worker.calls w ++ [POST_contacts email api_key].
Proof.
  unfold CommentWorker.registerRecipientEmail, bind, record_call, throw, ret,
    worker_console_push.
  destruct (Brevo.contacts brevo (Worker.calls w) email) as [err|ok data]; simpl.
  - now split.
  - destruct (negb _); simpl; now split.
Qed.

Lemma postSendEmailRequest_calls data api_key w :
  settled (fst (postSendEmailRequest data api_key w))
  /\ Worker.calls (snd (postSendEmailRequest data api_key w))
     = Worker.calls w ++ [POST_smtp_email data api_key].
Proof.
  unfold CommentWorker.postSendEmailRequest, bind, record_call, throw, ret,
    worker_console_push.
  destruct (Brevo.smtp_email brevo (Worker.calls w) data) as [err|ok data']; simpl.
  - now split.
  - destruct (negb ok || _); simpl; now split.
Qed.

Lemma sends_app xs ys : sends (xs ++ ys) = sends xs ++ sends ys.
Proof.
  induction xs as [|[e k|d k] xs IH]; simpl; [reflexivity | exact IH | now rewrite IH].
Qed.

Lemma opt_eqb_refl x : opt_eqb x x = true.
Proof. destruct x; simpl; [apply jstr_eqb_refl | reflexivity]. Qed.

(** [sendEmail] on a message whose two addresses are equal: one request,
    the "you posted a comment" one. *)
Lemma sendEmail_same_address email_event reply api_key w :
  SendCommentNotificationEmailEvent.reply_to_comment email_event = Some reply ->
  EmailCommentProperties.author_email (SendCommentNotificationEmailEvent.comment email_event)
  = EmailCommentProperties.author_email reply ->
  settled (fst (sendEmail email_event api_key w))
  /\ Worker.calls (snd (sendEmail email_event api_key w))
     = Worker.calls w ++ [POST_smtp_email (posted_email email_event) api_key].
Proof.
  intros Hreply Hsame. unfold CommentWorker.sendEmail. rewrite Hreply.
  replace (opt_eqb _ _) with true by (rewrite Hsame; symmetry; apply opt_eqb_refl).
  simpl negb. cbv iota. fold (posted_email email_event). unfold bind, ret.
  destruct (postSendEmailRequest_calls (posted_email email_event) api_key w) as [Hs Hc].
  destruct (postSendEmailRequest (posted_email email_event) api_key w) as [[b|e|e_|] w'];
    simpl in *; try contradiction; now split.
Qed.

Lemma register_answered email api_key w :
  WorkerSpec.answered (Brevo.contacts brevo (Worker.calls w) email) = true ->
  exists result w1,
    registerRecipientEmail email api_key w = (Normal result, w1)
    /\ Worker.calls w1 = Worker.calls w ++ [POST_contacts email api_key]
    /\ exists new, Worker.console w1 = Worker.console w ++ new.
Proof.
  intros Ha. unfold CommentWorker.registerRecipientEmail.
  destruct (Brevo.contacts brevo (Worker.calls w) email) as [err|ok data]; [discriminate|].
  unfold bind, record_call, ret, worker_console_push.
  destruct (negb (negb ok || _)); simpl; eexists _, _.
  - split; [reflexivity|]. split; [reflexivity|]. now eexists.
  - split; [reflexivity|]. split; [reflexivity|]. exists []. now rewrite app_nil_r.
Qed.

Lemma post_accepted data api_key w :
  WorkerSpec.accepted (Brevo.smtp_email brevo (Worker.calls w) data) = true ->
  exists w1,
    postSendEmailRequest data api_key w = (Normal true, w1)
    /\ Worker.calls w1 = Worker.calls w ++ [POST_smtp_email data api_key].
Proof.
  intros Ha. unfold CommentWorker.postSendEmailRequest.
  destruct (Brevo.smtp_email brevo (Worker.calls w) data) as [err|ok data']; [discriminate|].
  simpl in Ha. apply andb_true_iff in Ha as [-> Hid]. rewrite Hid.
  unfold bind, record_call, ret, worker_console_push. simpl.
  eexists. split; reflexivity.
Qed.

Lemma post_refused data api_key w :
  WorkerSpec.accepted (Brevo.smtp_email brevo (Worker.calls w) data) = false ->
  exists c w1,
    postSendEmailRequest data api_key w = (c, w1)
    /\ Worker.calls w1 = Worker.calls w ++ [POST_smtp_email data api_key]
    /\ (c = Normal false \/ exists e, c = Throw e).
Proof.
  intros Ha. unfold CommentWorker.postSendEmailRequest.
  destruct (Brevo.smtp_email brevo (Worker.calls w) data) as [err|ok data'].
  - unfold bind, record_call, throw. simpl. eexists _, _.
    split; [reflexivity|]. split; [reflexivity|]. right. now eexists.
  - simpl in Ha.
    replace (negb ok || negb (truthy_opt (SmtpData.messageId data'))) with true
      by (destruct ok, (truthy_opt (SmtpData.messageId data')); simpl in *; congruence).
    unfold bind, record_call, ret, worker_console_push. simpl. eexists _, _.
    split; [reflexivity|]. split; [reflexivity|]. now left.
Qed.

Lemma register_rejected email api_key w :
  WorkerSpec.answered (Brevo.contacts brevo (Worker.calls w) email) = false ->
  exists e w1,
    registerRecipientEmail email api_key w = (Throw e, w1)
    /\ Worker.calls w1 = Worker.calls w ++ [POST_contacts email api_key].
Proof.
  intros Ha. unfold CommentWorker.registerRecipientEmail.
  destruct (Brevo.contacts brevo (Worker.calls w) email) as [err|ok data]; [|discriminate].
  unfold bind, record_call, throw. simpl. eexists _, _. split; reflexivity.
Qed.

(** [sendEmail] on a message whose two addresses are equal is its one
    send request, and returns what that request returns. *)
Lemma sendEmail_same_result email_event reply api_key w :
  SendCommentNotificationEmailEvent.reply_to_comment email_event = Some reply ->
  EmailCommentProperties.author_email (SendCommentNotificationEmailEvent.comment email_event)
  = EmailCommentProperties.author_email reply ->
  exists c w',
    sendEmail email_event api_key w = (c, w')
    /\ Worker.calls w'
       = Worker.calls w ++ [POST_smtp_email (posted_email email_event) api_key]
    /\ (WorkerSpec.accepted
          (Brevo.smtp_email brevo (Worker.calls w) (posted_email email_event)) = true ->
        c = Normal true)
    /\ (WorkerSpec.accepted
          (Brevo.smtp_email brevo (Worker.calls w) (posted_email email_event)) = false ->
        c = Normal false \/ exists e, c = Throw e).
Proof.
  intros Hreply Hsame. unfold CommentWorker.sendEmail. rewrite Hreply.
  replace (opt_eqb _ _) with true by (rewrite Hsame; symmetry; apply opt_eqb_refl).
  simpl negb. cbv iota. fold (posted_email email_event). unfold bind at 1.
  destruct (WorkerSpec.accepted
              (Brevo.smtp_email brevo (Worker.calls w) (posted_email email_event))) eqn:Hacc.
  - destruct (post_accepted (posted_email email_event) api_key w Hacc) as (w1 & Hrun & Hc).
    rewrite Hrun. eexists _, _. split; [reflexivity|]. split; [exact Hc|].
    split; [reflexivity | discriminate].
  - destruct (post_refused (posted_email email_event) api_key w Hacc)
      as (c & w1 & Hrun & Hc & [-> | [e ->]]);
      rewrite Hrun; eexists _, _; (split; [reflexivity|]); (split; [exact Hc|]);
      (split; [discriminate|]); intros _; [now left | right; now eexists].
Qed.

(** C7 (amended): for every email-queue message in which the address
    of the new comment's author equals that of the parent comment's
    author,
    [sendEmail] makes exactly one send request, the "you posted a
    comment" one (template 2) to the author, never two.  The worker
    reaches [sendEmail] for such a message exactly when the address is
    non-empty and its two registration calls, both of that address, are
    answered: the calls are then the two registrations and that one
    send, and the message is acknowledged when the send is accepted and
    retried when it is not.  With no address nothing is called and the
    message is acknowledged; when a registration call is rejected it is
    the last call, no email is sent and the message is retried. *)
Theorem C7_same_address_one_email
    (email_event : SendCommentNotificationEmailEvent.t)
    (reply : EmailCommentProperties.t) (api_key : jstr) (w : Worker.t) :
  SendCommentNotificationEmailEvent.reply_to_comment email_event = Some reply ->
  EmailCommentProperties.author_email (SendCommentNotificationEmailEvent.comment email_event)
  = EmailCommentProperties.author_email reply ->
  sends (Worker.calls (snd (sendEmail email_event api_key w)))
  = sends (Worker.calls w) ++ [posted_email email_event]
  /\ EmailData.templateId (posted_email email_event) = 2%Z
  /\ EmailData.to_email (posted_email email_event)
     = EmailCommentProperties.author_email
         (SendCommentNotificationEmailEvent.comment email_event)
  /\ exists d w',
       handle_message api_key email_event w = (Normal d, w')
       /\ match EmailCommentProperties.author_email
                  (SendCommentNotificationEmailEvent.comment email_event) with
          | Some a =>
              if truthy a then
                if WorkerSpec.answered (Brevo.contacts brevo (Worker.calls w) a) then
                  if WorkerSpec.answered
                       (Brevo.contacts brevo (Worker.calls w ++ [POST_contacts a api_key]) a)
                  then
                    Worker.calls w'
                    = Worker.calls w
                      ++ [ POST_contacts a api_key;
                           POST_contacts a api_key;
                           POST_smtp_email (posted_email email_event) api_key ]
                    /\ d = (if WorkerSpec.accepted
                                 (Brevo.smtp_email brevo
                                    (Worker.calls w
                                     ++ [POST_contacts a api_key; POST_contacts a api_key])
                                    (posted_email email_event))
                            then ack else retry)
                  else
                    Worker.calls w'
                    = Worker.calls w ++ [POST_contacts a api_key; POST_contacts a api_key]
                    /\ d = retry
                else
                  Worker.calls w' = Worker.calls w ++ [POST_contacts a api_key]
                  /\ d = retry
              else Worker.calls w' = Worker.calls w /\ d = ack
          | None => Worker.calls w' = Worker.calls w /\ d = ack
          end.
Proof.
  intros Hreply Hsame.
  split; [|split; [reflexivity | split; [reflexivity|]]].
  - rewrite (proj2 (sendEmail_same_address email_event reply api_key w Hreply Hsame)).
    now rewrite sends_app.
  - unfold CommentWorker.handle_message, try_catch.
    rewrite Hreply, <- Hsame.
    destruct (EmailCommentProperties.author_email
                (SendCommentNotificationEmailEvent.comment email_event))
      as [a|] eqn:Ha;
      [|eexists _, _; split; [reflexivity | split; reflexivity]].
    destruct (truthy a) eqn:Ht; cbn [negb]; cbv beta iota;
      [|eexists _, _; split; [reflexivity | split; reflexivity]].
    unfold bind at 1.
    destruct (WorkerSpec.answered (Brevo.contacts brevo (Worker.calls w) a)) eqn:H1.
    + destruct (register_answered a api_key w H1) as (b1 & w1 & Hrun1 & Hc1 & _).
      rewrite Hrun1. unfold bind at 1.
      destruct (WorkerSpec.answered
                  (Brevo.contacts brevo (Worker.calls w ++ [POST_contacts a api_key]) a))
        eqn:H2; rewrite <- Hc1 in H2.
      * destruct (register_answered a api_key w1 H2) as (b2 & w2 & Hrun2 & Hc2 & _).
        rewrite Hrun2. rewrite Hc1, <- app_assoc in Hc2. simpl in Hc2.
        destruct (sendEmail_same_result email_event reply api_key w2 Hreply
                    ltac:(now rewrite Ha)) as (c & w3 & Hrun3 & Hc3 & Hok & Hko).
        rewrite Hc2 in Hok, Hko.
        destruct (WorkerSpec.accepted _).
        -- rewrite (Hok eq_refl) in Hrun3. unfold bind, ret. rewrite Hrun3.
           eexists _, _. split; [reflexivity|]. split; [|reflexivity].
           rewrite Hc3, Hc2, <- app_assoc. reflexivity.
        -- destruct (Hko eq_refl) as [-> | [e ->]];
             unfold bind, ret, worker_console_push; rewrite Hrun3;
             eexists _, _; (split; [reflexivity|]); (split; [|reflexivity]);
             simpl; rewrite Hc3, Hc2, <- app_assoc; reflexivity.
      * destruct (register_rejected a api_key w1 H2) as (e & w2 & Hrun2 & Hc2).
        rewrite Hrun2. unfold bind, ret, worker_console_push.
        eexists _, _. split; [reflexivity|]. split; [|reflexivity].
        simpl. rewrite Hc2, Hc1, <- app_assoc. reflexivity.
    + destruct (register_rejected a api_key w H1) as (e & w1 & Hrun1 & Hc1).
      rewrite Hrun1. unfold bind, ret, worker_console_push.
      eexists _, _. split; [reflexivity|]. split; [|reflexivity]. exact Hc1.
Qed.

Lemma registerRecipientEmail_responds email api_key w ok data :
  Brevo.contacts brevo (Worker.calls w) email = responds ok data ->
  exists result w1,
    registerRecipientEmail email api_key w = (Normal result, w1)
    /\ Worker.calls w1 = Worker.calls w ++ [POST_contacts email api_key].
Proof.
  intros Hc. unfold CommentWorker.registerRecipientEmail. rewrite Hc.
  unfold bind, record_call, ret, worker_console_push.
  destruct (negb (negb ok || _)); simpl; eexists _, _; split; reflexivity.
Qed.

Lemma sendEmail_no_reply email_event api_key w :
  SendCommentNotificationEmailEvent.reply_to_comment email_event = None ->
  settled (fst (sendEmail email_event api_key w))
  /\ Worker.calls (snd (sendEmail email_event api_key w))
     = Worker.calls w ++ [POST_smtp_email (posted_email email_event) api_key].
Proof.
  intros Hreply. unfold CommentWorker.sendEmail. rewrite Hreply.
  fold (posted_email email_event). unfold bind, ret.
  destruct (postSendEmailRequest_calls (posted_email email_event) api_key w) as [Hs Hc].
  destruct (postSendEmailRequest (posted_email email_event) api_key w) as [[b|e|e_|] w'];
    simpl in *; try contradiction; now split.
Qed.

(** A registration that is answered, whatever the answer, does not stop
    the message: the worker goes on to send (line 811 drops the result
    of [registerRecipientEmail]). *)
Lemma registration_result_ignored event author_email api_key w ok data :
  EmailCommentProperties.author_email (SendCommentNotificationEmailEvent.comment event)
  = Some author_email ->
  truthy author_email = true ->
  SendCommentNotificationEmailEvent.reply_to_comment event = None ->
  Brevo.contacts brevo (Worker.calls w) author_email = responds ok data ->
  Worker.calls (snd (handle_message api_key event w))
  = Worker.calls w ++ [ POST_contacts author_email api_key;
                        POST_smtp_email (posted_email event) api_key ].
Proof.
  intros Ha Ht Hr Hc. unfold CommentWorker.handle_message, try_catch.
  rewrite Ha, Hr, Ht. cbn [negb]. cbv beta iota. unfold bind, ret.
  destruct (registerRecipientEmail_responds author_email api_key w ok data Hc)
    as (result & w1 & Hrun & Hc1).
  rewrite Hrun.
  destruct (sendEmail_no_reply event api_key w1 Hr) as [Hs Hc2].
  destruct (sendEmail event api_key w1) as [[b|e|e_|] w2];
    simpl in Hs, Hc2; try contradiction; simpl;
    rewrite Hc2, Hc1, <- app_assoc; reflexivity.
Qed.

(** [sendEmail] makes send requests only. *)
Lemma sendEmail_calls email_event api_key w :
  settled (fst (sendEmail email_event api_key w))
  /\ exists sent,
       Worker.calls (snd (sendEmail email_event api_key w))
       = Worker.calls w ++ map (fun data => POST_smtp_email data api_key) sent.
Proof.
  unfold CommentWorker.sendEmail. fold (posted_email email_event). unfold bind, ret.
  destruct (postSendEmailRequest_calls (posted_email email_event) api_key w) as [Hs Hc].
  destruct (postSendEmailRequest (posted_email email_event) api_key w) as [[b|e|e_|] w1];
    simpl in Hs, Hc; try contradiction.
  - destruct (SendCommentNotificationEmailEvent.reply_to_comment email_event) as [reply|].
    + destruct (negb _).
      * destruct b.
        -- match goal with
           | |- context [postSendEmailRequest ?d api_key w1] =>
               destruct (postSendEmailRequest_calls d api_key w1) as [Hs2 Hc2];
               destruct (postSendEmailRequest d api_key w1) as [[b2|e2|e2_|] w2];
               simpl in Hs2, Hc2; try contradiction;
               (split; [exact I|]);
               exists [posted_email email_event; d];
               simpl; rewrite Hc2, Hc, <- app_assoc; reflexivity
           end.
        -- split; [exact I|]. exists [posted_email email_event]. exact Hc.
      * split; [exact I|]. exists [posted_email email_event]. exact Hc.
    + split; [exact I|]. exists [posted_email email_event]. exact Hc.
  - split; [exact I|]. exists [posted_email email_event]. exact Hc.
Qed.

(** The order of the worker's requests for one message: the author's
    address is registered first, then the parent author's when the
    message has a [reply_to_comment], and only then are emails sent. *)
Lemma registration_precedes_sending event api_key w :
  exists new,
    Worker.calls (snd (handle_message api_key event w)) = Worker.calls w ++ new
    /\ (sends new = []
        \/ exists author_email sent,
             EmailCommentProperties.author_email
               (SendCommentNotificationEmailEvent.comment event) = Some author_email
             /\ new
                = POST_contacts author_email api_key
                  :: match SendCommentNotificationEmailEvent.reply_to_comment event with
                     | Some reply =>
                         [POST_contacts
                            (or_empty (EmailCommentProperties.author_email reply)) api_key]
                     | None => []
                     end
                  ++ map (fun data => POST_smtp_email data api_key) sent).
Proof.
  unfold CommentWorker.handle_message, try_catch.
  destruct (EmailCommentProperties.author_email
              (SendCommentNotificationEmailEvent.comment event)) as [a|] eqn:Ha;
    [|exists []; simpl; rewrite app_nil_r; split; [reflexivity | now left]].
  destruct (truthy a) eqn:Ht; cbn [negb]; cbv beta iota;
    [|exists []; simpl; rewrite app_nil_r; split; [reflexivity | now left]].
  unfold bind, ret.
  destruct (registerRecipientEmail_calls a api_key w) as [Hs1 Hc1].
  destruct (registerRecipientEmail a api_key w) as [[b1|e1|e1_|] w1];
    simpl in Hs1, Hc1; try contradiction;
    [|exists [POST_contacts a api_key]; simpl; split; [exact Hc1 | now left]].
  destruct (SendCommentNotificationEmailEvent.reply_to_comment event) as [reply|] eqn:Hr.
  - destruct (EmailCommentProperties.author_email reply) as [p|] eqn:Hp;
      [|exists [POST_contacts a api_key]; simpl; split; [exact Hc1 | now left]].
    destruct (truthy p) eqn:Htp; cbn [negb]; cbv beta iota;
      [|exists [POST_contacts a api_key]; simpl; split; [exact Hc1 | now left]].
    destruct (registerRecipientEmail_calls p api_key w1) as [Hs2 Hc2].
    destruct (registerRecipientEmail p api_key w1) as [[b2|e2|e2_|] w2];
      simpl in Hs2, Hc2; try contradiction;
      [|exists [POST_contacts a api_key; POST_contacts p api_key]; simpl;
        split; [rewrite Hc2, Hc1, <- app_assoc; reflexivity | now left]].
    destruct (sendEmail_calls event api_key w2) as [Hs3 (sent & Hc3)].
    assert (Hp' : or_empty (Some p) = p) by (simpl; now rewrite Htp).
    destruct (sendEmail event api_key w2) as [[b3|e3|e3_|] w3];
      simpl in Hs3, Hc3; try contradiction;
      (exists (POST_contacts a api_key :: [POST_contacts p api_key]
               ++ map (fun data => POST_smtp_email data api_key) sent);
       split; [simpl; rewrite Hc3, Hc2, Hc1, <- !app_assoc; reflexivity|];
       right; exists a, sent; split; [reflexivity|]; now rewrite Hp').
  - destruct (sendEmail_calls event api_key w1) as [Hs3 (sent & Hc3)].
    destruct (sendEmail event api_key w1) as [[b3|e3|e3_|] w3];
      simpl in Hs3, Hc3; try contradiction;
      (exists (POST_contacts a api_key :: []
               ++ map (fun data => POST_smtp_email data api_key) sent);
       split; [simpl; rewrite Hc3, Hc1, <- !app_assoc; reflexivity|];
       right; exists a, sent; split; reflexivity).
Qed.

End EmailWorkerFacts.

Lemma C7_witness :
  sends (Worker.calls
           (snd (sendEmail Examples.refusing_registration Examples.getDateString
                   Examples.self_reply Examples.api_key Examples.idle)))
  = [posted_email Examples.getDateString Examples.self_reply]
  /\ exists w',
       handle_message Examples.refusing_registration Examples.getDateString
         Examples.api_key Examples.self_reply Examples.idle
       = (Normal ack, w')
       /\ Worker.calls w'
          = [ POST_contacts (lit "eve@example.org") Examples.api_key;
              POST_contacts (lit "eve@example.org") Examples.api_key;
              POST_smtp_email (posted_email Examples.getDateString Examples.self_reply)
                Examples.api_key ].
Proof.
  destruct (C7_same_address_one_email Examples.refusing_registration
              Examples.getDateString Examples.self_reply Examples.eve_earlier
              Examples.api_key Examples.idle eq_refl eq_refl)
    as (Hsends & _ & _ & d & w' & Hrun & Hcalls & Hd).
  split; [exact Hsends|].
  exists w'. split; [now rewrite Hrun, Hd | exact Hcalls].
Defined.

(** The claim of C7 as stated fails when the provider cannot be reached:
    the two addresses of the message are equal, the registration call
    is rejected, and the worker sends no email at all and retries the
    message. *)
Lemma C7_counterexample :
  SendCommentNotificationEmailEvent.reply_to_comment Examples.self_reply
  = Some Examples.eve_earlier
  /\ EmailCommentProperties.author_email
       (SendCommentNotificationEmailEvent.comment Examples.self_reply)
     = EmailCommentProperties.author_email Examples.eve_earlier
  /\ handle_message MoreExamples.unreachable Examples.getDateString
       Examples.api_key Examples.self_reply Examples.idle
     = (Normal retry,
        {| Worker.calls := [POST_contacts (lit "eve@example.org") Examples.api_key];
           Worker.console := [worker_error_catched (lit "fetch failed")] |})
  /\ sends (Worker.calls
              (snd (handle_message MoreExamples.unreachable Examples.getDateString
                      Examples.api_key Examples.self_reply Examples.idle)))
     = [].
Proof. repeat split. Qed.

(** C6 fails on the code: the provider refuses the registration with a
    400 that is not the duplicate answer, and the worker still sends the
    email and acknowledges the message.  The same holds for an answer of
    200 without an id, which [registerRecipientEmail] reports as a
    failure. *)
Theorem C6_registration_failure_still_sends :
  handle_message Examples.refusing_registration Examples.getDateString
    Examples.api_key Examples.first_comment Examples.idle
  = (Normal ack,
     {| Worker.calls :=
          [ POST_contacts (lit "eve@example.org") Examples.api_key;
            POST_smtp_email (posted_email Examples.getDateString Examples.first_comment)
              Examples.api_key ];
        Worker.console := [log_email_sent (lit "<202311141200.1@smtp-relay>")] |})
  /\ handle_message Examples.registration_without_id Examples.getDateString
       Examples.api_key Examples.first_comment Examples.idle
     = (Normal ack,
        {| Worker.calls :=
             [ POST_contacts (lit "eve@example.org") Examples.api_key;
               POST_smtp_email (posted_email Examples.getDateString Examples.first_comment)
                 Examples.api_key ];
           Worker.console := [ warn_register_failed (lit "eve@example.org");
                               log_email_sent (lit "<202311141200.1@smtp-relay>") ] |}).
Proof. split; reflexivity. Qed.

(** ** The Telegram notifier *)

Lemma queue_posted chat_id telegram messages posted decisions :
  exists new,
    fst (fst (TelegramNotifier.queue chat_id telegram messages posted decisions))
    = posted ++ new
    /\ Forall (fun request =>
                 exists msg,
                   In msg messages
                   /\ TelegramNotifier.SendMessage.text request = TelegramNotifier.text msg)
         new.
Proof.
  revert posted decisions.
  induction messages as [|msg rest IH]; intros posted decisions; simpl.
  - exists []. rewrite app_nil_r. split; [reflexivity | constructor].
  - destruct (telegram posted _) as [ok|].
    + match goal with
      | |- context [TelegramNotifier.queue _ _ rest ?p ?d] =>
          destruct (IH p d) as (new & Hnew & Hall)
      end.
      eexists (_ :: new). split.
      * rewrite Hnew, <- app_assoc. reflexivity.
      * constructor.
        -- exists msg. split; [now left | reflexivity].
        -- apply Forall_forall. intros request Hr.
           destruct (proj1 (Forall_forall _ _) Hall request Hr) as (m & Hm & Ht).
           exists m. split; [now right | exact Ht].
    + eexists [_]. split; [reflexivity|]. constructor; [|constructor].
      exists msg. split; [now left | reflexivity].
Qed.

(** The requests of a batch are those of its first messages, in order:
    of all of them when the handler runs to its end, and of those up to
    the one whose call is rejected when it does not. *)
Lemma telegram_queue_prefix chat_id telegram messages posted decisions :
  exists n ds,
    n <= length messages
    /\ fst (fst (TelegramNotifier.queue chat_id telegram messages posted decisions))
       = posted ++ map (WorkerSpec.request chat_id) (firstn n messages)
    /\ snd (fst (TelegramNotifier.queue chat_id telegram messages posted decisions))
       = decisions ++ ds
    /\ (snd (TelegramNotifier.queue chat_id telegram messages posted decisions) = true ->
        n = length messages /\ length ds = n)
    /\ (snd (TelegramNotifier.queue chat_id telegram messages posted decisions) = false ->
        S (length ds) = n)
    /\ ((forall before r, telegram before r <> None) ->
        snd (TelegramNotifier.queue chat_id telegram messages posted decisions) = true).
Proof.
  revert posted decisions.
  induction messages as [|msg rest IH]; intros posted decisions.
  - exists 0, []. simpl. rewrite !app_nil_r.
    repeat split; try reflexivity; try discriminate.
  - cbn [TelegramNotifier.queue]. fold (WorkerSpec.request chat_id msg).
    destruct (telegram posted (WorkerSpec.request chat_id msg)) as [ok|] eqn:E.
    + destruct (IH (posted ++ [WorkerSpec.request chat_id msg])
                  (decisions ++ [if negb ok then TelegramNotifier.retry
                                 else TelegramNotifier.ack]))
        as (n & ds & Hn & Hposted & Hds & Hfin & Hstop & Hall).
      exists (S n), ((if negb ok then TelegramNotifier.retry else TelegramNotifier.ack) :: ds).
      split; [simpl; lia|].
      split; [rewrite Hposted, <- app_assoc; reflexivity|].
      split; [rewrite Hds, <- app_assoc; reflexivity|].
      split; [intros H; destruct (Hfin H) as [-> Hl]; simpl; now rewrite Hl|].
      split; [intros H; simpl; now rewrite (Hstop H) | exact Hall].
    + exists 1, []. simpl. rewrite app_nil_r.
      split; [lia|]. split; [reflexivity|]. split; [reflexivity|].
      split; [discriminate|]. split; [reflexivity|].
      intros Hall. now destruct (Hall posted (WorkerSpec.request chat_id msg)).
Qed.

(** C8: for every message of the queue, whatever the length of its
    markdown, the text of the request to Telegram has at most 4096
    UTF-16 code units.  It is the first 4096 units of a text built from
    the greeting, the author's name, the author's address in parentheses
    when the message has a non-empty one and nothing when it has none,
    and the markdown.  This text, under the configured chat, is what
    the handler posts: for a batch of one message exactly that request,
    and for any batch the requests of its messages in batch order, from
    the first one on, of all of them when every call is answered, and
    every one of them with a text of at most 4096 units. *)
Theorem C8_telegram_text_at_most_4096 (msg : TelegramNotifier.Message.t) :
  length (TelegramNotifier.text msg) <= 4096
  /\ TelegramNotifier.text msg = firstn 4096 (TelegramNotifier.template msg)
  /\ TelegramNotifier.template msg
     = TelegramNotifier.text_before_author
       ++ TelegramNotifier.Message.author_name msg ++ lit " "
       ++ TelegramNotifier.email_part (TelegramNotifier.Message.author_email msg)
       ++ TelegramNotifier.text_before_content
       ++ TelegramNotifier.Message.markdown_content msg
  /\ (forall e, TelegramNotifier.Message.author_email msg = Some e -> e <> [] ->
      TelegramNotifier.email_part (TelegramNotifier.Message.author_email msg)
      = lit "(" ++ e ++ lit ") ")
  /\ (TelegramNotifier.Message.author_email msg = None
      \/ TelegramNotifier.Message.author_email msg = Some [] ->
      TelegramNotifier.email_part (TelegramNotifier.Message.author_email msg) = [])
  /\ (length (TelegramNotifier.template msg) <= 4096 ->
      TelegramNotifier.text msg = TelegramNotifier.template msg)
  /\ (forall chat_id telegram,
        fst (fst (TelegramNotifier.queue chat_id telegram [msg] [] []))
        = [ {| TelegramNotifier.SendMessage.chat_id := chat_id;
               TelegramNotifier.SendMessage.text := TelegramNotifier.text msg |} ])
  /\ (forall chat_id telegram messages,
        Forall (fun request =>
                  length (TelegramNotifier.SendMessage.text request) <= 4096)
          (fst (fst (TelegramNotifier.queue chat_id telegram messages [] [])))
        /\ exists n,
             n <= length messages
             /\ (messages <> [] -> 1 <= n)
             /\ ((forall before r, telegram before r <> None) -> n = length messages)
             /\ fst (fst (TelegramNotifier.queue chat_id telegram messages [] []))
                = map (fun m =>
                         {| TelegramNotifier.SendMessage.chat_id := chat_id;
                            TelegramNotifier.SendMessage.text := TelegramNotifier.text m |})
                    (firstn n messages)).
Proof.
  assert (Htext : forall m, TelegramNotifier.text m
                            = firstn 4096 (TelegramNotifier.template m)).
  { intros m. unfold TelegramNotifier.text, TelegramNotifier.TELEGRAM_MESSAGE_LENGTH_LIMIT.
    apply substring_0. }
  assert (Hlen : forall m, length (TelegramNotifier.text m) <= 4096).
  { intros m. rewrite Htext. apply firstn_le_length. }
  split; [apply Hlen|]. split; [apply Htext|]. split; [reflexivity|].
  split; [|split; [|split; [|split]]].
  - intros e He Hne. rewrite He. simpl. destruct e; [now destruct Hne | reflexivity].
  - intros [H|H]; rewrite H; reflexivity.
  - intros Hshort. rewrite Htext. now apply firstn_all2.
  - intros chat_id telegram. cbn [TelegramNotifier.queue].
    destruct (telegram [] _); reflexivity.
  - intros chat_id telegram messages. split.
    + destruct (queue_posted chat_id telegram messages [] []) as (new & Hnew & Hall).
      rewrite Hnew. simpl. apply Forall_forall. intros request Hr.
      destruct (proj1 (Forall_forall _ _) Hall request Hr) as (m & _ & Ht).
      rewrite Ht. apply Hlen.
    + destruct (telegram_queue_prefix chat_id telegram messages [] [])
        as (n & ds & Hn & Hposted & _ & Hfin & Hstop & Hall).
      exists n. split; [exact Hn|]. split; [|split; [|exact Hposted]].
      * intros Hne.
        destruct (snd (TelegramNotifier.queue chat_id telegram messages [] [])).
        -- destruct (Hfin eq_refl) as [-> _]. destruct messages; [now destruct Hne|].
           simpl. lia.
        -- rewrite <- (Hstop eq_refl). lia.
      * intros Hans. exact (proj1 (Hfin (Hall Hans))).
Qed.

(** A comment longer than the limit is cut to it. *)
Example long_markdown_is_cut :
  length (TelegramNotifier.text
            {| TelegramNotifier.Message.author_name := lit "eve";
               TelegramNotifier.Message.author_email := Examples.eve;
               TelegramNotifier.Message.markdown_content := repeat 97%N 5000 |})
  = 4096.
Proof. vm_compute. reflexivity. Qed.

Lemma C8_witness :
  length (TelegramNotifier.text
            {| TelegramNotifier.Message.author_name := lit "eve";
               TelegramNotifier.Message.author_email := Examples.eve;
               TelegramNotifier.Message.markdown_content := repeat 97%N 5000 |})
  <= 4096
  /\ TelegramNotifier.email_part Examples.eve = lit "(eve@example.org) ".
Proof.
  destruct (C8_telegram_text_at_most_4096
              {| TelegramNotifier.Message.author_name := lit "eve";
                 TelegramNotifier.Message.author_email := Examples.eve;
                 TelegramNotifier.Message.markdown_content := repeat 97%N 5000 |})
    as (Hlen & _ & _ & Hemail & _).
  split; [exact Hlen|].
  exact (Hemail (lit "eve@example.org") eq_refl ltac:(discriminate)).
Defined.

(** * Further properties *)

(** ** Routing and failures of the HTTP handler *)

Section HandlerSurface.

Variable markdownToHtml : jstr -> jstr.
Variable RegExp_test : jstr -> jstr -> jstr + bool.
Variable req : Request.t.
Variable env : Env.t.
Variable platform : Platform.t.

Abbreviation getReponse := (getReponse RegExp_test req env).
Abbreviation fetch_catch := (fetch_catch RegExp_test req env).
Abbreviation fetch := (fetch markdownToHtml RegExp_test req env platform).
Abbreviation answered := (answered RegExp_test req env).

(** X1: whatever the method, a request whose URL does not parse or whose
    path is not [/comment] leaves store, queues and console alone.  It
    is answered 404 [Not found] when it carries a non-empty Origin
    header and the allow-list loop ends, and the wrapper's 400 when it
    carries none; when the loop meets an ill-formed pattern the
    handler's promise rejects and no answer is given. *)
Theorem X1_other_path_404 (fuel : nat) (w : World.t) :
  (Request.url req = None
   \/ exists url, Request.url req = Some url /\ URL.pathname url <> lit "/comment") ->
  exists c w',
    fetch fuel w = (c, w')
    /\ untouched w w'
    /\ wrapped RegExp_test req env 404 (text (lit "Not found")) c.
Proof.
  intros Hpath. unfold CommentWorker.fetch, fetch_try.
  destruct Hpath as [Hurl | (url & Hurl & Hne)]; rewrite Hurl.
  - apply (answered (text (lit "Not found")) (status_init 404) w).
  - apply jstr_eqb_neq in Hne. rewrite Hne. simpl negb. cbv iota.
    apply (answered (text (lit "Not found")) (status_init 404) w).
Qed.

(** X2: a method other than OPTIONS, POST and GET on [/comment] leaves
    store, queues and console alone.  It is answered 405 [Method not
    allowed] when the request carries a non-empty Origin header and the
    allow-list loop ends, and the wrapper's 400 when it carries none;
    when the loop meets an ill-formed pattern the handler's promise
    rejects and no answer is given. *)
Theorem X2_other_method_405 (url : URL.t) (fuel : nat) (w : World.t) :
  Request.url req = Some url ->
  URL.pathname url = lit "/comment" ->
  Request.method req <> lit "OPTIONS" ->
  Request.method req <> lit "POST" ->
  Request.method req <> lit "GET" ->
  exists c w',
    fetch fuel w = (c, w')
    /\ untouched w w'
    /\ wrapped RegExp_test req env 405 (text (lit "Method not allowed")) c.
Proof.
  intros Hurl Hpath Ho Hp Hg. unfold CommentWorker.fetch, fetch_try.
  rewrite Hurl, Hpath. apply jstr_eqb_neq in Ho, Hp, Hg. rewrite Ho, Hp, Hg.
  apply (answered (text (lit "Method not allowed")) (status_init 405) w).
Qed.

(** X3: a GET on [/comment] whose [comment_base_type] is absent or
    neither [article] nor [comment] makes no query and leaves store,
    queues and console alone.  It is answered 400 [Invalid comment base
    type] when the request carries a non-empty Origin header and the
    allow-list loop ends, and the wrapper's 400 when it carries none;
    when the loop meets an ill-formed pattern the handler's promise
    rejects and no answer is given. *)
Theorem X3_invalid_base_type_400 (params : list (jstr * jstr)) (fuel : nat) (w : World.t) :
  is_GET_comment req params ->
  params_get params (lit "comment_base_type") <> Some (lit "article") ->
  params_get params (lit "comment_base_type") <> Some (lit "comment") ->
  exists c w',
    fetch fuel w = (c, w')
    /\ untouched w w'
    /\ wrapped RegExp_test req env 400 (text (lit "Invalid comment base type")) c.
Proof.
  intros Hget Ha Hc. rewrite (fetch_GET markdownToHtml RegExp_test req env platform params fuel w Hget).
  unfold get. simpl URL.searchParams.
  assert (Hne : forall t, params_get params (lit "comment_base_type") <> Some t ->
                          opt_eqb (params_get params (lit "comment_base_type")) (Some t) = false).
  { intros t Ht. destruct (params_get params (lit "comment_base_type")) as [x|]; [|reflexivity].
    simpl. apply jstr_eqb_neq. intros E. apply Ht. now rewrite E. }
  rewrite (Hne _ Ha), (Hne _ Hc).
  apply (answered (text (lit "Invalid comment base type")) (status_init 400) w).
Qed.

(** *** Every answer goes through the CORS wrapper *)

Abbreviation ends_in_answer := (ends_in_answer RegExp_test req env).

Lemma ends_getReponse body init : ends_in_answer (getReponse body init).
Proof. intros w. left. now exists w, body, init. Qed.

Lemma ends_logged_answer e body init :
  ends_in_answer (bind (console_push e) (fun _ => getReponse body init)).
Proof.
  intros w. left. exists (set_console w (World.console w ++ [e])), body, init.
  split; reflexivity.
Qed.

Lemma ends_notify event parent_comment send_time uuid :
  ends_in_answer (notify RegExp_test req env platform event parent_comment send_time uuid).
Proof.
  intros w. unfold notify.
  destruct (last_insert_id_command (World.COMMENT_DB w) uuid) as [last_insert_id|].
  - unfold bind, MESSAGE_QUEUE_send, EMAIL_QUEUE_send, ret.
    destruct (Platform.MESSAGE_QUEUE_send_error platform) as [err|].
    + right. left. now exists (Error err), w.
    + destruct (truthy_opt (PostCommentEvent.email event)).
      * destruct (Platform.EMAIL_QUEUE_send_error platform) as [err|].
        -- right. left. eexists (Error err), _. split; [|reflexivity]. reflexivity.
        -- left. eexists _, _, _. split; [|reflexivity]. reflexivity.
      * left. eexists _, _, _. split; [|reflexivity]. reflexivity.
  - apply (ends_logged_answer error_last_insert_id (text (lit "OK")) no_init w).
Qed.

(** An answer through the wrapper is not pending. *)
Lemma getReponse_not_pending body init w : fst (getReponse body init w) <> Pending.
Proof.
  destruct (getReponse_effect RegExp_test req env body init w)
    as (c & w' & Hrun & _ & _ & Hw).
  rewrite Hrun. simpl.
  destruct (wrapped_cases _ _ _ _ _ _ Hw) as [[r ->]|[e ->]]; discriminate.
Qed.

Lemma ends_insert_comment event level parent_comment :
  ends_in_answer
    (insert_comment markdownToHtml RegExp_test req env platform event level parent_comment).
Proof.
  intros w. unfold insert_comment.
  destruct (Platform.insert_error platform) as [err|].
  - right. left. now exists (DatabaseError err), w.
  - match goal with
    | |- context [notify _ _ _ _ ?ev ?pc ?t ?u ?w0] =>
        destruct (ends_notify ev pc t u w0)
          as [(w1 & b & i & Hc & Hrun) | [(e & w1 & Hc & Hrun) | Hrun]]
    end.
    + left. exists w1, b, i. split; [exact Hc | exact Hrun].
    + right. left. exists e, w1. split; [exact Hc | exact Hrun].
    + left. exfalso. revert Hrun. unfold notify.
      destruct (last_insert_id_command _ _).
      * unfold bind, MESSAGE_QUEUE_send, EMAIL_QUEUE_send, ret.
        destruct (Platform.MESSAGE_QUEUE_send_error platform); [discriminate|].
        destruct (truthy_opt _);
          [destruct (Platform.EMAIL_QUEUE_send_error platform); [discriminate|]|].
        all: match goal with
             | |- context [CommentWorker.getReponse _ _ _ ?b ?i ?w0] =>
                 intros Hrun; apply (getReponse_not_pending b i w0);
                 now rewrite Hrun
             end.
      * unfold bind, console_push.
        match goal with
        | |- context [CommentWorker.getReponse _ _ _ ?b ?i ?w0] =>
            intros Hrun; apply (getReponse_not_pending b i w0);
            now rewrite Hrun
        end.
Qed.

Lemma ends_post : ends_in_answer (post markdownToHtml RegExp_test req env platform).
Proof.
  intros w. unfold post.
  destruct (Request.json req) as [err|event].
  - right. left. now exists (Error err), w.
  - destruct (PostCommentEvent.parent_comment_id event) as [pid|];
      [|apply ends_insert_comment].
    destruct (truthy_id (Some pid)); [|apply ends_insert_comment].
    destruct (parent_comment_query (World.COMMENT_DB w) pid) as [pc|];
      [apply ends_insert_comment|].
    apply (ends_logged_answer (warn_parent_not_found pid)
             (text (lit "Parent comment not found")) (status_init 404) w).
Qed.

Lemma ends_query fuel base is_recursive :
  ends_in_answer (query RegExp_test req env platform fuel base is_recursive).
Proof.
  intros w. unfold query.
  destruct (recursiveQuery fuel (World.COMMENT_DB w) (Platform.record_error platform)
              base is_recursive) as [comments|e|e|].
  - left. now exists w, (JSON_stringify comments), no_init.
  - right. left. now exists e, w.
  - right. left. now exists e, w.
  - now right; right.
Qed.

Lemma ends_get fuel url : ends_in_answer (get RegExp_test req env platform fuel url).
Proof.
  unfold get.
  destruct (opt_eqb _ (Some (lit "article"))).
  - destruct (Number_isInteger _); [apply ends_getReponse | apply ends_query].
  - destruct (opt_eqb _ (Some (lit "comment"))); [|apply ends_getReponse].
    destruct (negb _); [apply ends_getReponse | apply ends_query].
Qed.

Lemma ends_fetch_try fuel :
  ends_in_answer (fetch_try markdownToHtml RegExp_test req env platform fuel).
Proof.
  unfold fetch_try.
  destruct (Request.url req) as [url|]; [|apply ends_getReponse].
  destruct (negb _); [apply ends_getReponse|].
  destruct (Js.eqb (Request.method req) (lit "OPTIONS")).
  { intros w. left. eexists w, _, _. split; reflexivity. }
  destruct (Js.eqb (Request.method req) (lit "POST")); [apply ends_post|].
  destruct (Js.eqb (Request.method req) (lit "GET")); [apply ends_get|].
  apply ends_getReponse.
Qed.

(** The handler's last step is one call of the wrapper, from the [try]
    block or from the [catch] block, unless it is pending in a world it
    has not touched. *)
Lemma fetch_last_step fuel w :
  (exists w0 body init,
     World.corsHeaders w0 = World.corsHeaders w
     /\ fetch fuel w = getReponse body init w0)
  \/ fetch fuel w = (Pending, w).
Proof.
  unfold CommentWorker.fetch, try_catch.
  destruct (ends_fetch_try fuel w)
    as [(w0 & b & i & Hc & Hrun) | [(e & w1 & Hc & Hrun) | Hrun]]; rewrite Hrun.
  - left. exists w0, b, i. split; [exact Hc|].
    destruct (getReponse_effect RegExp_test req env b i w0) as (c & w' & Hr & _ & _ & Hw).
    rewrite Hr. destruct (wrapped_cases _ _ _ _ _ _ Hw) as [[r ->]|[e ->]]; reflexivity.
  - left. unfold CommentWorker.fetch_catch, bind, console_push.
    destruct e as [m|m]; simpl; eexists _, _, _; (split; [|reflexivity]); exact Hc.
  - now right.
Qed.

Lemma new_headers_carry h hs key value :
  In (key, value) (entries h) ->
  headers_get
    (fold_left (fun hs kv => headers_set hs (fst kv) (snd kv)) (entries h) hs) key
  = Some value.
Proof.
  unfold entries. cbn [fold_left fst snd In].
  intros [E|[E|[E|[E|[E|[]]]]]]; injection E as <- <-.
  - rewrite !headers_get_set_other by reflexivity. apply headers_get_set_same.
  - rewrite !headers_get_set_other by reflexivity. apply headers_get_set_same.
  - rewrite !headers_get_set_other by reflexivity. apply headers_get_set_same.
  - rewrite !headers_get_set_other by reflexivity. apply headers_get_set_same.
  - apply headers_get_set_same.
Qed.

(** What the wrapper does to the global object and puts on the answer. *)
Lemma getReponse_cors body init w0 :
  (has_Origin req = false ->
   getReponse body init w0 = (Normal Origin_header_not_found, w0))
  /\ (forall origin,
        Request.Origin req = Some origin -> truthy origin = true ->
        match is_allowed RegExp_test origin (allowedOrigins env) with
        | inr allowed =>
            exists r,
              getReponse body init w0
              = (Normal r,
                 if allowed
                 then set_corsHeaders w0 (set_Allow_Origin (World.corsHeaders w0) origin)
                 else w0)
              /\ carries_cors r
                   (if allowed
                    then set_Allow_Origin (World.corsHeaders w0) origin
                    else World.corsHeaders w0)
        | inl error => getReponse body init w0 = (Escapes (Error error), w0)
        end).
Proof.
  split.
  - intros Hno. apply setCors_no_origin. exact Hno.
  - intros origin HO Ht. unfold CommentWorker.getReponse, setCorsHeaderToResponse.
    rewrite HO, Ht. simpl negb. cbv iota. fold (allowedOrigins env).
    destruct (is_allowed RegExp_test origin (allowedOrigins env)) as [error|allowed];
      [reflexivity|].
    eexists. split; [reflexivity|].
    intros key value Hin. simpl Response.headers.
    destruct allowed; now apply new_headers_carry.
Qed.

(** X4: every answer of the handler has passed the CORS wrapper once.
    Without an Origin header it is the bare 400 [Origin header not
    found], whose only header is the content type the runtime gives a
    text body, and the global object is untouched.  With one, the
    allow-list loop has ended, the answer carries the five CORS headers
    with the values the global object holds after the request; of that
    object only Access-Control-Allow-Origin can have changed, and it
    has become the request's origin exactly when the allow-list lets
    that origin through. *)
Theorem X4_answers_carry_cors (fuel : nat) (w w' : World.t) (r : Response.t) :
  fetch fuel w = (Normal r, w') ->
  (has_Origin req = false ->
   r = Origin_header_not_found
   /\ Response.headers r = [(lit "content-type", lit "text/plain;charset=UTF-8")]
   /\ World.corsHeaders w' = World.corsHeaders w)
  /\ (forall origin,
        Request.Origin req = Some origin -> truthy origin = true ->
        exists allowed,
          is_allowed RegExp_test origin (allowedOrigins env) = inr allowed
          /\ carries_cors r (World.corsHeaders w')
          /\ World.corsHeaders w'
             = (if allowed
                then set_Allow_Origin (World.corsHeaders w) origin
                else World.corsHeaders w)).
Proof.
  intros Hrun.
  destruct (fetch_last_step fuel w) as [(w0 & b & i & Hc & Hlast) | Hpend];
    [|rewrite Hpend in Hrun; discriminate].
  rewrite Hlast in Hrun. destruct (getReponse_cors b i w0) as [Hno Hyes]. split.
  - intros Hn. rewrite (Hno Hn) in Hrun. injection Hrun as <- <-.
    split; [reflexivity|]. split; [reflexivity | exact Hc].
  - intros origin HO Ht. specialize (Hyes origin HO Ht).
    destruct (is_allowed RegExp_test origin (allowedOrigins env)) as [error|allowed].
    + rewrite Hyes in Hrun. discriminate.
    + destruct Hyes as (r0 & Hr0 & Hcarry).
      rewrite Hr0 in Hrun. injection Hrun as <- <-. rewrite <- Hc.
      exists allowed. split; [reflexivity|]. destruct allowed; now split.
Qed.

End HandlerSurface.

(** *** The global object over the life of an instance *)

Section Instance.

Variable markdownToHtml : jstr -> jstr.
Variable RegExp_test : jstr -> jstr -> jstr + bool.

Abbreviation serve := (serve markdownToHtml RegExp_test).
Abbreviation run := (run markdownToHtml RegExp_test).

(** One request leaves the global object alone or writes its own,
    allowed, origin into it. *)
Lemma serve_cors w c :
  World.corsHeaders (serve w c) = World.corsHeaders w
  \/ exists origin,
       Request.Origin (Served.req c) = Some origin
       /\ truthy origin = true
       /\ is_allowed RegExp_test origin (allowedOrigins (Served.env c)) = inr true
       /\ World.corsHeaders (serve w c) = set_Allow_Origin (World.corsHeaders w) origin.
Proof.
  unfold HandlerSpec.serve.
  destruct (fetch_last_step markdownToHtml RegExp_test (Served.req c) (Served.env c)
              (Served.platform c) (Served.fuel c) w)
    as [(w0 & b & i & Hc & Hlast) | Hpend]; [|rewrite Hpend; now left].
  rewrite Hlast.
  destruct (getReponse_cors RegExp_test (Served.req c) (Served.env c) b i w0) as [Hno Hyes].
  destruct (has_Origin (Served.req c)) eqn:Ho.
  - unfold has_Origin in Ho.
    destruct (Request.Origin (Served.req c)) as [origin|] eqn:HO; [|discriminate].
    simpl in Ho. specialize (Hyes origin eq_refl Ho).
    destruct (is_allowed RegExp_test origin (allowedOrigins (Served.env c)))
      as [error|[|]] eqn:Ha.
    + rewrite Hyes. now left.
    + destruct Hyes as (r0 & Hr0 & _). rewrite Hr0.
      right. exists origin. simpl. rewrite Hc. now repeat split.
    + destruct Hyes as (r0 & Hr0 & _). rewrite Hr0. now left.
  - rewrite (Hno eq_refl). now left.
Qed.

(** X5: on an instance that starts with the module's [corsHeaders], after
    any sequence of requests the four fixed fields still hold the
    module's values, and Access-Control-Allow-Origin is empty or the
    origin of one of the requests served, one that the allow-list in
    force for that request let through. *)
Theorem X5_global_cors_over_requests (served : list Served.t) (w : World.t) :
  World.corsHeaders w = corsHeaders_initial ->
  cors_fixed (World.corsHeaders (run served w))
  /\ (CorsHeaders.Access_Control_Allow_Origin (World.corsHeaders (run served w)) = lit ""
      \/ exists c,
           In c served
           /\ Request.Origin (Served.req c)
              = Some (CorsHeaders.Access_Control_Allow_Origin
                        (World.corsHeaders (run served w)))
           /\ is_allowed RegExp_test
                (CorsHeaders.Access_Control_Allow_Origin
                   (World.corsHeaders (run served w)))
                (allowedOrigins (Served.env c)) = inr true).
Proof.
  intros Hinit.
  assert (Hgen : forall served before w0,
            cors_fixed (World.corsHeaders w0) ->
            (CorsHeaders.Access_Control_Allow_Origin (World.corsHeaders w0) = lit ""
             \/ exists c,
                  In c before
                  /\ Request.Origin (Served.req c)
                     = Some (CorsHeaders.Access_Control_Allow_Origin (World.corsHeaders w0))
                  /\ is_allowed RegExp_test
                       (CorsHeaders.Access_Control_Allow_Origin (World.corsHeaders w0))
                       (allowedOrigins (Served.env c)) = inr true) ->
            cors_fixed (World.corsHeaders (run served w0))
            /\ (CorsHeaders.Access_Control_Allow_Origin
                  (World.corsHeaders (run served w0)) = lit ""
                \/ exists c,
                     In c (before ++ served)
                     /\ Request.Origin (Served.req c)
                        = Some (CorsHeaders.Access_Control_Allow_Origin
                                  (World.corsHeaders (run served w0)))
                     /\ is_allowed RegExp_test
                          (CorsHeaders.Access_Control_Allow_Origin
                             (World.corsHeaders (run served w0)))
                          (allowedOrigins (Served.env c)) = inr true)).
  { clear. induction served as [|c served IH]; intros before w0 Hfix Horigin.
    - simpl. rewrite app_nil_r. now split.
    - change (run (c :: served) w0) with (run served (serve w0 c)).
      replace (before ++ c :: served) with ((before ++ [c]) ++ served)
        by (rewrite <- app_assoc; reflexivity).
      apply IH.
      + destruct (serve_cors w0 c) as [-> | (origin & _ & _ & _ & ->)]; [exact Hfix|].
        exact Hfix.
      + destruct (serve_cors w0 c) as [-> | (origin & HO & _ & Ha & ->)].
        * destruct Horigin as [He | (c0 & Hin & HO & Ha)]; [now left|].
          right. exists c0. split; [apply in_or_app; now left | now split].
        * right. exists c. simpl. split; [apply in_or_app; right; now left | now split]. }
  destruct (Hgen served [] w) as [Hfix Horigin].
  - rewrite Hinit. repeat split.
  - left. now rewrite Hinit.
  - split; [exact Hfix | exact Horigin].
Qed.

End Instance.

(** ** What a POST stores and announces *)

Section PostFacts.

Variable markdownToHtml : jstr -> jstr.
Variable RegExp_test : jstr -> jstr -> jstr + bool.
Variable req : Request.t.
Variable env : Env.t.
Variable platform : Platform.t.

Abbreviation getReponse := (getReponse RegExp_test req env).
Abbreviation fetch_catch := (fetch_catch RegExp_test req env).
Abbreviation fetch := (fetch markdownToHtml RegExp_test req env platform).
Abbreviation stored_row := (stored_row markdownToHtml platform).

(** X6: a [POST /comment] that cannot be carried out stores and enqueues
    nothing and logs the error.  It is answered 500, [Internal server
    error] when the body does not parse and [Database error] when the
    parent check passes and the INSERT reports an error, provided the
    request carries a non-empty Origin header and the allow-list loop
    ends; the wrapper's 400 is answered when it carries none, and when
    the loop meets an ill-formed pattern the handler's promise rejects
    and no answer is given. *)
Theorem X6_failed_post_500 (url : URL.t) (fuel : nat) (w : World.t) :
  Request.url req = Some url ->
  URL.pathname url = lit "/comment" ->
  Request.method req = lit "POST" ->
  (forall err,
     Request.json req = inl err ->
     exists c w',
       fetch fuel w = (c, w')
       /\ store_unchanged w w'
       /\ World.console w' = World.console w ++ [error_catched err]
       /\ wrapped RegExp_test req env 500 (text (lit "Internal server error")) c)
  /\ (forall event err,
        Request.json req = inr event ->
        parent_found event (World.COMMENT_DB w) ->
        Platform.insert_error platform = Some err ->
        exists c w',
          fetch fuel w = (c, w')
          /\ store_unchanged w w'
          /\ World.console w' = World.console w ++ [error_catched err]
          /\ wrapped RegExp_test req env 500 (text (lit "Database error")) c).
Proof.
  intros Hurl Hpath Hmeth. split.
  - intros err Hjson. unfold CommentWorker.fetch, try_catch, fetch_try.
    rewrite Hurl, Hpath, Hmeth. simpl. unfold post. rewrite Hjson. unfold throw.
    apply (fetch_catch_effect RegExp_test req env (Error err) w).
  - intros event err Hjson Hfound Hins.
    assert (Hpost : is_POST_comment req event) by (exists url; now repeat split).
    rewrite (fetch_POST markdownToHtml RegExp_test req env platform event fuel w Hpost).
    destruct (parent_found_checked event _ Hfound) as (level & pc & Hc).
    rewrite (post_checked markdownToHtml RegExp_test req env platform event w level pc Hjson Hc).
    unfold try_catch, insert_comment. rewrite Hins.
    apply (fetch_catch_effect RegExp_test req env (DatabaseError err) w).
Qed.

(** X7: the Origin check comes after the work.  A [POST /comment]
    without an Origin header that passes the parent check and whose
    INSERT succeeds is answered with the bare 400 [Origin header not
    found], and yet its row is stored and, when the queue accepts it,
    its Telegram job is enqueued. *)
Theorem X7_post_without_origin_is_stored
    (event : PostCommentEvent.t) (fuel : nat) (w : World.t) :
  is_POST_comment req event ->
  has_Origin req = false ->
  parent_found event (World.COMMENT_DB w) ->
  Platform.insert_error platform = None ->
  exists r w' row,
    fetch fuel w = (Normal r, w')
    /\ r = new_Response (text (lit "Origin header not found")) (status_init 400)
    /\ World.COMMENT_DB w' = World.COMMENT_DB w ++ [row]
    /\ CommentsRow.markdown_content row = PostCommentEvent.content event
    /\ (Platform.MESSAGE_QUEUE_send_error platform = None ->
        exists job,
          World.MESSAGE_QUEUE w' = World.MESSAGE_QUEUE w ++ [job]
          /\ TelegramCommentProperties.markdown_content job
             = PostCommentEvent.content event).
Proof.
  intros Hpost Hno Hfound Hins.
  destruct (parent_found_checked event _ Hfound) as (level & pc & Hc).
  destruct (post_stores markdownToHtml RegExp_test req env platform event level pc fuel w
              Hpost Hins Hc) as (c & w' & Hrun & Hdb & Hnot).
  assert (Hc' : c = Normal Origin_header_not_found).
  { destruct (fetch_last_step markdownToHtml RegExp_test req env platform fuel w)
      as [(w0 & b & i & _ & Hlast) | Hpend].
    - rewrite Hlast, (proj1 (getReponse_cors RegExp_test req env b i w0) Hno) in Hrun.
      now injection Hrun as <- _.
    - exfalso. rewrite Hpend in Hrun. injection Hrun as <- <-.
      rewrite <- (app_nil_r (World.COMMENT_DB w)) in Hdb at 1.
      apply app_inv_head in Hdb. discriminate. }
  subst c.
  exists Origin_header_not_found, w', (stored_row event level (World.COMMENT_DB w)).
  split; [exact Hrun|]. split; [reflexivity|]. split; [exact Hdb|]. split; [reflexivity|].
  intros Hmq. destruct Hnot as (last_insert_id & _ & Hq). simpl in Hq.
  rewrite Hmq in Hq. destruct Hq as [Hq _]. eexists. split; [exact Hq | reflexivity].
Qed.

End PostFacts.

(** X8: the [timestamp_ms] of the body is never read: two POSTs that
    differ in nothing else are answered alike and leave the same world,
    the stored [comment_timestamp_ms] being the handler's clock. *)
Theorem X8_timestamp_ms_is_ignored
    (markdownToHtml : jstr -> jstr) (RegExp_test : jstr -> jstr -> jstr + bool)
    (req : Request.t) (env : Env.t) (platform : Platform.t)
    (event : PostCommentEvent.t) (timestamp_ms : option Z) (fuel : nat) (w : World.t) :
  fetch markdownToHtml RegExp_test
    (with_json req (inr (with_timestamp_ms event timestamp_ms))) env platform fuel w
  = fetch markdownToHtml RegExp_test (with_json req (inr event)) env platform fuel w.
Proof. destruct event. reflexivity. Qed.

(** ** The table over the life of the service *)

Section TableFacts.

Variable markdownToHtml : jstr -> jstr.
Variable RegExp_test : jstr -> jstr -> jstr + bool.

Lemma find_app_first {A} (f : A -> bool) l l' y :
  find f l = Some y -> find f (l ++ l') = Some y.
Proof.
  induction l as [|a l IH]; simpl; [discriminate|].
  destruct (f a); [trivial | exact IH].
Qed.

Lemma find_app_new {A} (f : A -> bool) l x :
  find f l = None -> f x = true -> find f (l ++ [x]) = Some x.
Proof.
  induction l as [|a l IH]; simpl; intros Hn Hx.
  - now rewrite Hx.
  - destruct (f a); [discriminate | now apply IH].
Qed.

(** X9: the Telegram job of a stored comment carries the handler's clock
    and the id found under the fresh uuid.  When no row of the table
    had that uuid, this is the id of the row just stored; when one had,
    it is the id of the first such row, an older comment. *)
Theorem X9_job_names_the_row_of_the_uuid
    (req : Request.t) (env : Env.t) (platform : Platform.t)
    (event : PostCommentEvent.t) (fuel : nat) (w : World.t) :
  is_POST_comment req event ->
  parent_found event (World.COMMENT_DB w) ->
  Platform.insert_error platform = None ->
  Platform.MESSAGE_QUEUE_send_error platform = None ->
  exists level job,
    World.COMMENT_DB (snd (fetch markdownToHtml RegExp_test req env platform fuel w))
    = World.COMMENT_DB w
      ++ [stored_row markdownToHtml platform event level (World.COMMENT_DB w)]
    /\ World.MESSAGE_QUEUE (snd (fetch markdownToHtml RegExp_test req env platform fuel w))
       = World.MESSAGE_QUEUE w ++ [job]
    /\ TelegramCommentProperties.comment_timestamp job = Platform.getTime platform
    /\ (find (fun r => Js.eqb (CommentsRow.uuid r) (Platform.randomUUID platform))
          (World.COMMENT_DB w) = None ->
        TelegramCommentProperties.comment_id job = next_id (World.COMMENT_DB w))
    /\ (forall older,
          find (fun r => Js.eqb (CommentsRow.uuid r) (Platform.randomUUID platform))
            (World.COMMENT_DB w) = Some older ->
          TelegramCommentProperties.comment_id job = CommentsRow.id older
          /\ (CommentsRow.id older < next_id (World.COMMENT_DB w))%Z).
Proof.
  intros Hpost Hfound Hins Hmq.
  destruct (parent_found_checked event _ Hfound) as (level & pc & Hc).
  destruct (post_stores markdownToHtml RegExp_test req env platform event level pc fuel w
              Hpost Hins Hc) as (c & w' & Hrun & Hdb & Hnot).
  rewrite Hrun. simpl snd.
  destruct Hnot as (last_insert_id & Hlast & Hq). simpl in Hq, Hlast.
  rewrite Hmq in Hq. destruct Hq as [Hq _].
  exists level. eexists. split; [exact Hdb|]. split; [exact Hq|]. split; [reflexivity|].
  unfold last_insert_id_command in Hlast. simpl TelegramCommentProperties.comment_id. split.
  - intros Hfresh.
    rewrite (find_app_new
               (fun r => Js.eqb (CommentsRow.uuid r) (Platform.randomUUID platform))
               (World.COMMENT_DB w)
               (stored_row markdownToHtml platform event level (World.COMMENT_DB w))
               Hfresh (jstr_eqb_refl (Platform.randomUUID platform))) in Hlast.
    now injection Hlast as <-.
  - intros older Holder.
    rewrite (find_app_first
               (fun r => Js.eqb (CommentsRow.uuid r) (Platform.randomUUID platform))
               (World.COMMENT_DB w)
               [stored_row markdownToHtml platform event level (World.COMMENT_DB w)]
               older Holder) in Hlast.
    injection Hlast as <-.
    split; [reflexivity|]. apply next_id_above. now apply find_some in Holder.
Qed.

(** X10: only a POST writes to the table and the queues.  A request of
    any other method, whatever its path, query and headers, leaves the
    table and both queues exactly as they were.  It leaves the console
    as it was too, or else it is a GET and what it adds to the console
    is one entry, an error that the database reports for the read of
    some base.  So when the database reports no error for any read,
    nothing at all is touched. *)
Theorem X10_only_post_writes
    (req : Request.t) (env : Env.t) (platform : Platform.t) (fuel : nat) (w : World.t) :
  Request.method req <> lit "POST" ->
  store_unchanged w (snd (fetch markdownToHtml RegExp_test req env platform fuel w))
  /\ (World.console (snd (fetch markdownToHtml RegExp_test req env platform fuel w))
      = World.console w
      \/ (Request.method req = lit "GET"
          /\ exists read error,
               Platform.record_error platform read = Some error
               /\ World.console
                    (snd (fetch markdownToHtml RegExp_test req env platform fuel w))
                  = World.console w ++ [error_catched error]))
  /\ ((forall read, Platform.record_error platform read = None) ->
      untouched w (snd (fetch markdownToHtml RegExp_test req env platform fuel w))).
Proof.
  intros Hne.
  destruct (fetch_cases markdownToHtml RegExp_test req env platform fuel w)
    as [[Hsame Hcon] | [[event (url & _ & _ & Hm & _)] | [[Hm _] | (Hget & Hsame & Hlog)]]];
    try (now destruct Hne).
  - split; [exact Hsame|]. split; [now left|]. intros _. now split.
  - split; [exact Hsame|]. split; [right; now split|].
    intros Hok. destruct Hlog as (read & error & Hread & _).
    rewrite Hok in Hread. discriminate.
Qed.

(** X11: in every table the handler has filled, starting from the empty
    one, the levels agree with the parent links (a top-level row has
    level 0, every other row the level of its parent plus 1), and ids
    are at least 1, parent ids and levels at least 0. *)
Theorem X11_stored_levels_consistent (db : D1Database) :
  stored markdownToHtml RegExp_test db ->
  levels_consistent db
  /\ Forall (fun r => (1 <= CommentsRow.id r)%Z
                      /\ (0 <= CommentsRow.parent_id r)%Z
                      /\ (0 <= CommentsRow.level r)%Z) db.
Proof.
  induction 1 as [|req env platform fuel w _ [Hlev Hpos]].
  - split; constructor.
  - destruct (fetch_store_step markdownToHtml RegExp_test req env platform fuel w)
      as [-> | (event & level & -> & Hrow)]; [now split|].
    split.
    + unfold levels_consistent in *. apply Forall_app. split.
      * apply Forall_forall. intros r Hr.
        destruct (proj1 (Forall_forall _ _) Hlev r Hr) as [H0 | (p & Hin & Hpid & Hl)];
          [now left|].
        right. exists p. split; [apply in_or_app; now left | now split].
      * constructor; [|constructor]. simpl.
        destruct Hrow as [H0 | (p & Hin & Hpid & Hl)]; [now left|].
        right. exists p. split; [apply in_or_app; now left | now split].
    + apply Forall_app. split; [exact Hpos|]. constructor; [|constructor]. simpl.
      pose proof (next_id_positive (World.COMMENT_DB w)).
      destruct Hrow as [[Hp Hl] | (p & Hin & Hpid & Hl)].
      * lia.
      * destruct (proj1 (Forall_forall _ _) Hpos p Hin) as (? & ? & ?). lia.
Qed.

End TableFacts.

(** ** Reading back *)

Section ReadFacts.

Variable markdownToHtml : jstr -> jstr.
Variable RegExp_test : jstr -> jstr -> jstr + bool.

(** A GET whose id check passes is the query of the requested base. *)
Lemma fetch_GET_query req env platform params base fuel w :
  is_GET_comment req params ->
  requested_base params = Some base ->
  fetch markdownToHtml RegExp_test req env platform fuel w
  = try_catch (query RegExp_test req env platform fuel base (is_recursive_param params))
      (fetch_catch RegExp_test req env) w.
Proof.
  intros Hget Hbase.
  rewrite (fetch_GET markdownToHtml RegExp_test req env platform params fuel w Hget).
  unfold get, requested_base, try_catch in *. cbn [URL.searchParams].
  destruct (params_get params (lit "comment_base_type")) as [t|]; [|discriminate].
  unfold opt_eqb at 1 2. destruct (Js.eqb t (lit "article")).
  - injection Hbase as <-.
    replace (Number_isInteger _) with false
      by (destruct (params_get params (lit "comment_base_id")); reflexivity).
    reflexivity.
  - unfold opt_eqb. destruct (Js.eqb t (lit "comment")); [|discriminate].
    cbn [Number_isInteger].
    destruct (number_isInteger _); [|discriminate].
    injection Hbase as <-. reflexivity.
Qed.


Lemma children_rows_app db row base :
  children_rows (db ++ [row]) base
  = children_rows db base ++ children_rows [row] base.
Proof.
  destruct base as [[a|]|c]; simpl children_rows; try reflexivity; apply filter_app.
Qed.

(** X13: a comment posted at the top level of an article is read back.
    After a POST without parent whose INSERT succeeds, a non-recursive
    GET of that article whose read reports no error gives, with status
    200, the nodes the article showed before followed by the node of
    the new comment: the id the table gave it, the author, the address
    and website or the empty string, the rendered HTML, the handler's
    clock, and no children.  This is answered when the GET carries a
    non-empty Origin header and the allow-list loop ends; without such
    a header the wrapper's 400 is answered, and when the loop meets an
    ill-formed pattern the handler's promise rejects. *)
Theorem X13_posted_comment_is_read_back
    (post_req get_req : Request.t) (post_env get_env : Env.t)
    (post_platform get_platform : Platform.t)
    (event : PostCommentEvent.t) (params : list (jstr * jstr))
    (post_fuel get_fuel : nat) (w : World.t) :
  is_POST_comment post_req event ->
  truthy_id (PostCommentEvent.parent_comment_id event) = false ->
  Platform.insert_error post_platform = None ->
  is_GET_comment get_req params ->
  requested_base params = Some (article (Some (PostCommentEvent.article_id event))) ->
  is_recursive_param params = false ->
  Platform.record_error get_platform
    (article (Some (PostCommentEvent.article_id event))) = None ->
  exists c w',
    fetch markdownToHtml RegExp_test get_req get_env get_platform (S get_fuel)
      (snd (fetch markdownToHtml RegExp_test post_req post_env post_platform post_fuel w))
    = (c, w')
    /\ wrapped RegExp_test get_req get_env 200
         (JSON_stringify
            (map leaf (children_rows (World.COMMENT_DB w)
                         (article (Some (PostCommentEvent.article_id event))))
             ++ [stored_node markdownToHtml post_platform event (World.COMMENT_DB w)]))
         c.
Proof.
  intros Hpost Hfalsy Hins Hget Hbase Hrec Hread.
  assert (Hc : checked_parent event (World.COMMENT_DB w) = Some (0%Z, None)).
  { unfold checked_parent. unfold truthy_id in Hfalsy.
    destruct (PostCommentEvent.parent_comment_id event) as [pid|]; [|reflexivity].
    apply negb_false_iff in Hfalsy. now rewrite Hfalsy. }
  destruct (post_stores markdownToHtml RegExp_test post_req post_env post_platform
              event 0%Z None post_fuel w Hpost Hins Hc) as (c1 & w1 & Hrun1 & Hdb & _).
  rewrite Hrun1. simpl snd.
  set (base := article (Some (PostCommentEvent.article_id event))) in *.
  rewrite (fetch_GET_query get_req get_env get_platform params base (S get_fuel) w1 Hget Hbase).
  rewrite Hrec.
  destruct (query_cases RegExp_test get_req get_env get_platform (S get_fuel) base false w1)
    as (c & w' & Hrun & _ & Hq).
  rewrite (recursiveQuery_flat (World.COMMENT_DB w1) (Platform.record_error get_platform)
             base get_fuel Hread) in Hq.
  destruct Hq as [_ Hw].
  exists c, w'. split; [exact Hrun|].
  replace (map leaf (children_rows (World.COMMENT_DB w) base)
           ++ [stored_node markdownToHtml post_platform event (World.COMMENT_DB w)])
    with (map leaf (children_rows (World.COMMENT_DB w1) base)); [exact Hw|].
  rewrite Hdb, children_rows_app, map_app. f_equal.
  subst base. simpl children_rows. rewrite jstr_eqb_refl.
  assert (Hp : or_zero (PostCommentEvent.parent_comment_id event) = 0%Z).
  { unfold truthy_id in Hfalsy.
    destruct (PostCommentEvent.parent_comment_id event) as [pid|]; [|reflexivity].
    apply negb_false_iff in Hfalsy. now apply Z.eqb_eq in Hfalsy. }
  simpl CommentsRow.parent_id. rewrite Hp. reflexivity.
Qed.

End ReadFacts.

(** ** The allow-list *)

Lemma includes_In xs x : In x xs -> includes xs x = true.
Proof.
  intros Hin. unfold includes. apply existsb_exists. exists x.
  split; [exact Hin | apply jstr_eqb_refl].
Qed.

(** One turn of the loop: the entry decides, or the loop goes on. *)
Lemma is_allowed_from_step RegExp_test origin allowedOrigins a rest :
  In a allowedOrigins ->
  is_allowed_from RegExp_test origin allowedOrigins (a :: rest)
  = match entry_allows RegExp_test origin a with
    | inl error => inl error
    | inr true => inr true
    | inr false => is_allowed_from RegExp_test origin allowedOrigins rest
    end.
Proof.
  intros Hin. cbn [is_allowed_from]. unfold entry_allows, is_pattern.
  destruct (Js.eqb a (lit "*")); [reflexivity|].
  destruct (startsWith a (lit "/") && endsWith a (lit "/")).
  - destruct (RegExp_test _ origin) as [error|[|]]; reflexivity.
  - destruct (Js.eqb origin a) eqn:E; [|reflexivity].
    apply jstr_eqb_eq in E. subst a. now rewrite (includes_In _ _ Hin).
Qed.

Lemma is_allowed_from_entries RegExp_test origin allowedOrigins rest :
  incl rest allowedOrigins ->
  (forall decision,
     is_allowed_from RegExp_test origin allowedOrigins rest = decision ->
     match decision with
     | inr false => Forall (fun a => entry_allows RegExp_test origin a = inr false) rest
     | _ =>
         exists before a after,
           rest = before ++ a :: after
           /\ Forall (fun x => entry_allows RegExp_test origin x = inr false) before
           /\ entry_allows RegExp_test origin a = decision
     end).
Proof.
  induction rest as [|a rest IH]; intros Hincl decision <-.
  - constructor.
  - assert (Hrest : incl rest allowedOrigins) by (intros x Hx; apply Hincl; now right).
    rewrite is_allowed_from_step by (apply Hincl; now left).
    destruct (entry_allows RegExp_test origin a) as [error|[|]] eqn:Ea.
    + exists [], a, rest. split; [reflexivity|]. split; [constructor | exact Ea].
    + exists [], a, rest. split; [reflexivity|]. split; [constructor | exact Ea].
    + specialize (IH Hrest _ eq_refl).
      destruct (is_allowed_from RegExp_test origin allowedOrigins rest) as [error|[|]].
      * destruct IH as (before & x & after & -> & Hb & Hx).
        exists (a :: before), x, after. split; [reflexivity|]. split; [now constructor|].
        exact Hx.
      * destruct IH as (before & x & after & -> & Hb & Hx).
        exists (a :: before), x, after. split; [reflexivity|]. split; [now constructor|].
        exact Hx.
      * now constructor.
Qed.

(** The first entry that does not simply refuse decides. *)
Lemma first_decides {A} (f : A -> jstr + bool) before a after before' a' after' :
  before ++ a :: after = before' ++ a' :: after' ->
  Forall (fun x => f x = inr false) before ->
  Forall (fun x => f x = inr false) before' ->
  f a <> inr false -> f a' <> inr false ->
  f a = f a'.
Proof.
  revert before'. induction before as [|b before IH]; intros [|b' before'] E Hb Hb' Ha Ha';
    simpl in E; injection E as E1 E2.
  - now subst.
  - subst b'. inversion Hb'; subst. contradiction.
  - subst b. inversion Hb; subst. contradiction.
  - inversion Hb; inversion Hb'; subst. now apply (IH before').
Qed.

(** X14: the loop of the CORS wrapper is decided by the first entry of
    the allow-list that does not simply refuse the origin.  An entry
    lets the origin through when it is [*], or is written between
    slashes and its inside matches the origin as a pattern, or is not
    written so and equals the origin; an entry between slashes whose
    inside is an ill-formed pattern throws.  The origin is allowed
    exactly when an entry lets it through and every entry before it
    refuses; the loop throws exactly when an entry throws and every
    entry before it refuses; the origin is not allowed exactly when
    every entry refuses.  A pattern entry is never compared literally,
    and the second look-up of line 476 never changes the outcome. *)
Theorem X14_is_allowed_by_some_entry
    (RegExp_test : jstr -> jstr -> jstr + bool) (origin : jstr) (allowedOrigins : list jstr) :
  (is_allowed RegExp_test origin allowedOrigins = inr false
   <-> Forall (fun a => entry_allows RegExp_test origin a = inr false) allowedOrigins)
  /\ (forall decision,
        decision <> inr false ->
        (is_allowed RegExp_test origin allowedOrigins = decision
         <-> exists before a after,
               allowedOrigins = before ++ a :: after
               /\ Forall (fun x => entry_allows RegExp_test origin x = inr false) before
               /\ entry_allows RegExp_test origin a = decision)).
Proof.
  pose proof (is_allowed_from_entries RegExp_test origin allowedOrigins allowedOrigins
                (incl_refl _)) as Hloop.
  fold (is_allowed RegExp_test origin allowedOrigins) in Hloop.
  assert (Hfirst : forall decision,
            decision <> inr false ->
            (exists before a after,
               allowedOrigins = before ++ a :: after
               /\ Forall (fun x => entry_allows RegExp_test origin x = inr false) before
               /\ entry_allows RegExp_test origin a = decision) ->
            is_allowed RegExp_test origin allowedOrigins = decision).
  { intros decision Hd (before & a & after & Hl & Hb & Ha).
    pose proof (Hloop _ eq_refl) as H.
    destruct (is_allowed RegExp_test origin allowedOrigins) as [error|[|]] eqn:E.
    - destruct H as (before' & a' & after' & Hl' & Hb' & Ha').
      rewrite <- Ha, <- Ha'. symmetry.
      apply (first_decides (entry_allows RegExp_test origin)
               before a after before' a' after'); try assumption; try congruence.
    - destruct H as (before' & a' & after' & Hl' & Hb' & Ha').
      rewrite <- Ha, <- Ha'. symmetry.
      apply (first_decides (entry_allows RegExp_test origin)
               before a after before' a' after'); try assumption; try congruence.
    - exfalso. rewrite Hl in H. apply Forall_app in H as [_ H].
      inversion H; subst. congruence. }
  split.
  - split.
    + intros E. exact (Hloop _ E).
    + intros Hall.
      destruct (is_allowed RegExp_test origin allowedOrigins) as [error|[|]] eqn:E;
        [| |reflexivity];
        destruct (Hloop _ eq_refl) as (before & a & after & Hl & _ & Ha);
        rewrite Hl in Hall; apply Forall_app in Hall as [_ Hall];
        inversion Hall; subst; congruence.
  - intros decision Hd. split.
    + intros E. pose proof (Hloop _ E) as H.
      destruct decision as [error|[|]]; [exact H | exact H | now destruct Hd].
    + now apply Hfirst.
Qed.

(** ** The email worker's decisions *)

Import WorkerSpec.

Section WorkerFacts.

Variable brevo : Brevo.t.
Variable getDateString : Z -> jstr.

Abbreviation registerRecipientEmail := (registerRecipientEmail brevo).
Abbreviation postSendEmailRequest := (postSendEmailRequest brevo).
Abbreviation sendEmail := (sendEmail brevo getDateString).
Abbreviation handle_message := (handle_message brevo getDateString).
Abbreviation queue := (queue brevo getDateString).
Abbreviation posted_email := (posted_email getDateString).
Abbreviation reply_email := (reply_email getDateString).
Abbreviation stops := (stops_at_rejection brevo).

Lemma stops_ret {A} (a : A) : stops (ret a).
Proof.
  intros w. exists []. simpl. rewrite app_nil_r. split; [reflexivity|]. split; [exact I|].
  split.
  - intros pre c post Heq. now destruct pre.
  - discriminate.
Qed.

Lemma stops_push e : stops (worker_console_push e).
Proof.
  intros w. exists []. simpl. rewrite app_nil_r. split; [reflexivity|]. split; [exact I|].
  split.
  - intros pre c post Heq. now destruct pre.
  - discriminate.
Qed.

Lemma one_call {A} (pre : list A) c post c0 :
  [c0] = pre ++ c :: post -> pre = [] /\ c = c0 /\ post = [].
Proof.
  destruct pre as [|x pre]; simpl; intros Heq.
  - now injection Heq as <- <-.
  - injection Heq as _ Heq. now destruct pre.
Qed.

Lemma stops_register email api_key : stops (registerRecipientEmail email api_key).
Proof.
  intros w. exists [POST_contacts email api_key].
  unfold CommentWorker.registerRecipientEmail, bind, record_call, throw, ret,
    worker_console_push.
  destruct (Brevo.contacts brevo (Worker.calls w) email) as [err|ok data] eqn:E.
  - simpl. split; [reflexivity|]. split; [exact I|]. split.
    + intros pre c post Heq _. apply one_call in Heq as (_ & _ & ->). split; [reflexivity|].
      now eexists.
    + intros e _. exists [], (POST_contacts email api_key). split; [reflexivity|].
      simpl. rewrite app_nil_r, E. reflexivity.
  - destruct (negb (negb ok || _)); simpl;
      (split; [reflexivity|]; split; [exact I|]; split; [|discriminate];
       intros pre c post Heq Hrej; apply one_call in Heq as (-> & -> & ->);
       simpl in Hrej; rewrite app_nil_r, E in Hrej; discriminate).
Qed.

Lemma stops_post data api_key : stops (postSendEmailRequest data api_key).
Proof.
  intros w. exists [POST_smtp_email data api_key].
  unfold CommentWorker.postSendEmailRequest, bind, record_call, throw, ret,
    worker_console_push.
  destruct (Brevo.smtp_email brevo (Worker.calls w) data) as [err|ok data'] eqn:E.
  - simpl. split; [reflexivity|]. split; [exact I|]. split.
    + intros pre c post Heq _. apply one_call in Heq as (_ & _ & ->). split; [reflexivity|].
      now eexists.
    + intros e _. exists [], (POST_smtp_email data api_key). split; [reflexivity|].
      simpl. rewrite app_nil_r, E. reflexivity.
  - destruct (negb ok || _); simpl;
      (split; [reflexivity|]; split; [exact I|]; split; [|discriminate];
       intros pre c post Heq Hrej; apply one_call in Heq as (-> & -> & ->);
       simpl in Hrej; rewrite app_nil_r, E in Hrej; discriminate).
Qed.

Lemma stops_bind {A B} (m : W A) (k : A -> W B) :
  stops m -> (forall a, stops (k a)) -> stops (bind m k).
Proof.
  intros Hm Hk w. destruct (Hm w) as (new1 & Hc1 & Hs1 & Hr1 & Ht1).
  unfold bind. destruct (m w) as [[a|e|e_|] w1]; simpl in Hc1, Hs1, Hr1, Ht1.
  - destruct (Hk a w1) as (new2 & Hc2 & Hs2 & Hr2 & Ht2).
    exists (new1 ++ new2). split; [rewrite Hc2, Hc1, app_assoc; reflexivity|].
    split; [exact Hs2|]. split.
    + intros pre c post Heq Hrej.
      apply app_eq_app in Heq as [l [[H1 H2] | [H1 H2]]].
      * destruct l as [|c' l].
        -- rewrite app_nil_r in H1. subst new1. simpl in H2.
           apply (Hr2 [] c post (eq_sym H2)). now rewrite app_nil_r, Hc1.
        -- simpl in H2. injection H2 as <- ->.
           destruct (Hr1 pre c l H1 Hrej) as [_ [e He]]. discriminate.
      * subst pre. apply (Hr2 l c post H2). now rewrite Hc1, <- app_assoc.
    + intros e He. destruct (Ht2 e He) as (pre & c & -> & Hrej).
      exists (new1 ++ pre), c. split; [now rewrite app_assoc|].
      now rewrite app_assoc, <- Hc1.
  - exists new1. simpl. split; [exact Hc1|]. split; [exact I|]. split.
    + intros pre c post Heq Hrej. split; [exact (proj1 (Hr1 pre c post Heq Hrej))|].
      now exists e.
    + intros e0 He0. injection He0 as <-. exact (Ht1 e eq_refl).
  - contradiction.
  - contradiction.
Qed.

Ltac stops_step :=
  first
    [ apply stops_ret
    | apply stops_push
    | apply stops_register
    | apply stops_post
    | apply stops_bind; [|intro]
    | match goal with
      | |- stops_at_rejection _ (if ?b then _ else _) => destruct b
      | |- stops_at_rejection _ (match ?x with _ => _ end) => destruct x
      end ].

Lemma stops_sendEmail email_event api_key : stops (sendEmail email_event api_key).
Proof. unfold CommentWorker.sendEmail. repeat stops_step. Qed.

(** The body of the [try] of [queue] stops at a rejected call. *)
Lemma handle_message_body api_key event :
  exists body,
    handle_message api_key event
    = try_catch body
        (fun e => worker_console_push (worker_error_catched (message e)) ;; ret retry)
    /\ stops body.
Proof.
  eexists. split; [reflexivity|]. cbv zeta.
  repeat first [ apply stops_sendEmail | stops_step ].
Qed.

(** What handling one message comes to. *)
Lemma handle_message_settles api_key event w :
  exists d w' new,
    handle_message api_key event w = (Normal d, w')
    /\ Worker.calls w' = Worker.calls w ++ new
    /\ (forall pre c post,
          new = pre ++ c :: post ->
          rejected brevo (Worker.calls w ++ pre) c = true ->
          post = [] /\ d = retry)
    /\ (d = ack -> forall pre c post,
          new = pre ++ c :: post -> rejected brevo (Worker.calls w ++ pre) c = false).
Proof.
  destruct (handle_message_body api_key event) as (body & -> & Hbody).
  destruct (Hbody w) as (new & Hc & Hs & Hr & Ht).
  unfold try_catch. destruct (body w) as [[d|e|e_|] w1]; simpl in Hc, Hs, Hr, Ht.
  - exists d, w1, new. split; [reflexivity|]. split; [exact Hc|]. split.
    + intros pre c post Heq Hrej. destruct (Hr pre c post Heq Hrej) as [_ [e He]].
      discriminate.
    + intros _ pre c post Heq.
      destruct (rejected brevo (Worker.calls w ++ pre) c) eqn:Hrej; [|reflexivity].
      destruct (Hr pre c post Heq Hrej) as [_ [e He]]. discriminate.
  - eexists retry, _, new. split; [reflexivity|]. split; [exact Hc|]. split.
    + intros pre c post Heq Hrej. split; [exact (proj1 (Hr pre c post Heq Hrej))|reflexivity].
    + discriminate.
  - contradiction.
  - contradiction.
Qed.

(** X15: handling a message of the email queue never lets an exception
    out and only adds calls.  A call the provider rejects (the request
    fails or the answer is not JSON) is the last call made for the
    message, and the message is retried; a message that is
    acknowledged had every one of its calls answered. *)
Theorem X15_rejected_call_ends_the_message
    (api_key : jstr) (event : SendCommentNotificationEmailEvent.t) (w : Worker.t) :
  exists d w' new,
    handle_message api_key event w = (Normal d, w')
    /\ Worker.calls w' = Worker.calls w ++ new
    /\ (forall pre c post,
          new = pre ++ c :: post ->
          rejected brevo (Worker.calls w ++ pre) c = true ->
          post = [] /\ d = retry)
    /\ (d = ack -> forall pre c post,
          new = pre ++ c :: post -> rejected brevo (Worker.calls w ++ pre) c = false).
Proof. apply handle_message_settles. Qed.

(** X16: the email worker decides every message of a batch, in order:
    [queue] returns normally with one decision per message, whatever
    the provider answers. *)
Theorem X16_email_queue_decides_every_message
    (api_key : jstr) (messages : list SendCommentNotificationEmailEvent.t) (w : Worker.t) :
  exists ds w',
    queue api_key messages w = (Normal ds, w')
    /\ length ds = length messages
    /\ exists new, Worker.calls w' = Worker.calls w ++ new.
Proof.
  revert w. induction messages as [|m rest IH]; intros w.
  - exists [], w. split; [reflexivity|]. split; [reflexivity|]. exists [].
    now rewrite app_nil_r.
  - destruct (handle_message_settles api_key m w) as (d & w1 & new1 & Hrun & Hc1 & _).
    destruct (IH w1) as (ds & w2 & Hrest & Hlen & new2 & Hc2).
    exists (d :: ds), w2. cbn [CommentWorker.queue]. unfold bind at 1. rewrite Hrun.
    unfold bind, ret. rewrite Hrest. split; [reflexivity|]. split; [simpl; now rewrite Hlen|].
    exists (new1 ++ new2). now rewrite Hc2, Hc1, app_assoc.
Qed.

Lemma opt_eqb_Some_neq a p : a <> p -> opt_eqb (Some a) (Some p) = false.
Proof. intros Hne. simpl. now apply jstr_eqb_neq. Qed.

Lemma sendEmail_both event reply api_key w :
  SendCommentNotificationEmailEvent.reply_to_comment event = Some reply ->
  opt_eqb (EmailCommentProperties.author_email
             (SendCommentNotificationEmailEvent.comment event))
          (EmailCommentProperties.author_email reply) = false ->
  (forall calls data, accepted (Brevo.smtp_email brevo calls data) = true) ->
  exists w',
    sendEmail event api_key w = (Normal true, w')
    /\ Worker.calls w'
       = Worker.calls w ++ [ POST_smtp_email (posted_email event) api_key;
                             POST_smtp_email (reply_email event reply) api_key ].
Proof.
  intros Hr Hne Hsend. unfold CommentWorker.sendEmail.
  fold (posted_email event). rewrite Hr, Hne. cbn [negb]. cbv beta iota.
  fold (reply_email event reply).
  destruct (post_accepted brevo (posted_email event) api_key w (Hsend _ _)) as (w1 & Hrun1 & Hc1).
  destruct (post_accepted brevo (reply_email event reply) api_key w1 (Hsend _ _))
    as (w2 & Hrun2 & Hc2).
  unfold bind, ret. rewrite Hrun1, Hrun2. exists w2. split; [reflexivity|].
  rewrite Hc2, Hc1, <- app_assoc. reflexivity.
Qed.

(** X17: a reply whose author and parent author have different
    non-empty addresses, with a provider that answers every
    registration and accepts every send, makes four calls in this
    order: both addresses are registered, the author is sent the "you
    posted a comment" email (template 2), and the parent's author the
    "someone replied" email (template 1) naming the author's comment.
    The message is acknowledged. *)
Theorem X17_reply_notifies_both
    (api_key : jstr) (event : SendCommentNotificationEmailEvent.t)
    (reply : EmailCommentProperties.t) (a p : jstr) (w : Worker.t) :
  EmailCommentProperties.author_email (SendCommentNotificationEmailEvent.comment event)
  = Some a ->
  truthy a = true ->
  SendCommentNotificationEmailEvent.reply_to_comment event = Some reply ->
  EmailCommentProperties.author_email reply = Some p ->
  truthy p = true ->
  a <> p ->
  (forall calls email, answered (Brevo.contacts brevo calls email) = true) ->
  (forall calls data, accepted (Brevo.smtp_email brevo calls data) = true) ->
  exists w',
    handle_message api_key event w = (Normal ack, w')
    /\ Worker.calls w'
       = Worker.calls w
         ++ [ POST_contacts a api_key;
              POST_contacts p api_key;
              POST_smtp_email (posted_email event) api_key;
              POST_smtp_email (reply_email event reply) api_key ]
    /\ EmailData.templateId (reply_email event reply) = 1%Z
    /\ EmailData.to_email (reply_email event reply) = Some p.
Proof.
  intros Ha Hta Hr Hp Htp Hne Hreg Hsend.
  assert (Hneq : opt_eqb (EmailCommentProperties.author_email
                            (SendCommentNotificationEmailEvent.comment event))
                         (EmailCommentProperties.author_email reply) = false)
    by (rewrite Ha, Hp; now apply opt_eqb_Some_neq).
  unfold CommentWorker.handle_message, try_catch.
  rewrite Ha, Hr, Hp, Hta, Htp. cbn [negb]. cbv beta iota. unfold bind at 1 2.
  destruct (register_answered brevo a api_key w (Hreg _ _)) as (b1 & w1 & Hrun1 & Hc1 & _).
  rewrite Hrun1.
  destruct (register_answered brevo p api_key w1 (Hreg _ _)) as (b2 & w2 & Hrun2 & Hc2 & _).
  rewrite Hrun2.
  destruct (sendEmail_both event reply api_key w2 Hr Hneq Hsend) as (w3 & Hrun3 & Hc3).
  unfold bind, ret. rewrite Hrun3. exists w3. split; [reflexivity|]. split.
  - rewrite Hc3, Hc2, Hc1, <- !app_assoc. reflexivity.
  - split; [reflexivity | simpl; exact Hp].
Qed.

(** X18: when the provider does not accept the author's "you posted a
    comment" email, the message is retried and the parent's author is
    not written to: that first send is the only one. *)
Theorem X18_failed_receipt_stops_sending
    (api_key : jstr) (event : SendCommentNotificationEmailEvent.t) (a : jstr) (w : Worker.t) :
  EmailCommentProperties.author_email (SendCommentNotificationEmailEvent.comment event)
  = Some a ->
  truthy a = true ->
  (forall reply,
     SendCommentNotificationEmailEvent.reply_to_comment event = Some reply ->
     truthy_opt (EmailCommentProperties.author_email reply) = true) ->
  (forall calls email, answered (Brevo.contacts brevo calls email) = true) ->
  (forall calls, accepted (Brevo.smtp_email brevo calls (posted_email event)) = false) ->
  exists w',
    handle_message api_key event w = (Normal retry, w')
    /\ sends (Worker.calls w') = sends (Worker.calls w) ++ [posted_email event].
Proof.
  intros Ha Hta Hreply Hreg Hsend.
  assert (Hsent : forall w2,
            exists c w3,
              sendEmail event api_key w2 = (c, w3)
              /\ Worker.calls w3
                 = Worker.calls w2 ++ [POST_smtp_email (posted_email event) api_key]
              /\ (c = Normal false \/ exists e, c = Throw e)).
  { intros w2. unfold CommentWorker.sendEmail. fold (posted_email event).
    destruct (post_refused brevo (posted_email event) api_key w2 (Hsend _))
      as (c & w3 & Hrun & Hc & [-> | [e ->]]);
      unfold bind at 1; rewrite Hrun.
    - destruct (SendCommentNotificationEmailEvent.reply_to_comment event) as [reply|].
      + destruct (negb _); eexists _, _; (split; [reflexivity|]); split; auto.
      + eexists _, _. split; [reflexivity|]. split; auto.
    - eexists _, _. split; [reflexivity|]. split; [exact Hc|]. right. now eexists. }
  unfold CommentWorker.handle_message, try_catch.
  rewrite Ha, Hta. cbn [negb]. cbv beta iota. unfold bind at 1.
  destruct (register_answered brevo a api_key w (Hreg _ _)) as (b1 & w1 & Hrun1 & Hc1 & _).
  rewrite Hrun1.
  destruct (SendCommentNotificationEmailEvent.reply_to_comment event) as [reply|] eqn:Hr.
  - specialize (Hreply reply eq_refl).
    destruct (EmailCommentProperties.author_email reply) as [p|]; [|discriminate].
    simpl in Hreply. rewrite Hreply. cbn [negb]. cbv beta iota. unfold bind at 1.
    destruct (register_answered brevo p api_key w1 (Hreg _ _)) as (b2 & w2 & Hrun2 & Hc2 & _).
    rewrite Hrun2.
    destruct (Hsent w2) as (c & w3 & Hrun3 & Hc3 & [-> | [e ->]]);
      unfold bind, ret, worker_console_push; rewrite Hrun3; eexists;
      (split; [reflexivity|]); simpl;
      rewrite Hc3, Hc2, Hc1, !sends_app; simpl; now rewrite !app_nil_r.
  - destruct (Hsent w1) as (c & w3 & Hrun3 & Hc3 & [-> | [e ->]]);
      unfold bind, ret, worker_console_push; rewrite Hrun3; eexists;
      (split; [reflexivity|]); simpl;
      rewrite Hc3, Hc1, !sends_app; simpl; now rewrite !app_nil_r.
Qed.

(** A reply to a comment that has no address: the author is registered,
    nothing is sent, the message is acknowledged. *)
Lemma unaddressed_parent api_key event reply a w :
  EmailCommentProperties.author_email (SendCommentNotificationEmailEvent.comment event)
  = Some a ->
  truthy a = true ->
  SendCommentNotificationEmailEvent.reply_to_comment event = Some reply ->
  truthy_opt (EmailCommentProperties.author_email reply) = false ->
  answered (Brevo.contacts brevo (Worker.calls w) a) = true ->
  exists w',
    handle_message api_key event w = (Normal ack, w')
    /\ Worker.calls w' = Worker.calls w ++ [POST_contacts a api_key]
    /\ exists logged,
         Worker.console w' = Worker.console w ++ logged ++ [error_no_reply_to_email].
Proof.
  intros Ha Hta Hr Hfalsy Hreg.
  unfold CommentWorker.handle_message, try_catch.
  rewrite Ha, Hr, Hta. cbn [negb]. cbv beta iota. unfold bind at 1.
  destruct (register_answered brevo a api_key w Hreg) as (b1 & w1 & Hrun1 & Hc1 & logged & Hl1).
  rewrite Hrun1.
  destruct (EmailCommentProperties.author_email reply) as [p|].
  - simpl in Hfalsy. rewrite Hfalsy. cbn [negb]. cbv beta iota.
    unfold bind, ret, worker_console_push. simpl. eexists. split; [reflexivity|].
    simpl. split; [exact Hc1|]. exists logged. now rewrite Hl1, app_assoc.
  - unfold bind, ret, worker_console_push. simpl. eexists. split; [reflexivity|].
    simpl. split; [exact Hc1|]. exists logged. now rewrite Hl1, app_assoc.
Qed.

(** X19: a reply to a comment whose author left no address is
    acknowledged without any email: the author's address is registered,
    but the author's own "you posted a comment" email is not sent, and
    the worker logs that it will not retry. *)
Theorem X19_reply_to_unaddressed_parent_sends_nothing
    (api_key : jstr) (event : SendCommentNotificationEmailEvent.t)
    (reply : EmailCommentProperties.t) (a : jstr) (w : Worker.t) :
  EmailCommentProperties.author_email (SendCommentNotificationEmailEvent.comment event)
  = Some a ->
  truthy a = true ->
  SendCommentNotificationEmailEvent.reply_to_comment event = Some reply ->
  truthy_opt (EmailCommentProperties.author_email reply) = false ->
  answered (Brevo.contacts brevo (Worker.calls w) a) = true ->
  exists w',
    handle_message api_key event w = (Normal ack, w')
    /\ Worker.calls w' = Worker.calls w ++ [POST_contacts a api_key]
    /\ sends (Worker.calls w') = sends (Worker.calls w)
    /\ exists logged,
         Worker.console w' = Worker.console w ++ logged ++ [error_no_reply_to_email].
Proof.
  intros Ha Hta Hr Hfalsy Hreg.
  destruct (unaddressed_parent api_key event reply a w Ha Hta Hr Hfalsy Hreg)
    as (w' & Hrun & Hc & Hlog).
  exists w'. split; [exact Hrun|]. split; [exact Hc|]. split; [|exact Hlog].
  rewrite Hc, sends_app. simpl. now rewrite app_nil_r.
Qed.

End WorkerFacts.

(** ** From a POST to the email worker *)

Section EndToEnd.

Variable markdownToHtml : jstr -> jstr.
Variable RegExp_test : jstr -> jstr -> jstr + bool.
Variable brevo : Brevo.t.
Variable getDateString : Z -> jstr.

(** X20: on a table whose ids are unique, take a [POST /comment] whose
    author gives a non-empty address and whose [parent_comment_id] is
    the non-zero id of a stored comment whose author's address is
    empty, whose INSERT succeeds and whose sends both queues accept.
    The handler enqueues one email job for it, and the worker, handling
    that job with the registration of the author's address answered,
    acknowledges it without sending any email.  The author of such a
    reply gets no "you posted a comment" email. *)
Theorem X20_reply_to_unaddressed_comment_never_mails
    (req : Request.t) (env : Env.t) (platform : Platform.t)
    (event : PostCommentEvent.t) (parent : CommentsRow.t) (a : jstr)
    (fuel : nat) (w : World.t) (api_key : jstr) (ws : Worker.t) :
  is_POST_comment req event ->
  unique_ids (World.COMMENT_DB w) ->
  In parent (World.COMMENT_DB w) ->
  PostCommentEvent.parent_comment_id event = Some (CommentsRow.id parent) ->
  CommentsRow.id parent <> 0%Z ->
  truthy (CommentsRow.author_email parent) = false ->
  PostCommentEvent.email event = Some a ->
  truthy a = true ->
  Platform.insert_error platform = None ->
  Platform.MESSAGE_QUEUE_send_error platform = None ->
  Platform.EMAIL_QUEUE_send_error platform = None ->
  answered (Brevo.contacts brevo (Worker.calls ws) a) = true ->
  exists job ws',
    World.EMAIL_QUEUE (snd (fetch markdownToHtml RegExp_test req env platform fuel w))
    = World.EMAIL_QUEUE w ++ [job]
    /\ handle_message brevo getDateString api_key job ws = (Normal ack, ws')
    /\ sends (Worker.calls ws') = sends (Worker.calls ws).
Proof.
  intros Hpost Hu Hin Hpid Hnz Hparent Hemail Hta Hins Hmq Heq Hreg.
  assert (Hc : exists pc,
             checked_parent event (World.COMMENT_DB w)
             = Some ((CommentsRow.level parent + 1)%Z, Some pc)
             /\ ParentCommentsRow.author_email pc = CommentsRow.author_email parent).
  { unfold checked_parent, parent_comment_query. rewrite Hpid.
    apply Z.eqb_neq in Hnz. rewrite Hnz, (find_unique _ parent Hu Hin).
    eexists. split; reflexivity. }
  destruct Hc as (pc & Hc & Hpc).
  destruct (post_stores markdownToHtml RegExp_test req env platform event _ _ fuel w
              Hpost Hins Hc) as (r & w' & Hrun & _ & (last & _ & Hnot)).
  rewrite Hrun. cbn [snd]. cbv zeta in Hnot.
  rewrite Hmq, Heq, Hemail in Hnot. simpl truthy_opt in Hnot. rewrite Hta in Hnot.
  destruct Hnot as (_ & Hq & _). simpl World.EMAIL_QUEUE in Hq.
  set (job := email_event
                (comment_properties event last (Platform.getTime platform)) (Some pc)) in *.
  assert (Hfalsy : truthy_opt
                     (EmailCommentProperties.author_email
                        {| EmailCommentProperties.comment_id := ParentCommentsRow.id pc;
                           EmailCommentProperties.comment_timestamp :=
                             ParentCommentsRow.comment_timestamp_ms pc;
                           EmailCommentProperties.author_name :=
                             ParentCommentsRow.author_name pc;
                           EmailCommentProperties.author_email :=
                             Some (ParentCommentsRow.author_email pc);
                           EmailCommentProperties.markdown_content :=
                             ParentCommentsRow.markdown_content pc |}) = false)
    by (simpl; now rewrite Hpc).
  destruct (unaddressed_parent brevo getDateString api_key job _ a ws
              Hemail Hta eq_refl Hfalsy Hreg) as (ws' & Hw & Hcalls & _).
  exists job, ws'. split; [exact Hq|]. split; [exact Hw|].
  rewrite Hcalls, sends_app. simpl. now rewrite app_nil_r.
Qed.

End EndToEnd.

(** ** The Telegram notifier's batches *)

Section TelegramFacts.

Variable chat_id : Js.number.
Variable telegram :
  list TelegramNotifier.SendMessage.t -> TelegramNotifier.SendMessage.t -> option bool.

Abbreviation telegram_queue := (TelegramNotifier.queue chat_id telegram).

Abbreviation answers_earlier posted messages k :=
  (forall j m,
     j < k ->
     nth_error messages j = Some m ->
     telegram (posted ++ map (request chat_id) (firstn j messages)) (request chat_id m)
     <> None).

(** The handler at the message of index [k], every earlier call having
    been answered. *)
Lemma telegram_queue_at messages :
  forall posted decisions k msg,
    nth_error messages k = Some msg ->
    answers_earlier posted messages k ->
    exists ds,
      length ds = k
      /\ (telegram (posted ++ map (request chat_id) (firstn k messages)) (request chat_id msg)
          = None ->
          telegram_queue messages posted decisions
          = (posted ++ map (request chat_id) (firstn (S k) messages), decisions ++ ds, false))
      /\ (forall ok,
            telegram (posted ++ map (request chat_id) (firstn k messages))
              (request chat_id msg) = Some ok ->
            exists later,
              snd (fst (telegram_queue messages posted decisions))
              = decisions ++ ds
                ++ (if ok then TelegramNotifier.ack else TelegramNotifier.retry) :: later).
Proof.
  induction messages as [|msg0 rest IH]; intros posted decisions k msg Hk Hbefore.
  - now destruct k.
  - cbn [TelegramNotifier.queue]. fold (request chat_id msg0).
    destruct k as [|k].
    + injection Hk as <-. exists []. simpl firstn. simpl map. rewrite !app_nil_r.
      split; [reflexivity|]. split.
      * intros ->. reflexivity.
      * intros ok ->.
        destruct (telegram_queue_prefix chat_id telegram rest
                    (posted ++ [request chat_id msg0])
                    (decisions ++ [if negb ok then TelegramNotifier.retry
                                   else TelegramNotifier.ack]))
          as (n & ds & _ & _ & Hds & _).
        exists ds. rewrite Hds, <- app_assoc. now destruct ok.
    + pose proof (Hbefore 0 msg0 (Nat.lt_0_succ k) eq_refl) as H0.
      simpl firstn in H0. simpl map in H0. rewrite app_nil_r in H0.
      destruct (telegram posted (request chat_id msg0)) as [ok0|]; [|now destruct H0].
      destruct (IH (posted ++ [request chat_id msg0])
                  (decisions ++ [if negb ok0 then TelegramNotifier.retry
                                 else TelegramNotifier.ack]) k msg Hk)
        as (ds & Hlen & Hnone & Hsome).
      { intros j m Hj Hm. rewrite <- app_assoc.
        exact (Hbefore (S j) m (proj1 (Nat.succ_lt_mono j k) Hj) Hm). }
      exists ((if negb ok0 then TelegramNotifier.retry else TelegramNotifier.ack) :: ds).
      split; [simpl; now rewrite Hlen|].
      rewrite <- !app_assoc in Hnone, Hsome. split.
      * intros H. rewrite (Hnone H), <- !app_assoc. reflexivity.
      * intros ok H. destruct (Hsome ok H) as (later & ->). exists later.
        now rewrite <- app_assoc.
Qed.

(** X21: the Telegram notifier posts the messages of a batch one by
    one in batch order, each as its text under the configured chat, and
    decides a message only after its call is answered.  Take a message
    of the batch all of whose earlier calls are answered.  If its call
    is rejected the handler ends there: the requests posted are those
    of the messages up to and including it, the decisions taken are
    those of the messages before it, and neither it nor any later
    message is decided or retried.  If its call is answered, the
    message is acknowledged when the answer is [ok] and marked for
    retry when it is not.  When every call is answered the handler runs
    to its end, having posted one request per message and taken one
    decision per message. *)
Theorem X21_telegram_batch_in_order (messages : list TelegramNotifier.Message.t) :
  (forall k msg,
     nth_error messages k = Some msg ->
     answers_earlier [] messages k ->
     (telegram (map (request chat_id) (firstn k messages)) (request chat_id msg) = None ->
      exists decisions,
        telegram_queue messages [] []
        = (map (request chat_id) (firstn (S k) messages), decisions, false)
        /\ length decisions = k)
     /\ (forall ok,
           telegram (map (request chat_id) (firstn k messages)) (request chat_id msg)
           = Some ok ->
           nth_error (snd (fst (telegram_queue messages [] []))) k
           = Some (if ok then TelegramNotifier.ack else TelegramNotifier.retry)))
  /\ ((forall before r, telegram before r <> None) ->
      exists decisions,
        telegram_queue messages [] [] = (map (request chat_id) messages, decisions, true)
        /\ length decisions = length messages).
Proof.
  split.
  - intros k msg Hk Hbefore.
    destruct (telegram_queue_at messages [] [] k msg Hk Hbefore) as (ds & Hlen & Hnone & Hsome).
    simpl in Hnone, Hsome. split.
    + intros H. exists ds. split; [exact (Hnone H) | exact Hlen].
    + intros ok H. destruct (Hsome ok H) as (later & ->).
      rewrite nth_error_app2 by lia. rewrite Hlen, Nat.sub_diag. reflexivity.
  - intros Hall.
    destruct (telegram_queue_prefix chat_id telegram messages [] [])
      as (n & ds & Hn & Hposted & Hds & Hfin & _ & Hend).
    specialize (Hend Hall). destruct (Hfin Hend) as [-> Hlen].
    rewrite firstn_all in Hposted. simpl in Hposted, Hds.
    exists ds. split; [|exact Hlen].
    destruct (telegram_queue messages [] []) as [[posted decisions] finished].
    simpl in *. now subst.
Qed.

End TelegramFacts.

(** ** The further properties at concrete requests *)

Lemma X1_witness :
  exists r w',
    fetch Examples.markdownToHtml Examples.RegExp_test MoreExamples.favicon
      Examples.env Examples.platform 0 (Examples.with_db Examples.thread)
    = (Normal r, w')
    /\ untouched (Examples.with_db Examples.thread) w'
    /\ Response.status r = 404%Z.
Proof.
  destruct (X1_other_path_404 Examples.markdownToHtml Examples.RegExp_test
              MoreExamples.favicon Examples.env Examples.platform 0
              (Examples.with_db Examples.thread))
    as (c & w' & Hrun & Hun & (r & -> & Hst & _)).
  - right. eexists. split; [reflexivity|]. intros H. vm_compute in H. discriminate H.
  - exists r, w'. split; [exact Hrun|]. split; [exact Hun | exact Hst].
Defined.

Lemma X2_witness :
  exists r w',
    fetch Examples.markdownToHtml Examples.RegExp_test MoreExamples.delete_comment
      Examples.env Examples.platform 0 (Examples.with_db Examples.thread)
    = (Normal r, w')
    /\ untouched (Examples.with_db Examples.thread) w'
    /\ Response.status r = 405%Z.
Proof.
  destruct (X2_other_method_405 Examples.markdownToHtml Examples.RegExp_test
              MoreExamples.delete_comment Examples.env Examples.platform
              {| URL.pathname := lit "/comment"; URL.searchParams := [] |} 0
              (Examples.with_db Examples.thread) eq_refl eq_refl
              ltac:(intros H; vm_compute in H; discriminate H)
              ltac:(intros H; vm_compute in H; discriminate H)
              ltac:(intros H; vm_compute in H; discriminate H))
    as (c & w' & Hrun & Hun & (r & -> & Hst & _)).
  exists r, w'. split; [exact Hrun|]. split; [exact Hun | exact Hst].
Defined.

Lemma X3_witness :
  exists r w',
    fetch Examples.markdownToHtml Examples.RegExp_test
      (Examples.get_from (Some Examples.blog_origin)
         [("comment_base_type", "page"); ("comment_base_id", "hello")]%string)
      Examples.env Examples.platform 5 (Examples.with_db Examples.thread)
    = (Normal r, w')
    /\ Response.status r = 400%Z
    /\ Response.body r = text (lit "Invalid comment base type").
Proof.
  destruct (X3_invalid_base_type_400 Examples.markdownToHtml Examples.RegExp_test
              (Examples.get_from (Some Examples.blog_origin)
                 [("comment_base_type", "page"); ("comment_base_id", "hello")]%string)
              Examples.env Examples.platform _ 5 (Examples.with_db Examples.thread)
              (is_GET_comment_get_from _ _)
              ltac:(intros H; vm_compute in H; discriminate H)
              ltac:(intros H; vm_compute in H; discriminate H))
    as (c & w' & Hrun & _ & (r & -> & Hst & Hbody)).
  exists r, w'. split; [exact Hrun|]. split; [exact Hst | exact Hbody].
Defined.

Lemma X4_witness :
  exists r w',
    fetch Examples.markdownToHtml Examples.RegExp_test
      (Examples.options_from (Some Examples.blog_origin))
      Examples.env Examples.platform 0 Examples.fresh
    = (Normal r, w')
    /\ carries_cors r (World.corsHeaders w')
    /\ World.corsHeaders w' = set_Allow_Origin corsHeaders_initial Examples.blog_origin.
Proof.
  eexists _, _. split; [reflexivity|].
  destruct (proj2 (X4_answers_carry_cors Examples.markdownToHtml Examples.RegExp_test
                     (Examples.options_from (Some Examples.blog_origin))
                     Examples.env Examples.platform 0 Examples.fresh _ _ eq_refl)
              Examples.blog_origin eq_refl eq_refl)
    as ([|] & Hallowed & Hcarry & Hcors); [|discriminate Hallowed].
  split; [exact Hcarry | exact Hcors].
Defined.

Lemma X5_witness :
  cors_fixed
    (World.corsHeaders
       (run Examples.markdownToHtml Examples.RegExp_test MoreExamples.visits Examples.fresh)).
Proof.
  exact (proj1 (X5_global_cors_over_requests Examples.markdownToHtml Examples.RegExp_test
                  MoreExamples.visits Examples.fresh eq_refl)).
Defined.

Lemma X6_witness :
  exists r w',
    fetch Examples.markdownToHtml Examples.RegExp_test MoreExamples.broken_post
      Examples.env Examples.platform 0 (Examples.with_db Examples.thread)
    = (Normal r, w')
    /\ store_unchanged (Examples.with_db Examples.thread) w'
    /\ Response.status r = 500%Z
    /\ Response.body r = text (lit "Internal server error").
Proof.
  destruct (proj1 (X6_failed_post_500 Examples.markdownToHtml Examples.RegExp_test
                     MoreExamples.broken_post Examples.env Examples.platform
                     {| URL.pathname := lit "/comment"; URL.searchParams := [] |} 0
                     (Examples.with_db Examples.thread) eq_refl eq_refl eq_refl)
              _ eq_refl)
    as (c & w' & Hrun & Hun & _ & (r & -> & Hst & Hbody)).
  exists r, w'. split; [exact Hrun|]. split; [exact Hun|].
  split; [exact Hst | exact Hbody].
Defined.

Lemma X7_witness :
  exists r w' row,
    fetch Examples.markdownToHtml Examples.RegExp_test
      (Examples.post_from None (Examples.comment_event None Examples.eve))
      Examples.env Examples.platform 0 (Examples.with_db Examples.thread)
    = (Normal r, w')
    /\ Response.status r = 400%Z
    /\ World.COMMENT_DB w' = Examples.thread ++ [row]
    /\ CommentsRow.markdown_content row = lit "hi".
Proof.
  destruct (X7_post_without_origin_is_stored Examples.markdownToHtml Examples.RegExp_test
              (Examples.post_from None (Examples.comment_event None Examples.eve))
              Examples.env Examples.platform
              (Examples.comment_event None Examples.eve) 0
              (Examples.with_db Examples.thread)
              (is_POST_comment_post_from _ _) eq_refl (or_introl eq_refl) eq_refl)
    as (r & w' & row & Hrun & Hr & Hdb & Hmd & _).
  exists r, w', row. split; [exact Hrun|]. split; [now rewrite Hr|].
  split; [exact Hdb | exact Hmd].
Defined.

Lemma X9_witness :
  exists job,
    World.MESSAGE_QUEUE
      (snd (fetch Examples.markdownToHtml Examples.RegExp_test MoreExamples.first_post
              Examples.env Examples.platform 0 (Examples.with_db Examples.thread)))
    = [job]
    /\ TelegramCommentProperties.comment_id job = 5%Z
    /\ TelegramCommentProperties.comment_timestamp job = 1700000000000%Z.
Proof.
  destruct (X9_job_names_the_row_of_the_uuid Examples.markdownToHtml Examples.RegExp_test
              MoreExamples.first_post Examples.env Examples.platform
              (Examples.comment_event None Examples.eve) 0
              (Examples.with_db Examples.thread)
              (is_POST_comment_post_from _ _) (or_introl eq_refl) eq_refl eq_refl)
    as (level & job & _ & Hq & Ht & Hfresh & _).
  exists job. split; [exact Hq|]. split; [exact (Hfresh eq_refl) | exact Ht].
Defined.

Lemma X10_witness :
  untouched (Examples.with_db Examples.thread)
    (snd (fetch Examples.markdownToHtml Examples.RegExp_test
            (Examples.get_from (Some Examples.blog_origin) (MoreExamples.hello_comments "true"))
            Examples.env Examples.platform 5 (Examples.with_db Examples.thread))).
Proof.
  apply (X10_only_post_writes Examples.markdownToHtml Examples.RegExp_test
           (Examples.get_from (Some Examples.blog_origin) (MoreExamples.hello_comments "true"))
           Examples.env Examples.platform 5 (Examples.with_db Examples.thread)
           ltac:(intros H; vm_compute in H; discriminate H)).
  reflexivity.
Defined.

Lemma X11_witness :
  levels_consistent (World.COMMENT_DB MoreExamples.after_first_post)
  /\ Forall (fun r => (1 <= CommentsRow.id r)%Z
                      /\ (0 <= CommentsRow.parent_id r)%Z
                      /\ (0 <= CommentsRow.level r)%Z)
       (World.COMMENT_DB MoreExamples.after_first_post).
Proof.
  apply (X11_stored_levels_consistent Examples.markdownToHtml Examples.RegExp_test).
  exact (@stored_fetch Examples.markdownToHtml Examples.RegExp_test MoreExamples.first_post
           Examples.env Examples.platform 0 Examples.fresh
           (@stored_empty Examples.markdownToHtml Examples.RegExp_test)).
Defined.


Lemma X13_witness :
  exists r w',
    fetch Examples.markdownToHtml Examples.RegExp_test
      (Examples.get_from (Some Examples.blog_origin) (MoreExamples.hello_comments "false"))
      Examples.env Examples.platform 1
      (snd (fetch Examples.markdownToHtml Examples.RegExp_test MoreExamples.first_post
              Examples.env Examples.platform 0 (Examples.with_db Examples.thread)))
    = (Normal r, w')
    /\ Response.status r = 200%Z
    /\ Response.body r
       = JSON_stringify
           [ leaf (Examples.row 1 "hello" 0 0 "ann" "ann@example.org" "first");
             stored_node Examples.markdownToHtml Examples.platform
               (Examples.comment_event None Examples.eve) Examples.thread ].
Proof.
  destruct (X13_posted_comment_is_read_back Examples.markdownToHtml Examples.RegExp_test
              MoreExamples.first_post
              (Examples.get_from (Some Examples.blog_origin)
                 (MoreExamples.hello_comments "false"))
              Examples.env Examples.env Examples.platform Examples.platform
              (Examples.comment_event None Examples.eve) _ 0 0
              (Examples.with_db Examples.thread)
              (is_POST_comment_post_from _ _) eq_refl eq_refl
              (is_GET_comment_get_from _ _) eq_refl eq_refl eq_refl)
    as (c & w' & Hrun & (r & -> & Hst & Hbody)).
  exists r, w'. split; [exact Hrun|]. split; [exact Hst | exact Hbody].
Defined.

Lemma X14_witness :
  is_allowed MoreExamples.RegExp_test_strict Examples.blog_origin [lit "/(/"; lit "*"]
  = inl (lit "Invalid regular expression: /(/: Unterminated group")
  /\ is_allowed MoreExamples.RegExp_test_strict Examples.blog_origin
       [lit "http://localhost:3000"; lit "*"; lit "/(/"]
     = inr true.
Proof.
  split.
  - apply (proj2 (X14_is_allowed_by_some_entry MoreExamples.RegExp_test_strict
                    Examples.blog_origin [lit "/(/"; lit "*"])
             (inl (lit "Invalid regular expression: /(/: Unterminated group"))
             ltac:(discriminate)).
    exists [], (lit "/(/"), [lit "*"].
    split; [reflexivity|]. split; [constructor | reflexivity].
  - apply (proj2 (X14_is_allowed_by_some_entry MoreExamples.RegExp_test_strict
                    Examples.blog_origin [lit "http://localhost:3000"; lit "*"; lit "/(/"])
             (inr true) ltac:(discriminate)).
    exists [lit "http://localhost:3000"], (lit "*"), [lit "/(/"].
    split; [reflexivity|]. split; [|reflexivity].
    constructor; [reflexivity | constructor].
Defined.

Lemma X21_witness :
  exists decisions,
    TelegramNotifier.queue MoreExamples.telegram_chat_id MoreExamples.telegram_second_rejects
      MoreExamples.telegram_batch [] []
    = (map (request MoreExamples.telegram_chat_id) (firstn 2 MoreExamples.telegram_batch), decisions, false)
    /\ length decisions = 1.
Proof.
  refine (proj1 (proj1 (X21_telegram_batch_in_order MoreExamples.telegram_chat_id MoreExamples.telegram_second_rejects
                          MoreExamples.telegram_batch)
                   1 _ eq_refl _) eq_refl).
  intros [|j] m Hj Hm; [discriminate | lia].
Defined.

Lemma X17_witness :
  exists w',
    handle_message MoreExamples.accepting Examples.getDateString Examples.api_key
      MoreExamples.reply_to_ann Examples.idle
    = (Normal ack, w')
    /\ Worker.calls w'
       = [ POST_contacts (lit "eve@example.org") Examples.api_key;
           POST_contacts (lit "ann@example.org") Examples.api_key;
           POST_smtp_email
             (posted_email Examples.getDateString MoreExamples.reply_to_ann)
             Examples.api_key;
           POST_smtp_email
             (reply_email Examples.getDateString MoreExamples.reply_to_ann
                MoreExamples.ann_properties)
             Examples.api_key ].
Proof.
  destruct (X17_reply_notifies_both MoreExamples.accepting Examples.getDateString
              Examples.api_key MoreExamples.reply_to_ann MoreExamples.ann_properties
              (lit "eve@example.org") (lit "ann@example.org") Examples.idle
              eq_refl eq_refl eq_refl eq_refl eq_refl
              ltac:(intros H; vm_compute in H; discriminate H)
              (fun _ _ => eq_refl) (fun _ _ => eq_refl))
    as (w' & Hrun & Hcalls & _).
  exists w'. split; [exact Hrun | exact Hcalls].
Defined.

Lemma X18_witness :
  exists w',
    handle_message MoreExamples.refusing_sends Examples.getDateString Examples.api_key
      MoreExamples.reply_to_ann Examples.idle
    = (Normal retry, w')
    /\ sends (Worker.calls w')
       = [posted_email Examples.getDateString MoreExamples.reply_to_ann].
Proof.
  exact (X18_failed_receipt_stops_sending MoreExamples.refusing_sends
           Examples.getDateString Examples.api_key MoreExamples.reply_to_ann
           (lit "eve@example.org") Examples.idle eq_refl eq_refl
           (fun reply H =>
              match H in _ = Some r
                    return truthy_opt (EmailCommentProperties.author_email r) = true
              with eq_refl => eq_refl end)
           (fun _ _ => eq_refl) (fun _ => eq_refl)).
Defined.

Lemma X19_witness :
  exists w',
    handle_message MoreExamples.accepting Examples.getDateString Examples.api_key
      MoreExamples.reply_to_bob Examples.idle
    = (Normal ack, w')
    /\ Worker.calls w' = [POST_contacts (lit "eve@example.org") Examples.api_key]
    /\ sends (Worker.calls w') = [].
Proof.
  destruct (X19_reply_to_unaddressed_parent_sends_nothing MoreExamples.accepting
              Examples.getDateString Examples.api_key MoreExamples.reply_to_bob
              MoreExamples.bob_properties (lit "eve@example.org") Examples.idle
              eq_refl eq_refl eq_refl eq_refl eq_refl)
    as (w' & Hrun & Hcalls & Hsends & _).
  exists w'. split; [exact Hrun|]. split; [exact Hcalls | exact Hsends].
Defined.

Lemma X20_witness :
  exists job ws',
    World.EMAIL_QUEUE
      (snd (fetch Examples.markdownToHtml Examples.RegExp_test
              (Examples.post_from (Some Examples.blog_origin)
                 (Examples.comment_event (Some 2%Z) Examples.eve))
              Examples.env Examples.platform 0 (Examples.with_db Examples.thread)))
    = [job]
    /\ handle_message MoreExamples.accepting Examples.getDateString Examples.api_key
         job Examples.idle
       = (Normal ack, ws')
    /\ sends (Worker.calls ws') = [].
Proof.
  exact (X20_reply_to_unaddressed_comment_never_mails
           Examples.markdownToHtml Examples.RegExp_test
           MoreExamples.accepting Examples.getDateString
           (Examples.post_from (Some Examples.blog_origin)
              (Examples.comment_event (Some 2%Z) Examples.eve))
           Examples.env Examples.platform
           (Examples.comment_event (Some 2%Z) Examples.eve)
           (Examples.row 2 "hello" 1 1 "bob" "" "second")
           (lit "eve@example.org") 0 (Examples.with_db Examples.thread)
           Examples.api_key Examples.idle
           (is_POST_comment_post_from _ _) thread_unique_ids
           (or_intror (or_introl eq_refl)) eq_refl
           ltac:(discriminate) eq_refl eq_refl eq_refl eq_refl eq_refl eq_refl eq_refl).
Defined.

(** ** The two versions of the CORS wrapper *)

Lemma is_allowed_from_plain RegExp_test origin allowedOrigins rest :
  Forall (fun a => a <> lit "*" /\ is_pattern a = false) rest ->
  incl rest allowedOrigins ->
  is_allowed_from RegExp_test origin allowedOrigins rest = inr (includes rest origin).
Proof.
  induction 1 as [|a l [Hstar Hplain] _ IH]; intros Hincl; [reflexivity|].
  rewrite is_allowed_from_step by (apply Hincl; now left).
  unfold entry_allows. rewrite Hplain. apply jstr_eqb_neq in Hstar. rewrite Hstar.
  unfold includes. cbn [existsb].
  destruct (Js.eqb origin a); [reflexivity|].
  apply IH. intros x Hx. apply Hincl. now right.
Qed.

(** X22: on an allow-list that holds neither [*] nor an entry written
    between slashes, the wrapper of the queued worker does exactly what
    the wrapper of the first version did, for every request, response
    and state of the global [corsHeaders]: the later version only adds
    the wildcard and the patterns. *)
Theorem X22_cors_wrapper_extends_first_version
    (RegExp_test : jstr -> jstr -> jstr + bool) (request : Request.t) (response : Response.t)
    (allowedOrigins : list jstr) (w : World.t) :
  Forall (fun a => a <> lit "*" /\ is_pattern a = false) allowedOrigins ->
  setCorsHeaderToResponse RegExp_test request response allowedOrigins w
  = FirstVersion.setCorsHeaderToResponse request response allowedOrigins w.
Proof.
  intros Hplain.
  unfold setCorsHeaderToResponse, FirstVersion.setCorsHeaderToResponse, is_allowed.
  destruct (Request.Origin request) as [origin|]; [|reflexivity].
  now rewrite (is_allowed_from_plain RegExp_test origin allowedOrigins allowedOrigins
                 Hplain (incl_refl _)).
Qed.

Lemma X22_witness :
  setCorsHeaderToResponse Examples.RegExp_test
    (Examples.options_from (Some Examples.blog_origin))
    (new_Response (text (lit "OK")) no_init)
    [Examples.blog_origin; lit "http://localhost:3000"] Examples.fresh
  = FirstVersion.setCorsHeaderToResponse
      (Examples.options_from (Some Examples.blog_origin))
      (new_Response (text (lit "OK")) no_init)
      [Examples.blog_origin; lit "http://localhost:3000"] Examples.fresh.
Proof.
  apply X22_cors_wrapper_extends_first_version.
  apply Forall_cons.
  - split; [intros H; vm_compute in H; discriminate H | vm_compute; reflexivity].
  - apply Forall_cons; [|apply Forall_nil].
    split; [intros H; vm_compute in H; discriminate H | vm_compute; reflexivity].
Defined.
